(** * GA4 report encoder of [src/worker/ga4.ts]

    A shallow embedding of the Google Analytics 4 reporter: the report data
    model, the parameter encoder ([maybeAddShortParam],
    [maybeAddCustomEventParam]), the query-parameter builder and the [send]
    operation with its session bookkeeping, the client-id digest and the page
    title derivation, followed by the properties proved about them.

    Conventions.
    - A JavaScript string is represented by its UTF-8 encoding, one [ascii]
      per byte; [TextEncoder.encode] is then the identity on the bytes.
    - A JavaScript [number] is represented by an integer [Z]: the numbers the
      reporter handles itself (protocol version, session number, hit count,
      HTTP status) are integers, and [String] of such a number is its decimal
      numeral. Numbers with a fraction, NaN and the infinities are outside
      the model.
    - A [Record<string, T>] is an association list in the order of
      [Object.entries]. For the records the reporter builds this is the order
      in which the keys were first assigned: none of their keys is an array
      index.
    - The imported functions ([snakeCase], [STATUS_TEXT]) and the functions
      of the platform that are not computed here ([crypto.subtle.digest],
      [new URL], [fetch], the environment, the clock) are parameters. *)

From Stdlib Require Import String Ascii ZArith List Bool Lia DecimalString.
From stdpp Require Import base option list strings gmap.

Local Open Scope string_scope.
Local Open Scope Z_scope.

(** ** Values *)

(** [Primitive = bigint | boolean | null | number | string], extended with
    [undefined], which optional parameters ([value?: Primitive]) and optional
    fields can carry. *)
Inductive Primitive : Type :=
| PUndefined
| PNull
| PBoolean (b : bool)
| PNumber (n : Z)
| PBigInt (n : Z)
| PString (s : string).

(** Decimal numeral of an integer, as [String(n)] and template literals
    print it. *)
Definition Z_to_string (n : Z) : string :=
  NilEmpty.string_of_int (Z.to_int n).

(** [String(value)]. *)
Definition String_ (value : Primitive) : string :=
  match value with
  | PUndefined => "undefined"
  | PNull => "null"
  | PBoolean true => "true"
  | PBoolean false => "false"
  | PNumber n => Z_to_string n
  | PBigInt n => Z_to_string n
  | PString s => s
  end.

(** Optional fields read as primitives: an absent field is [undefined]. *)
Definition ofString (o : option string) : Primitive :=
  match o with Some s => PString s | None => PUndefined end.

Definition ofBoolean (o : option bool) : Primitive :=
  match o with Some b => PBoolean b | None => PUndefined end.

Definition ofNumber (o : option Z) : Primitive :=
  match o with Some n => PNumber n | None => PUndefined end.

(** ** Ordered string records *)

(** [Record<string, string>] in property order. *)
Definition Params : Type := list (string * string).

(** [params[name] = value]: an existing property keeps its place and takes
    the new value, a new property goes to the end. *)
Fixpoint assign (params : Params) (name value : string) : Params :=
  match params with
  | [] => [(name, value)]
  | (k, v) :: rest =>
      if String.eqb k name then (k, value) :: rest
      else (k, v) :: assign rest name value
  end.

(** [params[name]]. *)
Fixpoint get (params : Params) (name : string) : option string :=
  match params with
  | [] => None
  | (k, v) :: rest => if String.eqb k name then Some v else get rest name
  end.

(** [Object.keys(params)]. *)
Definition keys (params : Params) : list string := map fst params.

(** ** The parameter encoder *)

(** [maybeAddShortParam(params, name, value)]. *)
Definition maybeAddShortParam (params : Params) (name : string)
    (value : Primitive) : Params :=
  match value with
  | PUndefined | PNull => params (* value == null: do nothing *)
  | PBoolean b => assign params name (if b then "1" else "0")
  | _ => assign params name (String_ value)
  end.

Section CustomParams.

(** [snakeCase] of [deno.land/x/case], an imported function. *)
Variable snakeCase : string -> string.

(** [maybeAddCustomEventParam(params, prefix, name, value)]. *)
Definition maybeAddCustomEventParam (params : Params) (prefix name : string)
    (value : Primitive) : Params :=
  match value with
  | PUndefined => params (* value === undefined: do nothing *)
  | PNumber _ | PBigInt _ =>
      assign params (prefix +:+ "n." +:+ snakeCase name) (String_ value)
  | _ => assign params (prefix +:+ "." +:+ snakeCase name) (String_ value)
  end.

End CustomParams.

(** ** Regular expressions

    The regular expressions of the source, on UTF-8 bytes: a backtracking
    matcher with the priorities of ECMAScript (leftmost alternative first,
    greedy quantifiers, an iteration that matches the empty string is
    rejected). *)

Inductive regex : Type :=
| Chr (p : ascii -> bool)      (* one byte satisfying [p] *)
| Eps                          (* the empty pattern *)
| Seq (r1 r2 : regex)
| Alt (r1 r2 : regex)          (* r1|r2 *)
| Star (r : regex)             (* r*, greedy *)
| AtEnd.                       (* $ *)

Definition Plus (r : regex) : regex := Seq r (Star r).   (* r+ *)
Definition Opt (r : regex) : regex := Alt r Eps.         (* r? *)

(** The iterations of [r*] at the head of [s], for the matcher [body] of
    [r]: one more iteration is tried first, and it must consume input; when
    that fails, the star ends here. An iteration consumes at least one byte,
    so a [fuel] above the length of [s] is never used up. *)
Fixpoint iterate {A : Type}
    (body : string -> (string -> option A) -> option A)
    (k : string -> option A) (fuel : nat) (s : string) : option A :=
  match fuel with
  | O => k s
  | S fuel' =>
      match
        body s (fun rest =>
          if (String.length rest <? String.length s)%nat
          then iterate body k fuel' rest else None)
      with
      | Some x => Some x
      | None => k s
      end
  end.

(** [run r s k]: match [r] at the head of [s] and hand the remaining input
    to the continuation [k]; on failure of [k] the matcher backtracks. *)
Fixpoint run {A : Type} (r : regex) (s : string)
    (k : string -> option A) : option A :=
  match r with
  | Chr p =>
      match s with
      | String a rest => if p a then k rest else None
      | EmptyString => None
      end
  | Eps => k s
  | Seq r1 r2 => run r1 s (fun rest => run r2 rest k)
  | Alt r1 r2 =>
      match run r1 s k with
      | Some x => Some x
      | None => run r2 s k
      end
  | Star r1 => iterate (run r1) k (S (String.length s)) s
  | AtEnd =>
      match s with
      | EmptyString => k s
      | String _ _ => None
      end
  end.

(** Number of bytes of the match of [r] at the head of [s], if it matches. *)
Definition matchLen (r : regex) (s : string) : option nat :=
  run r s (fun rest => Some (String.length s - String.length rest)%nat).

Fixpoint dropBytes (n : nat) (s : string) : string :=
  match n, s with
  | S n', String _ rest => dropBytes n' rest
  | _, _ => s
  end.

(** [s.replace(r, by)] for a regular expression without the [g] flag: the
    leftmost match is replaced. *)
Fixpoint replace (r : regex) (by_ : string) (s : string) : string :=
  match matchLen r s with
  | Some n => by_ +:+ dropBytes n s
  | None =>
      match s with
      | EmptyString => EmptyString
      | String a rest => String a (replace r by_ rest)
      end
  end.

(** [s.replace(r, by)] with the [g] flag. [skip] counts the bytes of the
    current match that are still to be dropped; after an empty match the
    search moves on by one byte. *)
Fixpoint replaceAll_from (r : regex) (by_ : string) (skip : nat)
    (s : string) : string :=
  match s with
  | EmptyString =>
      match matchLen r s with Some _ => by_ | None => EmptyString end
  | String a rest =>
      match skip with
      | S skip' => replaceAll_from r by_ skip' rest
      | O =>
          match matchLen r s with
          | Some (S n) => by_ +:+ replaceAll_from r by_ n rest
          | Some O => by_ +:+ String a (replaceAll_from r by_ O rest)
          | None => String a (replaceAll_from r by_ O rest)
          end
      end
  end.

Definition replaceAll (r : regex) (by_ : string) (s : string) : string :=
  replaceAll_from r by_ O s.

(** [s.split(r)]: [piece] is the substring from the end of the last
    separator to the current position. An empty match does not split at the
    start of a piece. *)
Fixpoint split_from (r : regex) (skip : nat) (piece : string)
    (s : string) : list string :=
  match s with
  | EmptyString => [piece]
  | String a rest =>
      match skip with
      | S skip' => split_from r skip' EmptyString rest
      | O =>
          match matchLen r s with
          | Some (S n) => piece :: split_from r n EmptyString rest
          | Some O =>
              if String.eqb piece EmptyString
              then split_from r O (String a EmptyString) rest
              else piece :: split_from r O (String a EmptyString) rest
          | None => split_from r O (piece +:+ String a EmptyString) rest
          end
      end
  end.

Definition split (r : regex) (s : string) : list string :=
  match s with
  | EmptyString =>
      match matchLen r s with Some _ => [] | None => [s] end
  | _ => split_from r O EmptyString s
  end.

(** ** Character classes and string helpers *)

Definition code (a : ascii) : N := N_of_ascii a.

(** The byte with code [n]. *)
Definition B (n : N) : regex := Chr (fun a => N.eqb (code a) n).

(** A byte with code between [lo] and [hi]. *)
Definition between (lo hi : N) (a : ascii) : bool :=
  (N.leb lo (code a) && N.leb (code a) hi)%bool.

Definition isDigit (a : ascii) : bool := between 48 57 a.    (* 0-9 *)
Definition isUpper (a : ascii) : bool := between 65 90 a.    (* A-Z *)
Definition isLower (a : ascii) : bool := between 97 122 a.   (* a-z *)

(** [\s]: the WhiteSpace and LineTerminator code points of ECMAScript in
    UTF-8: U+0009..U+000D, U+0020, U+00A0, U+1680, U+2000..U+200A, U+2028,
    U+2029, U+202F, U+205F, U+3000 and U+FEFF. *)
Definition WhiteSpace : regex :=
  Alt (Chr (fun a => (between 9 13 a || N.eqb (code a) 32)%bool))
 (Alt (Seq (B 194) (B 160))
 (Alt (Seq (B 225) (Seq (B 154) (B 128)))
 (Alt (Seq (B 226) (Seq (B 128)
        (Chr (fun a => (between 128 138 a || between 168 169 a
                        || N.eqb (code a) 175)%bool))))
 (Alt (Seq (B 226) (Seq (B 129) (B 159)))
 (Alt (Seq (B 227) (Seq (B 128) (B 128)))
      (Seq (B 239) (Seq (B 187) (B 191)))))))).

(** [s.trim()]: white space is removed from both ends. *)
Definition trimStart (s : string) : string :=
  match matchLen (Star WhiteSpace) s with
  | Some n => dropBytes n s
  | None => s
  end.

Definition trimEnd (s : string) : string :=
  replace (Seq (Plus WhiteSpace) AtEnd) "" s.

Definition trim (s : string) : string := trimEnd (trimStart s).

(** [s.toLowerCase()] for code points up to U+00FF, the range of a header
    value and of a status text: A-Z, and U+00C0..U+00DE except U+00D7, whose
    UTF-8 encoding is the byte 195 followed by 128..158 except 151. *)
Fixpoint toLowerCase_from (after195 : bool) (s : string) : string :=
  match s with
  | EmptyString => EmptyString
  | String a rest =>
      if after195 then
        if (between 128 158 a && negb (N.eqb (code a) 151))%bool
        then String (ascii_of_N (code a + 32)) (toLowerCase_from false rest)
        else String a (toLowerCase_from false rest)
      else if isUpper a
      then String (ascii_of_N (code a + 32)) (toLowerCase_from false rest)
      else String a (toLowerCase_from (N.eqb (code a) 195) rest)
  end.

Definition toLowerCase (s : string) : string := toLowerCase_from false s.

(** [pieces.join(sep)]. *)
Fixpoint join (sep : string) (pieces : list string) : string :=
  match pieces with
  | [] => EmptyString
  | [p] => p
  | p :: rest => p +:+ sep +:+ join sep rest
  end.

(** [Boolean(s)] for a string: the empty string is falsy. *)
Definition nonEmpty (s : string) : bool := negb (String.eqb s EmptyString).

(** ** [decodeURIComponent]

    The built-in decoder: every [%XX] escape becomes its byte, an escape that
    is not two hexadecimal digits throws, and the escaped bytes from 128 up
    must spell a well-formed UTF-8 sequence, or the function throws
    ([URIError], here [None]). *)

Definition hexValue (a : ascii) : option N :=
  if isDigit a then Some (code a - 48)%N
  else if between 65 70 a then Some (code a - 55)%N
  else if between 97 102 a then Some (code a - 87)%N
  else None.

(** The bytes of [s], each marked as written literally ([false]) or
    escaped ([true]). *)
Fixpoint unescapeBytes (s : string) : option (list (ascii * bool)) :=
  match s with
  | EmptyString => Some []
  | String a rest =>
      if N.eqb (code a) 37 (* % *) then
        match rest with
        | String h (String l rest') =>
            match hexValue h, hexValue l with
            | Some x, Some y =>
                option_map (cons (ascii_of_N (16 * x + y), true))
                           (unescapeBytes rest')
            | _, _ => None
            end
        | _ => None
        end
      else option_map (cons (a, false)) (unescapeBytes rest)
  end.

(** What the UTF-8 check expects next: the start of a character, or a
    continuation byte in [lo..hi] followed by [more] plain continuation
    bytes. *)
Inductive utf8State : Type :=
| AtStart
| Continue (more : nat) (lo hi : N).

Definition utf8Lead (b : N) : option utf8State :=
  if N.ltb b 128 then Some AtStart
  else if (N.leb 194 b && N.leb b 223)%bool then Some (Continue 0 128 191)
  else if N.eqb b 224 then Some (Continue 1 160 191)
  else if (N.leb 225 b && N.leb b 236)%bool then Some (Continue 1 128 191)
  else if N.eqb b 237 then Some (Continue 1 128 159)
  else if (N.leb 238 b && N.leb b 239)%bool then Some (Continue 1 128 191)
  else if N.eqb b 240 then Some (Continue 2 144 191)
  else if (N.leb 241 b && N.leb b 243)%bool then Some (Continue 2 128 191)
  else if N.eqb b 244 then Some (Continue 2 128 143)
  else None.

Fixpoint escapesWellFormed (st : utf8State) (bytes : list (ascii * bool))
    : bool :=
  match bytes with
  | [] => match st with AtStart => true | Continue _ _ _ => false end
  | (a, escaped) :: rest =>
      match st with
      | AtStart =>
          if escaped then
            match utf8Lead (code a) with
            | Some st' => escapesWellFormed st' rest
            | None => false
            end
          else escapesWellFormed AtStart rest
      | Continue more lo hi =>
          (escaped && between lo hi a
           && escapesWellFormed
                match more with
                | O => AtStart
                | S more' => Continue more' 128 191
                end rest)%bool
      end
  end.

Definition decodeURIComponent (s : string) : option string :=
  match unescapeBytes s with
  | Some bytes =>
      if escapesWellFormed AtStart bytes
      then Some (string_of_list_ascii (map fst bytes))
      else None
  | None => None
  end.

(** ** Data model *)

(** A [Headers] object as the list of its entries: lower-case names, in
    iteration order. *)
Definition Headers : Type := list (string * string).

(** [headers.get(name)] for a lower-case [name]: the values of the entries
    with that name joined by a comma and a space, [null] if there is none. *)
Definition Headers_get (headers : Headers) (name : string) : option string :=
  match filter (fun e => String.eqb (fst e) name) headers with
  | [] => None
  | found => Some (join ", " (map snd found))
  end.

Record Client : Type := {
  client_id : option string;
  client_ip : option string;
  client_language : option string;
  client_headers : Headers
}.

Record User : Type := {
  user_id : option string;
  user_properties : list (string * Primitive)
}.

Record Session : Type := {
  session_id : string;
  session_number : Z;
  session_engaged : bool;
  session_start : option bool;
  session_hitCount : Z
}.

Inductive TrafficType : Type :=
| direct | organic | referral | internal | custom.

Definition TrafficType_name (t : TrafficType) : string :=
  match t with
  | direct => "direct"
  | organic => "organic"
  | referral => "referral"
  | internal => "internal"
  | custom => "custom"
  end.

Record Page : Type := {
  page_location : string;
  page_title : string;
  page_referrer : option string;
  page_ignoreReferrer : option bool;
  page_trafficType : option TrafficType;
  page_firstVisit : option bool;
  page_newToSite : option bool
}.

Record Campaign : Type := {
  campaign_source : string;
  campaign_medium : string;
  campaign_id : option string;
  campaign_name : option string;
  campaign_content : option string;
  campaign_term : option string
}.

Record Event : Type := {
  event_name : string;
  event_category : option string;
  event_label : option string;
  event_params : list (string * Primitive)
}.

(** [PrimaryEvent = Event | null]. *)
Definition PrimaryEvent : Type := option Event.

(** A report. [session] is a reference to a session object of the heap:
    the reports of one connection share their session. [events] holds the
    primary event first; [None] is a [null] entry. *)
Record GA4Report : Type := {
  measurementId : option string;
  client : Client;
  user : User;
  session : option nat;
  campaign : option Campaign;
  page : Page;
  events : list (option Event)
}.

(** [get event()]: [this.events[0]], with [undefined] read as [null]. *)
Definition event (r : GA4Report) : PrimaryEvent :=
  match events r with
  | e :: _ => e
  | [] => None
  end.

(** [set event(event)]: [this.events[0] = event]. *)
Definition set_event (r : GA4Report) (e : PrimaryEvent) : GA4Report :=
  {| measurementId := measurementId r; client := client r; user := user r;
     session := session r; campaign := campaign r; page := page r;
     events := match events r with
               | _ :: rest => e :: rest
               | [] => [e]
               end |}.

Definition set_measurementId (r : GA4Report) (m : option string)
    : GA4Report :=
  {| measurementId := m; client := client r; user := user r;
     session := session r; campaign := campaign r; page := page r;
     events := events r |}.

Definition set_client_id (r : GA4Report) (id : string) : GA4Report :=
  {| measurementId := measurementId r;
     client := {| client_id := Some id; client_ip := client_ip (client r);
                  client_language := client_language (client r);
                  client_headers := client_headers (client r) |};
     user := user r; session := session r; campaign := campaign r;
     page := page r; events := events r |}.

(** An HTTP request handed to [fetch]. *)
Record HttpRequest : Type := {
  request_url : string;
  request_method : string;
  request_headers : Headers;
  request_body : string
}.

Record Response : Type := {
  status : Z;
  statusText : string
}.

(** [new Request(url, { method, headers, body })] for a body that is a
    string, the empty string included: the body brings its content type,
    which is appended to the header list of the request unless the headers
    have one. Every other header is kept as given. *)
Definition Request_new (url method : string) (headers : Headers)
    (body : string) : HttpRequest :=
  {| request_url := url; request_method := method;
     request_headers :=
       match Headers_get headers "content-type" with
       | Some _ => headers
       | None =>
           (headers ++ [("content-type", "text/plain;charset=UTF-8")])%list
       end;
     request_body := body |}.

(** What [await fetch(request)] does: it resolves with a response after
    [duration] (whole) milliseconds, or it throws. *)
Inductive FetchOutcome : Type :=
| Resolved (response : Response) (duration : Z)
| Rejected (err : string).

(** The mutable state around a report: the session objects ([heap], a
    reference is an index), the module's [sessionMap] from connection
    identities to session references, the lines written by [console.warn]
    and the requests handed to [fetch], both oldest first. *)
Record World : Type := {
  heap : list Session;
  sessionMap : gmap nat nat;
  console : list string;
  network : list HttpRequest
}.

Definition set_heap (w : World) (h : list Session) : World :=
  {| heap := h; sessionMap := sessionMap w; console := console w;
     network := network w |}.

(** [console.warn(line)]. *)
Definition console_warn (w : World) (line : string) : World :=
  {| heap := heap w; sessionMap := sessionMap w;
     console := console w ++ [line]; network := network w |}.

Definition fetched (w : World) (request : HttpRequest) : World :=
  {| heap := heap w; sessionMap := sessionMap w; console := console w;
     network := network w ++ [request] |}.

(** [this.warn(message)]. *)
Definition warn (w : World) (message : string) : World :=
  console_warn w ("GA4: " +:+ message).

(** Exceptions. *)
Inductive Error : Type :=
| TypeError (message : string)
| URIError (message : string).

Inductive result (A : Type) : Type :=
| Ok (a : A)
| Throw (e : Error).

Arguments Ok {A} a.
Arguments Throw {A} e.

(** ** [toDigest] *)

Definition hexDigit (n : N) : ascii :=
  if N.ltb n 10 then ascii_of_N (48 + n) else ascii_of_N (87 + n).

(** [b.toString(16)] for a byte. *)
Definition toString16 (b : ascii) : string :=
  if N.ltb (code b) 16 then String (hexDigit (code b)) EmptyString
  else String (hexDigit (code b / 16))
         (String (hexDigit (code b mod 16)) EmptyString).

(** [s.padStart(n, "0")]. *)
Definition padStart0 (n : nat) (s : string) : string :=
  string_of_list_ascii (repeat "0"%char (n - String.length s)) +:+ s.

Section Digest.

(** [crypto.subtle.digest("SHA-1", bytes)], a function of the platform. *)
Variable SHA1 : string -> list ascii.

(** [toDigest(msg)]: the bytes of [msg] are [msg] itself. *)
Definition toDigest (msg : string) : string :=
  join "" (map (fun b => padStart0 2 (toString16 b)) (SHA1 msg)).

(** [[a, b, c].join()] for strings that may be [null]: a [null] element is
    joined as the empty string. *)
Definition joinNullable (parts : list (option string)) : string :=
  join "," (map (fun p => match p with Some s => s | None => "" end) parts).

(** Lines 125-129: the digest material of a client. *)
Definition material (c : Client) (ip : string) : string :=
  joinNullable [Some ip;
                Headers_get (client_headers c) "user-agent";
                Headers_get (client_headers c) "sec-ch-ua"].

End Digest.

(** ** [URLSearchParams] *)

Definition isAlphaNum (a : ascii) : bool :=
  (isDigit a || isUpper a || isLower a)%bool.

Definition upperHexDigit (n : N) : ascii :=
  if N.ltb n 10 then ascii_of_N (48 + n) else ascii_of_N (55 + n).

(** One byte in [application/x-www-form-urlencoded]. *)
Definition formEncodeByte (a : ascii) : string :=
  if N.eqb (code a) 32 then "+"
  else if (isAlphaNum a || N.eqb (code a) 42 || N.eqb (code a) 45
           || N.eqb (code a) 46 || N.eqb (code a) 95)%bool
  then String a EmptyString
  else String "%" (String (upperHexDigit (code a / 16))
                     (String (upperHexDigit (code a mod 16)) EmptyString)).

Fixpoint formEncode (s : string) : string :=
  match s with
  | EmptyString => EmptyString
  | String a rest => formEncodeByte a +:+ formEncode rest
  end.

(** [String(new URLSearchParams(params))]. *)
Definition URLSearchParams_toString (params : Params) : string :=
  join "&" (map (fun p => formEncode (fst p) +:+ "=" +:+ formEncode (snd p))
                params).

(** ** [send] *)

Definition GA4_ENDPOINT_URL : string :=
  "https://www.google-analytics.com/g/collect".

Definition SLOW_UPLOAD_THRESHOLD : Z := 1000.

(** [Boolean(e)] for an entry of [events]. *)
Definition truthy (e : option Event) : bool :=
  match e with Some _ => true | None => false end.

(** [response.ok]. *)
Definition ok (response : Response) : bool :=
  (200 <=? status response) && (status response <=? 299).

(** What a call of [send] takes from its surroundings: the environment
    variable and the behaviour of [fetch]. *)
Record Env : Type := {
  GA4_MEASUREMENT_ID : option string;
  fetch : HttpRequest -> FetchOutcome
}.

Section Send.

Variable snakeCase : string -> string.
Variable SHA1 : string -> list ascii.

Definition addCustomParams (prefix : string) (params : Params)
    (entries : list (string * Primitive)) : Params :=
  fold_left
    (fun q entry =>
       maybeAddCustomEventParam snakeCase q prefix (fst entry) (snd entry))
    entries params.

(** Lines 135-187: the query parameters of a report whose measurement id
    and client id are resolved. [sess] is the session object of the report,
    if it has one. *)
Definition queryParams (r : GA4Report) (sess : option Session) : Params :=
  let q : Params := [] in
  let q := maybeAddShortParam q "v" (PNumber 2) in
  let q := maybeAddShortParam q "tid" (ofString (measurementId r)) in

  let q := maybeAddShortParam q "cid" (ofString (client_id (client r))) in
  let q := maybeAddShortParam q "ul"
             (ofString (client_language (client r))) in
  let q := maybeAddShortParam q "_uip" (ofString (client_ip (client r))) in

  let q := maybeAddShortParam q "uid" (ofString (user_id (user r))) in

  let q := maybeAddShortParam q "cs"
             (ofString (campaign_source <$> campaign r)) in
  let q := maybeAddShortParam q "cm"
             (ofString (campaign_medium <$> campaign r)) in
  let q := maybeAddShortParam q "ci"
             (ofString (campaign r ≫= campaign_id)) in
  let q := maybeAddShortParam q "cn"
             (ofString (campaign r ≫= campaign_name)) in
  let q := maybeAddShortParam q "cc"
             (ofString (campaign r ≫= campaign_content)) in
  let q := maybeAddShortParam q "ck"
             (ofString (campaign r ≫= campaign_term)) in

  let q := maybeAddShortParam q "sid" (ofString (session_id <$> sess)) in
  let q := maybeAddShortParam q "sct" (ofNumber (session_number <$> sess)) in
  let q := maybeAddShortParam q "seg"
             (ofBoolean (session_engaged <$> sess)) in
  let q := maybeAddShortParam q "_s"
             (ofNumber (session_hitCount <$> sess)) in

  let q := maybeAddShortParam q "dl" (PString (page_location (page r))) in
  let q := maybeAddShortParam q "dr"
             (ofString (page_referrer (page r))) in
  let q := maybeAddShortParam q "dt" (PString (page_title (page r))) in
  let q := maybeAddShortParam q "ir"
             (ofBoolean (page_ignoreReferrer (page r))) in
  let q := maybeAddShortParam q "tt"
             (ofString (TrafficType_name <$> page_trafficType (page r))) in

  let q :=
    match event r with
    | Some ev =>
        let q := maybeAddCustomEventParam snakeCase q "ep" "event_category"
                   (ofString (event_category ev)) in
        let q := maybeAddCustomEventParam snakeCase q "ep" "event_label"
                   (ofString (event_label ev)) in
        let q := addCustomParams "ep" q (event_params ev) in

        let q := maybeAddShortParam q "en" (PString (event_name ev)) in

        let q := maybeAddShortParam q "_fv"
                   (ofBoolean (page_firstVisit (page r))) in
        let q := maybeAddShortParam q "_nsi"
                   (ofBoolean (page_newToSite (page r))) in
        maybeAddShortParam q "_ss" (ofBoolean (sess ≫= session_start))
    | None => q
    end in

  addCustomParams "up" q (user_properties (user r)).

(** Lines 190-206, the body of the [map] callback: the parameters of a
    secondary event. Reading the name of a [null] entry throws. *)
Definition eventParams (e : option Event) : result Params :=
  match e with
  | None =>
      Throw (TypeError "Cannot read properties of null (reading 'name')")
  | Some ev =>
      let p : Params := [] in
      let p := maybeAddShortParam p "en" (PString (event_name ev)) in
      let p := maybeAddCustomEventParam snakeCase p "ep" "event_category"
                 (ofString (event_category ev)) in
      let p := maybeAddCustomEventParam snakeCase p "ep" "event_label"
                 (ofString (event_label ev)) in
      Ok (addCustomParams "ep" p (event_params ev))
  end.

(** [extraEvents.map(...)]: the first callback that throws ends the map. *)
Fixpoint eventParamsList (extraEvents : list (option Event))
    : result (list Params) :=
  match extraEvents with
  | [] => Ok []
  | e :: rest =>
      match eventParams e with
      | Throw err => Throw err
      | Ok p =>
          match eventParamsList rest with
          | Throw err => Throw err
          | Ok ps => Ok (p :: ps)
          end
      end
  end.

(** [this.events.slice(1)]. *)
Definition slice1 {A : Type} (l : list A) : list A :=
  match l with
  | [] => []
  | _ :: rest => rest
  end.

(** [this.events.filter(Boolean).length]. *)
Definition truthyCount (r : GA4Report) : Z :=
  Z.of_nat (length (filter (fun e => truthy e = true) (events r))).

(** Lines 227-233: the session bookkeeping after a response that is [ok]. *)
Definition recordHit (r : GA4Report) (s : Session) : Session :=
  {| session_id := session_id s;
     session_number := session_number s;
     session_engaged := session_engaged s;
     session_start := match event r with
                      | Some _ => None
                      | None => session_start s
                      end;
     session_hitCount :=
       session_hitCount s
       + (if truthyCount r =? 0 then 1 else truthyCount r) |}.

(** Lines 222-244: the request is sent and the outcome is handled. *)
Definition upload (env : Env) (r : GA4Report) (w : World)
    (request : HttpRequest) : World :=
  let w := fetched w request in
  match fetch env request with
  | Resolved response duration =>
      let w :=
        match session r with
        | Some ref =>
            if ok response then set_heap w (alter (recordHit r) ref (heap w))
            else w
        | None => w
        end in
      if negb (status response =? 204) || (SLOW_UPLOAD_THRESHOLD <=? duration)
      then
        warn w (Z_to_string (Z.of_nat (length (events r)))
                +:+ " events uploaded in " +:+ Z_to_string duration
                +:+ "ms. Response: " +:+ Z_to_string (status response)
                +:+ " " +:+ statusText response)
      else w
  | Rejected err => warn w ("Upload failed: " +:+ err)
  end.

(** Lines 133-245: the request of a report whose measurement id and client
    id are resolved is built and sent. *)
Definition transmit (env : Env) (r : GA4Report) (w : World)
    : GA4Report * World * option Error :=
  let q := queryParams r (session r ≫= (heap w !!.)) in
  match eventParamsList (slice1 (events r)) with
  | Throw err => (r, w, Some err)
  | Ok ps =>
      let url := GA4_ENDPOINT_URL +:+ "?" +:+ URLSearchParams_toString q in
      let headers := client_headers (client r) in
      let body := join (String (ascii_of_N 10) EmptyString)
                    (map URLSearchParams_toString ps) in
      let request := Request_new url "POST" headers body in
      (r, upload env r w request, None)
  end.

(** [send()]: the report and the world after the call, and the exception
    that left the call, if one did. *)
Definition send (env : Env) (r : GA4Report) (w : World)
    : GA4Report * World * option Error :=
  (* Short circuit if there are no events to report. *)
  if negb (existsb truthy (events r)) then (r, w, None) else

  let r := match measurementId r with
           | Some _ => r
           | None => set_measurementId r (GA4_MEASUREMENT_ID env)
           end in
  if match measurementId r with
     | Some m => negb (nonEmpty m)
     | None => true
     end
  then (r, warn w ("GA4_MEASUREMENT_ID environment variable not set. "
                   +:+ "Google Analytics reporting disabled."), None)
  else

  match client_id (client r) with
  | Some _ => transmit env r w
  | None =>
      match client_ip (client r) with
      | None =>
          (r, warn w "either `client.id` or `client.ip` must be set.", None)
      | Some ip =>
          let material := material (client r) ip in
          transmit env (set_client_id r (toDigest SHA1 material)) w
      end
  end.

End Send.

(** ** Building a report *)

(** A parsed URL, as far as the reporter reads it. *)
Record URL : Type := {
  href : string;
  host : string;
  pathname : string
}.

(** An incoming request. *)
Record Request : Type := {
  method : string;
  url : string;
  headers : Headers
}.

(** [ConnInfo]: the identity of the connection object, which keys
    [sessionMap], and its [remoteAddr.hostname]. *)
Record ConnInfo : Type := {
  conn_identity : nat;
  remoteAddr_hostname : string
}.

Record GA4Init : Type := {
  init_measurementId : option string;
  init_request : Request;
  init_response : Response;
  init_conn : ConnInfo
}.

(** What [getSession] reads from the platform: [Date.now()] and the text
    [(Math.random() * 2 ** 52).toString(36)]. *)
Record Platform : Type := {
  Date_now : Z;
  random36 : string
}.

(** [/\s*,\s*/] *)
Definition commaSeparator : regex :=
  Seq (Star WhiteSpace) (Seq (B 44) (Star WhiteSpace)).

Definition getClientIp (request : Request) (conn : ConnInfo) : string :=
  match Headers_get (headers request) "x-forwarded-for" with
  | Some xForwardedFor =>
      if nonEmpty xForwardedFor then
        match split commaSeparator xForwardedFor with
        | first :: _ => first
        | [] => EmptyString
        end
      else remoteAddr_hostname conn
  | None => remoteAddr_hostname conn
  end.

(** [/[^a-z-]+/i] *)
Definition notLanguageCode : regex :=
  Plus (Chr (fun a =>
    negb (isLower a || isUpper a || N.eqb (code a) 45)%bool)).

Definition getClientLanguage (request : Request) : option string :=
  match Headers_get (headers request) "accept-language" with
  | None => None
  | Some acceptLanguage =>
      match filter (fun s => nonEmpty s) (split notLanguageCode acceptLanguage)
      with
      | [] => None
      | code :: _ => Some (toLowerCase code)
      end
  end.

Definition getClientHeaders (request : Request) : Headers :=
  filter
    (fun entry =>
       let name := toLowerCase (fst entry) in
       (String.eqb name "user-agent" || String.eqb name "sec-ch-ua"
        || String.prefix "sec-ch-ua-" name)%bool)
    (headers request).

Definition START_OF_2020 : Z := 1577836800000.
Definition MINUTE : Z := 60 * 1000.

(** [getSession(conn)]: the session reference of the connection; a new
    session object is allocated on the first call for a connection. *)
Definition getSession (conn : ConnInfo) (platform : Platform) (w : World)
    : World * nat :=
  match sessionMap w !! conn_identity conn with
  | Some ref => (w, ref)
  | None =>
      let id := padStart0 10 (random36 platform) in
      let number := (Date_now platform - START_OF_2020) / MINUTE in
      let session :=
        {| session_id := id; session_number := number;
           session_engaged := true; session_start := Some true;
           session_hitCount := 0 |} in
      let ref := length (heap w) in
      ({| heap := heap w ++ [session];
          sessionMap := <[conn_identity conn := ref]> (sessionMap w);
          console := console w; network := network w |}, ref)
  end.

Definition isSuccess (response : Response) : bool :=
  (200 <=? status response) && (status response <=? 299).

Definition isRedirect (response : Response) : bool :=
  (300 <=? status response) && (status response <=? 399).

Definition isServerError (response : Response) : bool :=
  (500 <=? status response) && (status response <=? 599).

(** [/\.[^\/]*$/] *)
Definition fileExtension : regex :=
  Seq (B 46) (Seq (Star (Chr (fun a => negb (N.eqb (code a) 47)))) AtEnd).

(** [/\/+/] *)
Definition slashes : regex := Plus (B 47).

(** [/[\s_]+/g] *)
Definition spacesAndUnderbars : regex := Plus (Alt WhiteSpace (B 95)).

(** [/@v?[\d\.\s]+$/] *)
Definition versionNumber : regex :=
  Seq (B 64)
   (Seq (Opt (B 118))
     (Seq (Plus (Alt (Chr (fun a => (isDigit a || N.eqb (code a) 46)%bool))
                     WhiteSpace))
          AtEnd)).

(** [pieces.map(decodeURIComponent)]: the first piece that does not decode
    throws. *)
Fixpoint decodeAll (pieces : list string) : result (list string) :=
  match pieces with
  | [] => Ok []
  | p :: rest =>
      match decodeURIComponent p with
      | None => Throw (URIError "URI malformed")
      | Some d =>
          match decodeAll rest with
          | Throw err => Throw err
          | Ok ds => Ok (d :: ds)
          end
      end
  end.

(** Lines 316-326: the title of a path. *)
Definition titleOfPath (path : string) : result string :=
  (* Remove file extension. *)
  let path := replace fileExtension "" path in
  (* Split into components. *)
  let pieces := split slashes path in
  (* Unescape. *)
  match decodeAll pieces with
  | Throw err => Throw err
  | Ok pieces =>
      (* Underbars to spaces. *)
      let pieces := map (replaceAll spacesAndUnderbars " ") pieces in
      (* Remove version number. *)
      let pieces := map (replace versionNumber "") pieces in
      (* Trim leading/trailing whitespace. *)
      let pieces := map trim pieces in
      (* Remove empty path components. *)
      let pieces := filter (fun s => nonEmpty s) pieces in
      let title := join " / " pieces in
      Ok (if nonEmpty title then title else "(top level)")
  end.

Section Build.

(** [new URL(text)]; [None] when the constructor throws. *)
Variable URL_parse : string -> option URL.

(** [STATUS_TEXT.get(status)] of the standard library's table. *)
Variable STATUS_TEXT : Z -> option string.

Definition formatStatus (response : Response) : string :=
  let statusText :=
    if nonEmpty (statusText response) then statusText response
    else match STATUS_TEXT (status response) with
         | Some text => text
         | None => "Invalid Status"
         end in
  Z_to_string (status response) +:+ " " +:+ statusText.

Definition getPageTitle (request : Request) (response : Response)
    : result string :=
  if (String.eqb (method request) "GET" || String.eqb (method request) "HEAD")
     && isSuccess response
  then
    match URL_parse (url request) with
    | None => Throw (TypeError "Invalid URL")
    | Some u => titleOfPath (pathname u)
    end
  else Ok (toLowerCase (formatStatus response)).

Definition getPageReferrer (request : Request) : result (option string) :=
  match Headers_get (headers request) "referer" with
  | None => Ok None
  | Some referrer =>
      match URL_parse referrer with
      | None => Throw (TypeError "Invalid URL")
      | Some from =>
          match URL_parse (url request) with
          | None => Throw (TypeError "Invalid URL")
          | Some own =>
              if String.eqb (host from) (host own) then Ok None
              else Ok (Some referrer)
          end
      end
  end.

(** [new GA4Report({ measurementId, request, response, conn })]. *)
Definition GA4Report_new (init : GA4Init) (platform : Platform) (w : World)
    : World * result GA4Report :=
  let request := init_request init in
  let ip := getClientIp request (init_conn init) in
  let language := getClientLanguage request in
  let clientHeaders := getClientHeaders request in
  let (w, ref) := getSession (init_conn init) platform w in
  match getPageTitle request (init_response init) with
  | Throw err => (w, Throw err)
  | Ok title =>
      match getPageReferrer request with
      | Throw err => (w, Throw err)
      | Ok referrer =>
          (w, Ok
            {| measurementId := init_measurementId init;
               client := {| client_id := None; client_ip := Some ip;
                            client_language := language;
                            client_headers := clientHeaders |};
               user := {| user_id := None; user_properties := [] |};
               session := Some ref;
               campaign := None;
               page := {| page_location := url request;
                          page_title := title;
                          page_referrer := referrer;
                          page_ignoreReferrer := None;
                          page_trafficType :=
                            match referrer with
                            | Some _ => Some referral
                            | None => None
                            end;
                          page_firstVisit := None;
                          page_newToSite := None |};
               events := [Some {| event_name := "page_view";
                                  event_category := None;
                                  event_label := None;
                                  event_params := [] |}] |})
      end
  end.

End Build.

(** ** Instances of the imported functions

    The theorems below hold for every [snakeCase], [SHA1], [URL_parse] and
    [STATUS_TEXT]. The instances of this module serve the concrete examples:
    they follow the imported functions on the plain inputs described with
    each. *)

Module Imported.

(** [snakeCase] of [deno.land/x/case] for ASCII names: a space is put at
    every lower-or-digit to upper boundary ("myFlag") and before the last
    capital of a run of capitals followed by a lower-case letter
    ("XMLHttp"); every run of characters other than letters and digits
    becomes one underscore, or nothing at the ends; the result is lower-cased.
    Bytes from 128 up are kept as letters. *)
Fixpoint splitCamel (s : string) : string :=
  match s with
  | EmptyString => EmptyString
  | String a rest =>
      match rest with
      | String b _ =>
          if ((isLower a || isDigit a) && isUpper b)%bool
          then String a (String " " (splitCamel rest))
          else String a (splitCamel rest)
      | EmptyString => String a EmptyString
      end
  end.

Fixpoint splitUpper (s : string) : string :=
  match s with
  | EmptyString => EmptyString
  | String a rest =>
      match rest with
      | String b (String c _) =>
          if (isUpper a && isUpper b && isLower c)%bool
          then String a (String " " (splitUpper rest))
          else String a (splitUpper rest)
      | _ => String a (splitUpper rest)
      end
  end.

Definition isWord (a : ascii) : bool :=
  (isAlphaNum a || N.leb 128 (code a))%bool.

Fixpoint joinWords (pending atStart : bool) (s : string) : string :=
  match s with
  | EmptyString => EmptyString
  | String a rest =>
      if isWord a then
        if (pending && negb atStart)%bool
        then String "_" (String a (joinWords false false rest))
        else String a (joinWords false false rest)
      else joinWords true atStart rest
  end.

Definition snakeCase (name : string) : string :=
  toLowerCase (joinWords false true (splitUpper (splitCamel name))).

(** [new URL(text)] for plain [http://host/path] and [https://host/path]
    texts (no credentials, port, query, fragment, dot segment or character
    to escape); a text that does not start with one of these schemes is
    rejected here. The platform also rejects a text without a scheme. *)
Fixpoint untilSlash (s : string) : string * string :=
  match s with
  | EmptyString => (EmptyString, EmptyString)
  | String a rest =>
      if N.eqb (code a) 47 then (EmptyString, s)
      else let (h, p) := untilSlash rest in (String a h, p)
  end.

Definition afterScheme (text : string) : option string :=
  if String.prefix "https://" text then Some (dropBytes 8 text)
  else if String.prefix "http://" text then Some (dropBytes 7 text)
  else None.

Definition URL_parse (text : string) : option URL :=
  match afterScheme text with
  | None => None
  | Some rest =>
      let (h, p) := untilSlash rest in
      if nonEmpty h
      then Some {| href := if nonEmpty p then text else text +:+ "/";
                   host := h;
                   pathname := if nonEmpty p then p else "/" |}
      else None
  end.

(** The entries of [STATUS_TEXT] used in the examples. *)
Definition STATUS_TEXT (status : Z) : option string :=
  if status =? 200 then Some "OK"
  else if status =? 204 then Some "No Content"
  else if status =? 404 then Some "Not Found"
  else if status =? 500 then Some "Internal Server Error"
  else None.

(** SHA-1 (FIPS 180-4) on bytes, for [crypto.subtle.digest]. *)
Definition mask32 (x : Z) : Z := Z.land x 4294967295.

Definition rotl (n x : Z) : Z :=
  mask32 (Z.lor (Z.shiftl x n) (Z.shiftr x (32 - n))).

(** Big-endian bytes of a number, [n] of them. *)
Fixpoint bigEndian (n : nat) (x : Z) : list Z :=
  match n with
  | O => []
  | S n' => Z.land (Z.shiftr x (8 * Z.of_nat n')) 255 :: bigEndian n' x
  end.

(** The message, the byte 128, zero bytes up to 56 modulo 64, and the bit
    length in eight bytes. *)
Definition pad (msg : list Z) : list Z :=
  let len := Z.of_nat (length msg) in
  let zeros := Z.to_nat ((55 - len) mod 64) in
  msg ++ [128] ++ repeat 0 zeros ++ bigEndian 8 (8 * len).

Fixpoint words (n : nat) (bytes : list Z) : list Z :=
  match n, bytes with
  | S n', a :: b :: c :: d :: rest =>
      (Z.shiftl a 24 + Z.shiftl b 16 + Z.shiftl c 8 + d) :: words n' rest
  | _, _ => []
  end.

(** The message schedule, latest word first: [w] holds W(t-1), W(t-2), ... *)
Fixpoint schedule (n : nat) (w : list Z) : list Z :=
  match n with
  | O => w
  | S n' =>
      let next :=
        rotl 1 (Z.lxor (Z.lxor (nth 2 w 0) (nth 7 w 0))
                       (Z.lxor (nth 13 w 0) (nth 15 w 0))) in
      schedule n' (next :: w)
  end.

Definition round (t : Z) (state : Z * Z * Z * Z * Z) (wt : Z)
    : Z * Z * Z * Z * Z :=
  let '(a, b, c, d, e) := state in
  let '(f, k) :=
    if t <? 20 then
      (Z.lor (Z.land b c) (Z.land (mask32 (Z.lnot b)) d), 1518500249)
    else if t <? 40 then (Z.lxor (Z.lxor b c) d, 1859775393)
    else if t <? 60 then
      (Z.lor (Z.lor (Z.land b c) (Z.land b d)) (Z.land c d), 2400959708)
    else (Z.lxor (Z.lxor b c) d, 3395469782) in
  (mask32 (rotl 5 a + f + e + k + wt), a, rotl 30 b, c, d).

Fixpoint rounds (t : Z) (ws : list Z) (state : Z * Z * Z * Z * Z)
    : Z * Z * Z * Z * Z :=
  match ws with
  | [] => state
  | wt :: rest => rounds (t + 1) rest (round t state wt)
  end.

Definition compress (h : Z * Z * Z * Z * Z) (block : list Z)
    : Z * Z * Z * Z * Z :=
  let ws := rev (schedule 64 (rev (words 16 block))) in
  let '(a, b, c, d, e) := rounds 0 ws h in
  let '(h0, h1, h2, h3, h4) := h in
  (mask32 (h0 + a), mask32 (h1 + b), mask32 (h2 + c), mask32 (h3 + d),
   mask32 (h4 + e)).

Fixpoint blocks (n : nat) (bytes : list Z) (h : Z * Z * Z * Z * Z)
    : Z * Z * Z * Z * Z :=
  match n with
  | O => h
  | S n' => blocks n' (skipn 64 bytes) (compress h (firstn 64 bytes))
  end.

Definition digest (msg : list Z) : list Z :=
  let bytes := pad msg in
  let '(h0, h1, h2, h3, h4) :=
    blocks (length bytes / 64) bytes
      (1732584193, 4023233417, 2562383102, 271733878, 3285377520) in
  bigEndian 4 h0 ++ bigEndian 4 h1 ++ bigEndian 4 h2 ++ bigEndian 4 h3
  ++ bigEndian 4 h4.

Definition SHA1 (msg : string) : list ascii :=
  map (fun b => ascii_of_N (Z.to_N b))
      (digest (map (fun a => Z.of_N (code a)) (list_ascii_of_string msg))).

End Imported.

(** * Vocabulary of the specification

    The definitions in which the properties below are stated. *)

(** ** Parameters *)

(** A key joins the keys at the end, unless it is there already. *)
Definition addKey (ks : list string) (k : string) : list string :=
  if decide (k ∈ ks) then ks else ks ++ [k].

(** A value that is neither [null] nor [undefined]. *)
Definition present (value : Primitive) : bool :=
  match value with
  | PUndefined | PNull => false
  | _ => true
  end.

(** A value other than [undefined]. *)
Definition defined (value : Primitive) : bool :=
  match value with
  | PUndefined => false
  | _ => true
  end.

(** A value of type [number] or [bigint]. *)
Definition numeric (value : Primitive) : bool :=
  match value with
  | PNumber _ | PBigInt _ => true
  | _ => false
  end.

(** Short parameters: a boolean is a flag, anything else is its string
    form. *)
Definition shortValue (value : Primitive) : string :=
  match value with
  | PBoolean true => "1"
  | PBoolean false => "0"
  | _ => String_ value
  end.

(** Custom parameters: ["<prefix>n.<name>"] for a numeric value,
    ["<prefix>.<name>"] otherwise, the name in snake case. *)
Definition customKey (snakeCase : string -> string) (prefix name : string)
    (value : Primitive) : string :=
  prefix +:+ (if numeric value then "n." else ".") +:+ snakeCase name.

(** The coercion the specification gives for every parameter: no parameter
    for [null] and [undefined], ["1"]/["0"] for a boolean, the string form
    otherwise. *)
Definition spec_coerce (value : Primitive) : option string :=
  if present value then Some (shortValue value) else None.

(** A custom parameter added with that coercion, as C1 states it. *)
Definition spec_customParam (snakeCase : string -> string) (q : Params)
    (prefix name : string) (value : Primitive) : Params :=
  match spec_coerce value with
  | Some text => assign q (customKey snakeCase prefix name value) text
  | None => q
  end.

(** ** Events *)

(** The primary event of a report: the first of its events, when that is an
    event and not [null]. *)
Definition primaryEvent (r : GA4Report) : option Event :=
  match events r with
  | Some ev :: _ => Some ev
  | _ => None
  end.

(** The number of truthy events of a list: its entries that are events. *)
Fixpoint countTruthy (es : list (option Event)) : Z :=
  match es with
  | [] => 0
  | Some _ :: rest => 1 + countTruthy rest
  | None :: rest => countTruthy rest
  end.

(** The report [r] with the events [es]. *)
Definition withEvents (r : GA4Report) (es : list (option Event))
    : GA4Report :=
  {| measurementId := measurementId r; client := client r; user := user r;
     session := session r; campaign := campaign r; page := page r;
     events := es |}.

(** ** Query parameters *)

(** The keys of the fields whose value is present, in order. *)
Fixpoint shortKeys (fields : list (string * Primitive)) : list string :=
  match fields with
  | [] => []
  | (name, value) :: rest =>
      if present value then name :: shortKeys rest else shortKeys rest
  end.

(** The wire keys of the custom parameters whose value is defined, in
    order. *)
Fixpoint customKeys (snakeCase : string -> string) (prefix : string)
    (entries : list (string * Primitive)) : list string :=
  match entries with
  | [] => []
  | (name, value) :: rest =>
      if defined value
      then customKey snakeCase prefix name value
             :: customKeys snakeCase prefix rest
      else customKeys snakeCase prefix rest
  end.

(** A list of keys without the repetitions of a key after its first
    occurrence. *)
Fixpoint firstOccurrences (l : list string) : list string :=
  match l with
  | [] => []
  | k :: rest => k :: filter (fun k' => k' <> k) (firstOccurrences rest)
  end.

(** The short parameters of a list of fields, added in order. *)
Definition addShortParams (q : Params) (fields : list (string * Primitive))
    : Params :=
  fold_left (fun q f => maybeAddShortParam q (fst f) (snd f)) fields q.

(** The fields every hit carries, in the order of the source: protocol
    version, measurement id, client, user, campaign, session, page. *)
Definition commonFields (r : GA4Report) (sess : option Session)
    : list (string * Primitive) :=
  [ ("v", PNumber 2);
    ("tid", ofString (measurementId r));
    ("cid", ofString (client_id (client r)));
    ("ul", ofString (client_language (client r)));
    ("_uip", ofString (client_ip (client r)));
    ("uid", ofString (user_id (user r)));
    ("cs", ofString (campaign_source <$> campaign r));
    ("cm", ofString (campaign_medium <$> campaign r));
    ("ci", ofString (campaign r ≫= campaign_id));
    ("cn", ofString (campaign r ≫= campaign_name));
    ("cc", ofString (campaign r ≫= campaign_content));
    ("ck", ofString (campaign r ≫= campaign_term));
    ("sid", ofString (session_id <$> sess));
    ("sct", ofNumber (session_number <$> sess));
    ("seg", ofBoolean (session_engaged <$> sess));
    ("_s", ofNumber (session_hitCount <$> sess));
    ("dl", PString (page_location (page r)));
    ("dr", ofString (page_referrer (page r)));
    ("dt", PString (page_title (page r)));
    ("ir", ofBoolean (page_ignoreReferrer (page r)));
    ("tt", ofString (TrafficType_name <$> page_trafficType (page r))) ].

(** The custom parameters of the primary event: category, label, then the
    parameters of the caller. *)
Definition eventCustomParams (ev : Event) : list (string * Primitive) :=
  ("event_category", ofString (event_category ev))
  :: ("event_label", ofString (event_label ev))
  :: event_params ev.

(** The fields that go with the primary event: its name and the
    first-visit, new-to-site and session-start flags. *)
Definition eventFields (r : GA4Report) (sess : option Session) (ev : Event)
    : list (string * Primitive) :=
  [ ("en", PString (event_name ev));
    ("_fv", ofBoolean (page_firstVisit (page r)));
    ("_nsi", ofBoolean (page_newToSite (page r)));
    ("_ss", ofBoolean (sess ≫= session_start)) ].

(** The keys of the query parameters as the specification lists them. *)
Definition expectedKeys (sc : string -> string) (r : GA4Report)
    (sess : option Session) : list string :=
  (shortKeys (commonFields r sess)
   ++ match event r with
      | Some ev =>
          firstOccurrences (customKeys sc "ep" (eventCustomParams ev))
          ++ shortKeys (eventFields r sess ev)
      | None => []
      end
   ++ firstOccurrences (customKeys sc "up" (user_properties (user r))))%list.

(** The names of [commonFields] and of [eventFields]. *)
Definition commonNames : list string :=
  ["v"; "tid"; "cid"; "ul"; "_uip"; "uid"; "cs"; "cm"; "ci"; "cn"; "cc"; "ck";
   "sid"; "sct"; "seg"; "_s"; "dl"; "dr"; "dt"; "ir"; "tt"].

Definition eventNames : list string := ["en"; "_fv"; "_nsi"; "_ss"].

(** ** Sending *)

(** The measurement id a call of [send] works with: the field of the report,
    else the environment variable. *)
Definition resolvedMeasurementId (env : Env) (r : GA4Report) : option string :=
  match measurementId r with
  | Some m => Some m
  | None => GA4_MEASUREMENT_ID env
  end.

(** The request [send] hands to [fetch] for a resolved report. *)
Definition requestOf (sc : string -> string) (r : GA4Report) (w : World)
    (ps : list Params) : HttpRequest :=
  Request_new
    (GA4_ENDPOINT_URL +:+ "?"
     +:+ URLSearchParams_toString
           (queryParams sc r (session r ≫= (heap w !!.))))
    "POST"
    (client_headers (client r))
    (join (String (ascii_of_N 10) EmptyString)
       (map URLSearchParams_toString ps)).

(** The two lines [send] can log before it builds a request. *)
Definition noMeasurementIdWarning : string :=
  "GA4: GA4_MEASUREMENT_ID environment variable not set. "
  +:+ "Google Analytics reporting disabled.".

Definition noClientWarning : string :=
  "GA4: either `client.id` or `client.ip` must be set.".

(** The heap after [upload]. *)
Definition heapAfter (env : Env) (r : GA4Report) (w : World)
    (request : HttpRequest) : list Session :=
  match fetch env request, session r with
  | Resolved response _, Some ref =>
      if ok response then alter (recordHit r) ref (heap w) else heap w
  | _, _ => heap w
  end.

Section SendVocabulary.

Variable snakeCase : string -> string.
Variable SHA1 : string -> list ascii.

(** The report with which [send] goes on once its measurement id [m] is
    known: the client id is kept, or derived from the client IP. *)
Definition withClientId (r : GA4Report) (m : string) : option GA4Report :=
  match client_id (client r), client_ip (client r) with
  | Some _, _ => Some (set_measurementId r (Some m))
  | None, Some ip =>
      Some (set_client_id (set_measurementId r (Some m))
              (toDigest SHA1 (material (client r) ip)))
  | None, None => None
  end.

(** The three ways a call of [send] ends before the request is built, and
    the way it goes on. *)
Inductive SendCase (env : Env) (r : GA4Report) (w : World)
    : GA4Report * World * option Error -> Prop :=
| NoEvents :
    existsb truthy (events r) = false ->
    SendCase env r w (r, w, None)
| NoMeasurementId :
    existsb truthy (events r) = true ->
    (resolvedMeasurementId env r = None
     \/ resolvedMeasurementId env r = Some "") ->
    SendCase env r w
      (set_measurementId r (resolvedMeasurementId env r),
       console_warn w noMeasurementIdWarning, None)
| NoClient m :
    existsb truthy (events r) = true ->
    resolvedMeasurementId env r = Some m -> m <> "" ->
    withClientId r m = None ->
    SendCase env r w
      (set_measurementId r (Some m), console_warn w noClientWarning, None)
| Transmits m r' :
    existsb truthy (events r) = true ->
    resolvedMeasurementId env r = Some m -> m <> "" ->
    withClientId r m = Some r' ->
    SendCase env r w (transmit snakeCase env r' w).

End SendVocabulary.

(** ** Sessions over time *)

Section Calls.

Variable snakeCase : string -> string.
Variable SHA1 : string -> list ascii.
Variable URL_parse : string -> option URL.
Variable STATUS_TEXT : Z -> option string.

(** The calls that touch the sessions: a report is built, or sent. *)
Inductive Call : Type :=
| Build (init : GA4Init) (platform : Platform)
| Send (env : Env) (r : GA4Report).

Definition call (w : World) (c : Call) : World :=
  match c with
  | Build init platform =>
      (GA4Report_new URL_parse STATUS_TEXT init platform w).1
  | Send env r => (send snakeCase SHA1 env r w).1.2
  end.

(** The world after a sequence of calls. *)
Definition runCalls (calls : list Call) (w : World) : World :=
  fold_left call calls w.

End Calls.

(** [s'] is [s] after some sends: the fields [id], [number] and [engaged]
    are the same, the [start] flag is the same or cleared, the hit count has
    not gone down. *)
Definition sessionLater (s s' : Session) : Prop :=
  session_id s' = session_id s
  /\ session_number s' = session_number s
  /\ session_engaged s' = session_engaged s
  /\ (session_start s' = session_start s \/ session_start s' = None)
  /\ session_hitCount s <= session_hitCount s'.

(** ** Digests *)

(** Lower-case hexadecimal, two digits for every byte. *)
Definition lowerHexDigit (n : N) : ascii :=
  match String.get (N.to_nat n) "0123456789abcdef" with
  | Some digit => digit
  | None => "0"%char
  end.

Fixpoint lowerHex (bytes : list ascii) : string :=
  match bytes with
  | [] => EmptyString
  | b :: rest =>
      String (lowerHexDigit (code b / 16))
        (String (lowerHexDigit (code b mod 16)) (lowerHex rest))
  end.

(** [parts.join(",")] of three strings, [null] read as the empty string. *)
Definition commaJoined (ip : string) (userAgent secChUa : option string)
    : string :=
  ip +:+ "," +:+ default "" userAgent +:+ "," +:+ default "" secChUa.

(** ** Regular expressions and clean paths *)

(** Whether [r] can match the empty string somewhere. *)
Fixpoint nullable (r : regex) : bool :=
  match r with
  | Chr _ => false
  | Eps | Star _ | AtEnd => true
  | Seq r1 r2 => nullable r1 && nullable r2
  | Alt r1 r2 => nullable r1 || nullable r2
  end.

(** Whether [r] matches the empty string at the head of [s]. *)
Fixpoint emptyAt (r : regex) (s : string) : bool :=
  match r with
  | Chr _ => false
  | Eps | Star _ => true
  | AtEnd => String.eqb s EmptyString
  | Seq r1 r2 => emptyAt r1 s && emptyAt r2 s
  | Alt r1 r2 => emptyAt r1 s || emptyAt r2 s
  end.

(** The bytes a non-empty match of [r] can start with. *)
Fixpoint first (r : regex) (a : ascii) : bool :=
  match r with
  | Chr p => p a
  | Eps | AtEnd => false
  | Star r1 => first r1 a
  | Seq r1 r2 => first r1 a || (nullable r1 && first r2 a)
  | Alt r1 r2 => first r1 a || first r2 a
  end.

(** Whether the first byte of [s] satisfies [p]. *)
Definition startsIn (p : ascii -> bool) (s : string) : bool :=
  match s with
  | String a _ => p a
  | EmptyString => false
  end.

(** Whether every byte of [s] satisfies [p]. *)
Fixpoint allBytes (p : ascii -> bool) (s : string) : bool :=
  match s with
  | EmptyString => true
  | String a rest => p a && allBytes p rest
  end.

(** A byte that no step of the title derivation touches: printable ASCII
    other than [%], [.], [/], [@] and [_]. *)
Definition plainByte (a : ascii) : bool :=
  (between 33 126 a
   && negb (N.eqb (code a) 37 || N.eqb (code a) 46 || N.eqb (code a) 47
            || N.eqb (code a) 64 || N.eqb (code a) 95))%bool.

(** A path segment that is clean already: not empty, plain bytes only. *)
Definition cleanSegment (s : string) : bool :=
  (nonEmpty s && allBytes plainByte s)%bool.

(** The path of the segments: a slash before each. *)
Definition pathOf (segments : list string) : string :=
  "/" +:+ join "/" segments.

(** ** The steps of the title derivation *)

(** Any byte but the slash. *)
Definition notSlash (a : ascii) : bool := negb (N.eqb (code a) 47).

(** Every dot of [s] has a slash somewhere after it in [s]: the part of [s]
    after its last slash has no dot. *)
Fixpoint dotsBeforeSlash (s : string) : bool :=
  match s with
  | EmptyString => true
  | String a rest =>
      ((if N.eqb (code a) 46 then negb (allBytes notSlash rest) else true)
       && dotsBeforeSlash rest)%bool
  end.

(** A digit or a dot. *)
Definition digitOrDot (a : ascii) : bool :=
  (isDigit a || N.eqb (code a) 46)%bool.

(** A version: digits and dots, at least one, after an optional [v]. *)
Definition isVersion (v : string) : bool :=
  match v with
  | String a rest =>
      if N.eqb (code a) 118
      then (nonEmpty rest && allBytes digitOrDot rest)%bool
      else allBytes digitOrDot v
  | EmptyString => false
  end.

(** Any byte but [@]. *)
Definition notAt (a : ascii) : bool := negb (N.eqb (code a) 64).

(** [[\d\.\s]] *)
Definition versionByte : regex := Alt (Chr digitOrDot) WhiteSpace.

Definition isAscii (a : ascii) : bool := N.ltb (code a) 128.

(** An ASCII white-space byte or an underscore. *)
Definition isGap (a : ascii) : bool :=
  (between 9 13 a || N.eqb (code a) 32 || N.eqb (code a) 95)%bool.

(** Every run of gap bytes becomes one space; [inGap] tells that the byte
    before was a gap byte. *)
Fixpoint collapseGaps (inGap : bool) (s : string) : string :=
  match s with
  | EmptyString => EmptyString
  | String a rest =>
      if isGap a then
        if inGap then collapseGaps true rest
        else String " " (collapseGaps true rest)
      else String a (collapseGaps false rest)
  end.

(** The number of gap bytes at the head of [s]. *)
Fixpoint gapLength (s : string) : nat :=
  match s with
  | EmptyString => O
  | String a rest => if isGap a then S (gapLength rest) else O
  end.

(** [[\s_]] *)
Definition gapByte : regex := Alt WhiteSpace (B 95).

(** ** Concrete reports for the examples *)

Definition exampleSession : Session :=
  {| session_id := "00k3j2h1g0"; session_number := 3600000;
     session_engaged := true; session_start := Some true;
     session_hitCount := 0 |}.

(** A world with one session, that of connection 7. *)
Definition exampleWorld : World :=
  {| heap := [exampleSession]; sessionMap := {[ 7%nat := 0%nat ]};
     console := []; network := [] |}.

Definition exampleEvent : Event :=
  {| event_name := "page_view"; event_category := Some "docs";
     event_label := None;
     event_params := [("myMetric", PNumber 42); ("myFlag", PBoolean true)] |}.

Definition exampleReport : GA4Report :=
  {| measurementId := Some "G-EXAMPLE";
     client := {| client_id := None; client_ip := Some "203.0.113.7";
                  client_language := Some "en-us";
                  client_headers := [("user-agent", "Deno/1.17")] |};
     user := {| user_id := None;
                user_properties := [("planName", PString "pro")] |};
     session := Some 0%nat;
     campaign := None;
     page := {| page_location := "https://deno.land/x/case";
                page_title := "x / case"; page_referrer := None;
                page_ignoreReferrer := None; page_trafficType := None;
                page_firstVisit := None; page_newToSite := None |};
     events := [Some exampleEvent] |}.

(** The same report without a measurement id. *)
Definition exampleUnconfigured : GA4Report :=
  set_measurementId exampleReport None.

(** The same report without a client IP. *)
Definition exampleAnonymous : GA4Report :=
  {| measurementId := measurementId exampleReport;
     client := {| client_id := None; client_ip := None;
                  client_language := None; client_headers := [] |};
     user := user exampleReport; session := session exampleReport;
     campaign := campaign exampleReport; page := page exampleReport;
     events := events exampleReport |}.

Definition noContent : Response :=
  {| status := 204; statusText := "No Content" |}.

(** An environment without the variable, in which every request is answered
    with 204 after 25 ms. *)
Definition exampleEnv : Env :=
  {| GA4_MEASUREMENT_ID := None;
     fetch := fun _ => Resolved noContent 25 |}.

(** A request with a referer that is not a URL. *)
Definition exampleInit : GA4Init :=
  {| init_measurementId := None;
     init_request := {| method := "GET"; url := "https://deno.land/x/case";
                        headers := [("referer", "not a url")] |};
     init_response := {| status := 200; statusText := "OK" |};
     init_conn := {| conn_identity := 9;
                     remoteAddr_hostname := "203.0.113.7" |} |}.

Definition examplePlatform : Platform :=
  {| Date_now := 1793836800000; random36 := "k3j2h1g0" |}.

(** The request of the example report. *)
Definition exampleRequest : HttpRequest :=
  requestOf Imported.snakeCase
    (send Imported.snakeCase Imported.SHA1 exampleEnv exampleReport
       exampleWorld).1.1
    exampleWorld [].

(** Two more events. *)
Definition scrollEvent : Event :=
  {| event_name := "scroll"; event_category := None; event_label := None;
     event_params := [("percent", PNumber 90)] |}.

Definition clickEvent : Event :=
  {| event_name := "click"; event_category := None;
     event_label := Some "nav"; event_params := [] |}.

(** The example report with three events, and its request. *)
Definition exampleBatch : GA4Report :=
  withEvents exampleReport
    [Some exampleEvent; Some scrollEvent; Some clickEvent].

Definition exampleBatchRequest : HttpRequest :=
  requestOf Imported.snakeCase
    (send Imported.snakeCase Imported.SHA1 exampleEnv exampleBatch
       exampleWorld).1.1
    exampleWorld
    [[("en", "scroll"); ("epn.percent", "90")];
     [("en", "click"); ("ep.event_label", "nav")]].

(** The example report with a [null] primary event and one more event, and
    its request. *)
Definition exampleLate : GA4Report :=
  withEvents exampleReport [None; Some scrollEvent].

Definition exampleLateRequest : HttpRequest :=
  requestOf Imported.snakeCase
    (send Imported.snakeCase Imported.SHA1 exampleEnv exampleLate
       exampleWorld).1.1
    exampleWorld
    [[("en", "scroll"); ("epn.percent", "90")]].

(** A report in which every field is set. *)
Definition exampleFirstVisit : GA4Report :=
  {| measurementId := Some "G-EXAMPLE";
     client := {| client_id := Some "1234.5678";
                  client_ip := Some "203.0.113.7";
                  client_language := Some "en-us";
                  client_headers := [("user-agent", "Deno/1.17")] |};
     user := {| user_id := Some "u-42";
                user_properties := [("planName", PString "pro")] |};
     session := Some 0%nat;
     campaign := Some {| campaign_source := "newsletter";
                         campaign_medium := "email";
                         campaign_id := Some "c-7";
                         campaign_name := Some "launch";
                         campaign_content := Some "banner";
                         campaign_term := Some "deno" |};
     page := {| page_location := "https://deno.land/x/case";
                page_title := "x / case";
                page_referrer := Some "https://example.com/";
                page_ignoreReferrer := Some false;
                page_trafficType := Some referral;
                page_firstVisit := Some true; page_newToSite := Some true |};
     events :=
       [Some {| event_name := "first_visit"; event_category := Some "docs";
                event_label := Some "intro";
                event_params := [("myMetric", PNumber 42);
                                 ("myFlag", PBoolean true)] |}] |}.

(** * Further vocabulary *)

(** ** The address and the language of the client *)

(** A byte of an address: printable ASCII other than the comma. *)
Definition addressByte (a : ascii) : bool :=
  (between 33 126 a && negb (N.eqb (code a) 44))%bool.

(** Any byte but the comma. *)
Definition notComma (a : ascii) : bool := negb (N.eqb (code a) 44).

(** White space of ASCII: tab to carriage return, and the space. *)
Definition asciiSpace (a : ascii) : bool :=
  (between 9 13 a || N.eqb (code a) 32)%bool.

(** A request with the header [x-forwarded-for: value]. *)
Definition forwardedRequest (value : string) : Request :=
  {| method := "GET"; url := "https://deno.land/";
     headers := [("x-forwarded-for", value)] |}.

(** The connection of the example world. *)
Definition exampleConn : ConnInfo :=
  {| conn_identity := 7; remoteAddr_hostname := "198.51.100.4" |}.

(** A byte of a language code: an ASCII letter or a hyphen. *)
Definition codeByte (a : ascii) : bool :=
  (isLower a || isUpper a || N.eqb (code a) 45)%bool.

(** A lower-case letter or a hyphen. *)
Definition lowerCodeByte (a : ascii) : bool :=
  (isLower a || N.eqb (code a) 45)%bool.

(** Any other byte. *)
Definition notCodeByte (a : ascii) : bool := negb (codeByte a).

(** A request with the header [accept-language: value]. *)
Definition languageRequest (value : string) : Request :=
  {| method := "GET"; url := "https://deno.land/";
     headers := [("accept-language", value)] |}.

(** ** Headers, digests and query strings *)

(** The names of the headers [getClientHeaders] keeps. *)
Definition clientHint (name : string) : bool :=
  (String.eqb name "user-agent" || String.eqb name "sec-ch-ua"
   || String.prefix "sec-ch-ua-" name)%bool.

(** A lower-case hexadecimal digit. *)
Definition lowerHexByte (a : ascii) : bool :=
  (isDigit a || between 97 102 a)%bool.

(** The bytes written by a hexadecimal numeral, two digits a byte. *)
Fixpoint fromHex (s : string) : option (list ascii) :=
  match s with
  | EmptyString => Some []
  | String h (String l rest) =>
      match hexValue h, hexValue l, fromHex rest with
      | Some x, Some y, Some bytes => Some (ascii_of_N (16 * x + y) :: bytes)
      | _, _, _ => None
      end
  | String _ EmptyString => None
  end.

(** The bytes [application/x-www-form-urlencoded] writes: letters, digits,
    [*], [-], [.], [_], the [+] of a space and the [%] of an escape. *)
Definition formSafe (a : ascii) : bool :=
  (isAlphaNum a || N.eqb (code a) 42 || N.eqb (code a) 45
   || N.eqb (code a) 46 || N.eqb (code a) 95 || N.eqb (code a) 43
   || N.eqb (code a) 37)%bool.

(** The decoder of [application/x-www-form-urlencoded]: [+] is a space,
    [%XX] is the byte [XX], an escape that is none stays as it is. *)
Fixpoint formDecode (s : string) : string :=
  match s with
  | EmptyString => EmptyString
  | String a rest =>
      if N.eqb (code a) 43 then String " " (formDecode rest)
      else if N.eqb (code a) 37 then
        match rest with
        | String h (String l rest') =>
            match hexValue h, hexValue l with
            | Some x, Some y =>
                String (ascii_of_N (16 * x + y)) (formDecode rest')
            | _, _ => String a (formDecode rest)
            end
        | _ => String a (formDecode rest)
        end
      else String a (formDecode rest)
  end.

(** The pair read so far: without [=] the piece is a name with an empty
    value. *)
Definition closePair (key : option string) (piece : string)
    : string * string :=
  match key with
  | Some k => (k, piece)
  | None => (piece, EmptyString)
  end.

(** The pairs of a query string, still encoded: pairs end at [&], the name
    of a pair ends at its first [=]. *)
Fixpoint parsePairs (key : option string) (piece : string) (s : string)
    : list (string * string) :=
  match s with
  | EmptyString => [closePair key piece]
  | String a rest =>
      if N.eqb (code a) 38 then closePair key piece :: parsePairs None "" rest
      else
        match key with
        | None =>
            if N.eqb (code a) 61 then parsePairs (Some piece) "" rest
            else parsePairs None (piece +:+ String a "") rest
        | Some _ => parsePairs key (piece +:+ String a "") rest
        end
  end.

(** The parser of [application/x-www-form-urlencoded]. *)
Definition parseQuery (s : string) : Params :=
  match s with
  | EmptyString => []
  | _ => map (fun p => (formDecode (fst p), formDecode (snd p)))
             (parsePairs None "" s)
  end.

(** A byte of a query string. *)
Definition queryByte (a : ascii) : bool :=
  (formSafe a || N.eqb (code a) 38 || N.eqb (code a) 61)%bool.

(** ** Secondary events *)

(** The parameters of a secondary event, as [eventParams] builds them. *)
Definition secondaryParams (sc : string -> string) (ev : Event) : Params :=
  addCustomParams sc "ep"
    (maybeAddShortParam [] "en" (PString (event_name ev)))
    (eventCustomParams ev).

(** ** The console *)

(** The line [upload] logs for a response that is not a quick 204. *)
Definition uploadedLine (events : nat) (response : Response) (duration : Z)
    : string :=
  "GA4: " +:+ Z_to_string (Z.of_nat events) +:+ " events uploaded in "
  +:+ Z_to_string duration +:+ "ms. Response: "
  +:+ Z_to_string (status response) +:+ " " +:+ statusText response.

(** The line [upload] logs when [fetch] throws. *)
Definition uploadFailedLine (err : string) : string :=
  "GA4: Upload failed: " +:+ err.

(** The console after [upload]. *)
Definition consoleAfter (env : Env) (r : GA4Report) (w : World)
    (request : HttpRequest) : list string :=
  match fetch env request with
  | Resolved response duration =>
      if (status response =? 204) && (duration <? SLOW_UPLOAD_THRESHOLD)
      then console w
      else (console w
            ++ [uploadedLine (length (events r)) response duration])%list
  | Rejected err => (console w ++ [uploadFailedLine err])%list
  end.

(** An environment in which [fetch] fails. *)
Definition offlineEnv : Env :=
  {| GA4_MEASUREMENT_ID := None;
     fetch := fun _ => Rejected "TypeError: error sending request" |}.

(** An environment in which the collector answers 200 after 1.5 s. *)
Definition slowEnv : Env :=
  {| GA4_MEASUREMENT_ID := None;
     fetch := fun _ => Resolved {| status := 200; statusText := "OK" |} 1500 |}.

(** The example report with a secondary entry that is [null]. *)
Definition exampleBroken : GA4Report :=
  {| measurementId := measurementId exampleReport;
     client := client exampleReport; user := user exampleReport;
     session := session exampleReport; campaign := campaign exampleReport;
     page := page exampleReport;
     events := [Some exampleEvent; None] |}.

(** ** Worlds and connections *)

(** The session map refers to sessions of the heap, and no two connections
    share a session. *)
Definition wellFormed (w : World) : Prop :=
  (forall c ref, sessionMap w !! c = Some ref -> (ref < length (heap w))%nat)
  /\ (forall c1 c2 ref,
        sessionMap w !! c1 = Some ref -> sessionMap w !! c2 = Some ref ->
        c1 = c2).

(** The world in which the module is loaded: no session, nothing logged,
    nothing sent. *)
Definition emptyWorld : World :=
  {| heap := []; sessionMap := ∅; console := []; network := [] |}.

(** The session [getSession] allocates. *)
Definition newSession (platform : Platform) : Session :=
  {| session_id := padStart0 10 (random36 platform);
     session_number := (Date_now platform - START_OF_2020) / MINUTE;
     session_engaged := true; session_start := Some true;
     session_hitCount := 0 |}.

(** A second connection. *)
Definition otherConn : ConnInfo :=
  {| conn_identity := 8; remoteAddr_hostname := "198.51.100.9" |}.

(** ** Reports that were just built *)


(** A request of a browser, with a cookie. *)
Definition browserInit : GA4Init :=
  {| init_measurementId := Some "G-EXAMPLE";
     init_request :=
       {| method := "GET"; url := "https://deno.land/x/case";
          headers := [("cookie", "sid=1"); ("user-agent", "Deno/1.17");
                      ("referer", "https://example.com/")] |};
     init_response := {| status := 200; statusText := "OK" |};
     init_conn := exampleConn |}.


(** ** Paths and their segments *)

(** The slash. *)
Definition isSlash (a : ascii) : bool := N.eqb (code a) 47.

(** The number of bytes of the class [p] at the head of [s]. *)
Fixpoint runLength (p : ascii -> bool) (s : string) : nat :=
  match s with
  | EmptyString => O
  | String a rest => if p a then S (runLength p rest) else O
  end.

(** The segments of a path that are not empty: what stands between the
    slashes. [piece] is the segment read so far. *)
Fixpoint segmentsOf (piece : string) (s : string) : list string :=
  match s with
  | EmptyString => if nonEmpty piece then [piece] else []
  | String a rest =>
      if isSlash a then
        if nonEmpty piece then piece :: segmentsOf "" rest
        else segmentsOf "" rest
      else segmentsOf (piece +:+ String a "") rest
  end.

(** The title of a list of segments. *)
Definition titleOf (segments : list string) : string :=
  match segments with
  | [] => "(top level)"
  | _ => join " / " segments
  end.

(** Any byte but [%]. *)
Definition notPercent (a : ascii) : bool := negb (N.eqb (code a) 37).

(** Whether [s] starts with two hexadecimal digits. *)
Definition startsWithHexPair (s : string) : bool :=
  match s with
  | String h (String l _) =>
      match hexValue h, hexValue l with
      | Some _, Some _ => true
      | _, _ => false
      end
  | _ => false
  end.

(** A plain byte or a slash. *)
Definition pathByte (a : ascii) : bool := (plainByte a || isSlash a)%bool.

(** A page request for a path with a malformed escape. *)
Definition malformedInit : GA4Init :=
  {| init_measurementId := None;
     init_request := {| method := "GET"; url := "https://deno.land/100%";
                        headers := [] |};
     init_response := {| status := 200; statusText := "OK" |};
     init_conn := otherConn |}.

(** ** Custom parameters under one key; new sessions *)

(** The text of the last custom parameter of [entries] that is emitted
    under the key [k]. *)
Fixpoint lastCustom (snakeCase : string -> string) (prefix : string)
    (entries : list (string * Primitive)) (k : string) : option string :=
  match entries with
  | [] => None
  | (name, value) :: rest =>
      match lastCustom snakeCase prefix rest k with
      | Some text => Some text
      | None =>
          if (defined value
              && String.eqb (customKey snakeCase prefix name value) k)%bool
          then Some (String_ value)
          else None
      end
  end.

(** The digit zero. *)
Definition isZero (a : ascii) : bool := N.eqb (code a) 48.

(** A report whose event has a parameter named like its category. *)
Definition exampleShadowed : GA4Report :=
  set_event exampleReport
    (Some {| event_name := "page_view"; event_category := Some "docs";
             event_label := None;
             event_params := [("eventCategory", PString "spoofed");
                              ("myFlag", PBoolean true);
                              ("my_flag", PBoolean false)] |}).

(** ** Measurement ids *)

(** An environment with a measurement id. *)
Definition configuredEnv : Env :=
  {| GA4_MEASUREMENT_ID := Some "G-FROM-ENV";
     fetch := fun _ => Resolved noContent 25 |}.

(** The example report with the empty string for its measurement id. *)
Definition exampleBlank : GA4Report :=
  set_measurementId exampleReport (Some "").

(** ** Trimming, escapes and the pieces of a path *)

(** The text without the ASCII white space at its start. *)
Fixpoint stripStart (s : string) : string :=
  match s with
  | EmptyString => EmptyString
  | String a rest => if asciiSpace a then stripStart rest else s
  end.

(** The text without the ASCII white space at its end: it ends where only
    white space is left. *)
Fixpoint stripEnd (s : string) : string :=
  match s with
  | EmptyString => EmptyString
  | String a rest =>
      if (asciiSpace a && allBytes asciiSpace rest)%bool then EmptyString
      else String a (stripEnd rest)
  end.

(** The text without the ASCII white space at its ends. *)
Definition stripped (s : string) : string := stripEnd (stripStart s).

(** The escape of a byte: [%] and the two hexadecimal digits of its code. *)
Definition escapeByte (a : ascii) : string :=
  String "%" (String (upperHexDigit (code a / 16))
                (String (upperHexDigit (code a mod 16)) EmptyString)).

(** The text in which the bytes of the class [p] are escaped. *)
Fixpoint escapeWhere (p : ascii -> bool) (s : string) : string :=
  match s with
  | EmptyString => EmptyString
  | String a rest =>
      (if p a then escapeByte a else String a EmptyString)
      +:+ escapeWhere p rest
  end.

(** Any byte but the dot. *)
Definition notDot (a : ascii) : bool := negb (N.eqb (code a) 46).

(** A piece of a path before it is escaped: a name and, if there is one, a
    version after an [@]. *)
Definition pieceText (piece : string * option string) : string :=
  match snd piece with
  | Some v => fst piece +:+ "@" +:+ v
  | None => fst piece
  end.

(** What the title shows of a piece: its name, every run of white space and
    underscores as one space, without the white space at its ends. *)
Definition pieceTitle (piece : string * option string) : string :=
  stripped (collapseGaps false (fst piece)).

(** The pieces the derivation is described for: the name is ASCII text
    without an [@], the version is one, and the piece is not empty. *)
Definition wellFormedPiece (piece : string * option string) : bool :=
  (allBytes isAscii (fst piece) && allBytes notAt (fst piece)
   && match snd piece with
      | Some v => isVersion v
      | None => nonEmpty (fst piece)
      end)%bool.

(** The steps after the decoding, on one piece. *)
Definition cleanPiece (piece : string) : string :=
  trim (replace versionNumber "" (replaceAll spacesAndUnderbars " " piece)).

(** Everything but letters and digits. *)
Definition notAlphaNum (a : ascii) : bool := negb (isAlphaNum a).

(** The no-break space U+00A0 and the letter U+00E9 in UTF-8. *)
Definition noBreakSpace : string :=
  String (ascii_of_N 194) (String (ascii_of_N 160) EmptyString).

Definition eAcute : string :=
  String (ascii_of_N 195) (String (ascii_of_N 169) EmptyString).

(** * Properties *)

(** ** The matcher *)

Lemma nonEmpty_false s : nonEmpty s = false -> s = "".
Proof.
  unfold nonEmpty. intros H. apply negb_false_iff, String.eqb_eq in H. auto.
Qed.

Lemma nonEmpty_true s : nonEmpty s = true -> s <> "".
Proof.
  unfold nonEmpty. intros H ->. discriminate.
Qed.

Lemma append_empty_r (s : string) : s +:+ "" = s.
Proof.
  induction s as [|a s IH]; [reflexivity|].
  change (String a (s +:+ "") = String a s). now rewrite IH.
Qed.

Lemma iterate_ext {A} (body : string -> (string -> option A) -> option A)
    (k1 k2 : string -> option A) :
  (forall s j1 j2, (forall x, j1 x = j2 x) -> body s j1 = body s j2) ->
  (forall x, k1 x = k2 x) ->
  forall fuel s, iterate body k1 fuel s = iterate body k2 fuel s.
Proof.
  intros Hbody Hk. induction fuel as [|fuel IH]; intros s; simpl.
  - apply Hk.
  - rewrite (Hbody s _ (fun rest =>
        if (String.length rest <? String.length s)%nat
        then iterate body k2 fuel rest else None)).
    + now rewrite Hk.
    + intros x. now rewrite IH.
Qed.

(** The matcher uses its continuation only through its values. *)
Lemma run_ext {A} (r : regex) :
  forall (s : string) (k1 k2 : string -> option A),
    (forall x, k1 x = k2 x) -> run r s k1 = run r s k2.
Proof.
  induction r as [p| |r1 IH1 r2 IH2|r1 IH1 r2 IH2|r1 IH1|];
    intros s k1 k2 Hk.
  - simpl. destruct s as [|a rest]; auto. destruct (p a); auto.
  - apply Hk.
  - simpl. apply IH1. intros x. now apply IH2.
  - simpl. now rewrite (IH1 s k1 k2 Hk), (IH2 s k1 k2 Hk).
  - exact (iterate_ext (run r1) k1 k2 IH1 Hk (S (String.length s)) s).
  - simpl. destruct s; auto.
Qed.

(** Fuel above the length of the input makes no difference. *)
Lemma iterate_fuel {A} (r : regex) (k : string -> option A) :
  forall f1 f2 s,
    (String.length s < f1)%nat -> (String.length s < f2)%nat ->
    iterate (run r) k f1 s = iterate (run r) k f2 s.
Proof.
  induction f1 as [|f1 IH]; intros f2 s H1 H2; [lia|].
  destruct f2 as [|f2]; [lia|]. cbn [iterate].
  rewrite (run_ext r s _ (fun rest =>
      if (String.length rest <? String.length s)%nat
      then iterate (run r) k f2 rest else None)); auto.
  intros x. destruct (Nat.ltb_spec (String.length x) (String.length s)); auto.
  apply IH; lia.
Qed.

(** The equation of the greedy star. *)
Lemma run_Star {A} (r : regex) (s : string) (k : string -> option A) :
  run (Star r) s k =
    match
      run r s (fun rest =>
        if (String.length rest <? String.length s)%nat
        then run (Star r) rest k else None)
    with
    | Some x => Some x
    | None => k s
    end.
Proof.
  cbn [run iterate].
  rewrite (run_ext r s _ (fun rest =>
      if (String.length rest <? String.length s)%nat
      then iterate (run r) k (S (String.length rest)) rest else None)); auto.
  intros x. destruct (Nat.ltb_spec (String.length x) (String.length s)); auto.
  apply iterate_fuel; lia.
Qed.

Lemma emptyAt_nullable r s : emptyAt r s = true -> nullable r = true.
Proof.
  induction r; simpl; auto; rewrite ?andb_true_iff, ?orb_true_iff; tauto.
Qed.

(** Where no match of [r] can start, [r] matches the empty string or
    nothing. *)
Lemma run_no_first {A} (r : regex) :
  forall (s : string) (k : string -> option A),
    startsIn (first r) s = false ->
    run r s k = if emptyAt r s then k s else None.
Proof.
  induction r as [p| |r1 IH1 r2 IH2|r1 IH1 r2 IH2|r1 IH1|];
    intros s k Hs.
  - destruct s as [|a rest]; simpl in *; auto. now rewrite Hs.
  - reflexivity.
  - assert (startsIn (first r1) s = false) as H1.
    { destruct s as [|a rest]; [reflexivity|]. cbn [startsIn first] in *.
      now apply orb_false_iff in Hs. }
    cbn [run emptyAt]. rewrite IH1 by auto.
    destruct (emptyAt r1 s) eqn:E1; [|reflexivity]. cbn [andb].
    apply IH2. apply emptyAt_nullable in E1.
    destruct s as [|a rest]; [reflexivity|]. cbn [startsIn first] in *.
    apply orb_false_iff in Hs as [_ Hs].
    rewrite E1 in Hs. exact Hs.
  - assert (startsIn (first r1) s = false /\ startsIn (first r2) s = false)
      as [H1 H2].
    { destruct s as [|a rest]; [now split|]. cbn [startsIn first] in *.
      now apply orb_false_iff in Hs. }
    cbn [run emptyAt]. rewrite IH1, IH2 by auto.
    destruct (emptyAt r1 s), (emptyAt r2 s); cbn [orb];
      destruct (k s); reflexivity.
  - rewrite run_Star. rewrite IH1 by (destruct s; auto).
    rewrite Nat.ltb_irrefl. now destruct (emptyAt r1 s).
  - destruct s; reflexivity.
Qed.

(** A regular expression that matches no empty string does not match where
    none of its matches can start. *)
Lemma matchLen_no_first (r : regex) (s : string) :
  nullable r = false -> startsIn (first r) s = false -> matchLen r s = None.
Proof.
  intros Hn Hs. unfold matchLen. rewrite run_no_first by auto.
  destruct (emptyAt r s) eqn:E; auto.
  apply emptyAt_nullable in E. congruence.
Qed.

Lemma allBytes_startsIn p q s :
  (forall a, p a = true -> q a = false) ->
  allBytes p s = true -> startsIn q s = false.
Proof.
  intros H. destruct s as [|a rest]; simpl; auto.
  rewrite andb_true_iff. intros [Ha _]. auto.
Qed.

(** Nothing is replaced in a string without a byte a match can start
    with. *)
Lemma replace_none (r : regex) (by_ s : string) (p : ascii -> bool) :
  nullable r = false ->
  (forall a, p a = true -> first r a = false) ->
  allBytes p s = true -> replace r by_ s = s.
Proof.
  intros Hn Hp. induction s as [|a rest IH]; intros Hs.
  - simpl. now rewrite matchLen_no_first.
  - simpl. rewrite matchLen_no_first; auto.
    + f_equal. apply IH. simpl in Hs. now apply andb_true_iff in Hs.
    + now apply (allBytes_startsIn p).
Qed.

Lemma replaceAll_none (r : regex) (by_ s : string) (p : ascii -> bool) :
  nullable r = false ->
  (forall a, p a = true -> first r a = false) ->
  allBytes p s = true -> replaceAll r by_ s = s.
Proof.
  intros Hn Hp. unfold replaceAll. induction s as [|a rest IH]; intros Hs.
  - simpl. now rewrite matchLen_no_first.
  - simpl. rewrite matchLen_no_first; auto.
    + f_equal. apply IH. simpl in Hs. now apply andb_true_iff in Hs.
    + now apply (allBytes_startsIn p).
Qed.

Ltac by_bytes a :=
  destruct a as [[] [] [] [] [] [] [] []]; vm_compute;
  first [reflexivity | intros H; discriminate H | intros H; exact H].

Lemma plain_not_slash a : plainByte a = true -> N.eqb (code a) 47 = false.
Proof. by_bytes a. Qed.

Lemma plain_not_percent a : plainByte a = true -> N.eqb (code a) 37 = false.
Proof. by_bytes a. Qed.

Lemma plain_fileExtension a :
  (plainByte a || N.eqb (code a) 47)%bool = true ->
  first fileExtension a = false.
Proof. by_bytes a. Qed.

Lemma plain_spaces a :
  plainByte a = true -> first spacesAndUnderbars a = false.
Proof. by_bytes a. Qed.

Lemma plain_version a : plainByte a = true -> first versionNumber a = false.
Proof. by_bytes a. Qed.

Lemma plain_whiteSpace a : plainByte a = true -> first WhiteSpace a = false.
Proof. by_bytes a. Qed.

Lemma plain_trailingSpace a :
  plainByte a = true -> first (Seq (Plus WhiteSpace) AtEnd) a = false.
Proof. by_bytes a. Qed.

Lemma append_assoc (a b c : string) : (a +:+ b) +:+ c = a +:+ (b +:+ c).
Proof.
  induction a as [|x a IH]; [reflexivity|].
  change (String x ((a +:+ b) +:+ c) = String x (a +:+ (b +:+ c))).
  now rewrite IH.
Qed.

Lemma allBytes_app p (s t : string) :
  allBytes p (s +:+ t) = (allBytes p s && allBytes p t)%bool.
Proof.
  induction s as [|a s IH]; [reflexivity|].
  change (p a && allBytes p (s +:+ t)
          = p a && allBytes p s && allBytes p t)%bool.
  now rewrite IH, andb_assoc.
Qed.

Lemma allBytes_weaken (p q : ascii -> bool) s :
  (forall a, p a = true -> q a = true) ->
  allBytes p s = true -> allBytes q s = true.
Proof.
  intros H. induction s as [|a s IH]; simpl; auto.
  rewrite !andb_true_iff. intros [Ha Hs]. auto.
Qed.

(** A slash followed by something other than a slash is one separator. *)
Lemma matchLen_one_slash (rest : string) :
  startsIn (fun a => N.eqb (code a) 47) rest = false ->
  matchLen slashes (String "/" rest) = Some 1%nat.
Proof.
  intros H. unfold matchLen, slashes, Plus.
  change (run (Star (B 47)) rest
            (fun rest0 => Some (String.length (String "/" rest)
                                - String.length rest0)%nat) = Some 1%nat).
  rewrite run_no_first by exact H. cbn [emptyAt String.length].
  f_equal. lia.
Qed.

Lemma matchLen_slashes_none (s : string) :
  startsIn (fun a => N.eqb (code a) 47) s = false ->
  matchLen slashes s = None.
Proof.
  intros H. apply matchLen_no_first; [reflexivity|].
  destruct s as [|a rest]; [reflexivity|]. cbn in *. now rewrite H.
Qed.

Lemma split_from_segment (seg : string) : forall piece tail,
  allBytes plainByte seg = true ->
  split_from slashes 0 piece (seg +:+ tail)
  = split_from slashes 0 (piece +:+ seg) tail.
Proof.
  induction seg as [|a seg IH]; intros piece tail Hs.
  - now rewrite append_empty_r.
  - cbn [allBytes] in Hs. apply andb_true_iff in Hs as [Ha Hs].
    change (String a seg +:+ tail) with (String a (seg +:+ tail)).
    cbn [split_from]. rewrite matchLen_slashes_none.
    + rewrite IH by auto. now rewrite append_assoc.
    + cbn. now apply plain_not_slash.
Qed.

Lemma cleanSegment_inv s :
  cleanSegment s = true ->
  s <> "" /\ allBytes plainByte s = true
  /\ startsIn (fun a => N.eqb (code a) 47) s = false.
Proof.
  unfold cleanSegment. rewrite andb_true_iff. intros [Hne Hs].
  repeat split; auto.
  - intros ->. discriminate.
  - apply (allBytes_startsIn plainByte); auto using plain_not_slash.
Qed.

Lemma join_cons2 sep (p q : string) (l : list string) :
  join sep (p :: q :: l) = p +:+ sep +:+ join sep (q :: l).
Proof. reflexivity. Qed.

Lemma startsIn_app p (s t : string) :
  s <> "" -> startsIn p (s +:+ t) = startsIn p s.
Proof. destruct s; [congruence|reflexivity]. Qed.

Lemma join_startsIn p sep (s : string) (l : list string) :
  s <> "" -> startsIn p (join sep (s :: l)) = startsIn p s.
Proof.
  intros H. destruct l as [|q l]; [reflexivity|].
  rewrite join_cons2. now apply startsIn_app.
Qed.

Lemma split_clean (segments : list string) :
  segments <> [] ->
  forallb cleanSegment segments = true ->
  split_from slashes 0 "" (join "/" segments) = segments.
Proof.
  induction segments as [|seg l IH]; [congruence|]. intros _ Hc.
  cbn [forallb] in Hc. apply andb_true_iff in Hc as [Hseg Hl].
  apply cleanSegment_inv in Hseg as (Hne & Hplain & _).
  destruct l as [|seg2 l].
  - cbn [join]. rewrite <- (append_empty_r seg) at 1.
    rewrite split_from_segment by auto. reflexivity.
  - rewrite join_cons2, split_from_segment by auto.
    change ("/" +:+ join "/" (seg2 :: l))
      with (String "/" (join "/" (seg2 :: l))).
    cbn [split_from]. rewrite matchLen_one_slash.
    + change ("" +:+ seg) with seg. f_equal. apply IH; [discriminate|auto].
    + cbn [forallb] in Hl. apply andb_true_iff in Hl as [Hseg2 _].
      apply cleanSegment_inv in Hseg2 as (Hne2 & _ & Hs2).
      now rewrite join_startsIn.
Qed.

Lemma split_pathOf (segments : list string) :
  segments <> [] ->
  forallb cleanSegment segments = true ->
  split slashes (pathOf segments) = "" :: segments.
Proof.
  intros Hne Hc. unfold pathOf.
  change ("/" +:+ join "/" segments) with (String "/" (join "/" segments)).
  unfold split. cbn [split_from]. rewrite matchLen_one_slash.
  - f_equal. now apply split_clean.
  - destruct segments as [|seg l]; [congruence|].
    cbn [forallb] in Hc. apply andb_true_iff in Hc as [Hseg _].
    apply cleanSegment_inv in Hseg as (Hne' & _ & Hs).
    now rewrite join_startsIn.
Qed.

Lemma unescapeBytes_plain (s : string) :
  allBytes plainByte s = true ->
  unescapeBytes s = Some (map (fun a => (a, false)) (list_ascii_of_string s)).
Proof.
  induction s as [|a s IH]; [reflexivity|]. cbn [allBytes].
  rewrite andb_true_iff. intros [Ha Hs].
  cbn [unescapeBytes]. rewrite (plain_not_percent a Ha), IH by auto.
  reflexivity.
Qed.

Lemma escapesWellFormed_literal (l : list ascii) :
  escapesWellFormed AtStart (map (fun a => (a, false)) l) = true.
Proof. induction l as [|a l IH]; [reflexivity|exact IH]. Qed.

(** A string without escapes decodes to itself. *)
Lemma decodeURIComponent_plain (s : string) :
  allBytes plainByte s = true -> decodeURIComponent s = Some s.
Proof.
  intros H. unfold decodeURIComponent.
  rewrite unescapeBytes_plain, escapesWellFormed_literal by auto.
  rewrite map_map. cbn [fst]. rewrite map_id.
  now rewrite string_of_list_ascii_of_string.
Qed.

Lemma decodeAll_plain (pieces : list string) :
  forallb (allBytes plainByte) pieces = true -> decodeAll pieces = Ok pieces.
Proof.
  induction pieces as [|p l IH]; [reflexivity|]. cbn [forallb].
  rewrite andb_true_iff. intros [Hp Hl].
  cbn [decodeAll]. now rewrite decodeURIComponent_plain, IH.
Qed.

Lemma trimStart_plain (s : string) :
  allBytes plainByte s = true -> trimStart s = s.
Proof.
  intros H. unfold trimStart, matchLen.
  rewrite run_no_first.
  - cbn [emptyAt]. rewrite Nat.sub_diag. now destruct s.
  - apply (allBytes_startsIn plainByte); [exact plain_whiteSpace|exact H].
Qed.

Lemma trim_plain (s : string) : allBytes plainByte s = true -> trim s = s.
Proof.
  intros H. unfold trim, trimEnd. rewrite trimStart_plain by auto.
  apply (replace_none _ _ _ plainByte); auto using plain_trailingSpace.
Qed.

(** The steps after the decoding leave a plain piece as it is. *)
Lemma clean_piece (s : string) :
  allBytes plainByte s = true ->
  trim (replace versionNumber "" (replaceAll spacesAndUnderbars " " s)) = s.
Proof.
  intros H.
  rewrite (replaceAll_none _ _ _ plainByte); auto using plain_spaces.
  rewrite (replace_none _ _ _ plainByte); auto using plain_version.
  now apply trim_plain.
Qed.

Lemma cleanSegments_plain (segments : list string) :
  forallb cleanSegment segments = true ->
  forallb (allBytes plainByte) segments = true.
Proof.
  induction segments as [|s l IH]; [reflexivity|]. cbn [forallb].
  rewrite !andb_true_iff. intros [Hs Hl]. split; auto.
  now apply cleanSegment_inv in Hs.
Qed.

Lemma map_clean_pieces (pieces : list string) :
  forallb (allBytes plainByte) pieces = true ->
  map trim (map (replace versionNumber "")
                (map (replaceAll spacesAndUnderbars " ") pieces)) = pieces.
Proof.
  induction pieces as [|p l IH]; [reflexivity|]. cbn [forallb].
  rewrite andb_true_iff. intros [Hp Hl]. cbn [map].
  now rewrite clean_piece, IH.
Qed.

Lemma filter_nonEmpty_clean (segments : list string) :
  forallb cleanSegment segments = true ->
  filter (fun s => nonEmpty s) segments = segments.
Proof.
  induction segments as [|s l IH]; [reflexivity|]. cbn [forallb].
  rewrite andb_true_iff. intros [Hs Hl].
  rewrite filter_cons_True.
  - now rewrite IH.
  - unfold cleanSegment in Hs. apply andb_true_iff in Hs as [Hs _].
    now rewrite Hs.
Qed.

Lemma pathOf_bytes (segments : list string) :
  forallb cleanSegment segments = true ->
  allBytes (fun a => plainByte a || N.eqb (code a) 47)%bool (pathOf segments)
  = true.
Proof.
  intros Hc. unfold pathOf.
  change ("/" +:+ join "/" segments) with (String "/" (join "/" segments)).
  cbn [allBytes]. change (plainByte "/" || N.eqb (code "/") 47)%bool with true.
  cbn [andb].
  induction segments as [|s l IH]; [reflexivity|].
  cbn [forallb] in Hc. apply andb_true_iff in Hc as [Hs Hl].
  apply cleanSegment_inv in Hs as (_ & Hs & _).
  assert (allBytes (fun a => plainByte a || N.eqb (code a) 47)%bool s = true)
    as Hs'.
  { apply (allBytes_weaken plainByte); auto. intros a ->. reflexivity. }
  destruct l as [|q l]; [exact Hs'|].
  rewrite join_cons2, !allBytes_app, Hs', IH by auto. reflexivity.
Qed.

Lemma nonEmpty_join (sep s : string) (l : list string) :
  nonEmpty s = true -> nonEmpty (join sep (s :: l)) = true.
Proof.
  destruct s as [|a s]; [discriminate|]. intros _.
  destruct l; reflexivity.
Qed.

(** The title of a clean path is its segments joined by [" / "]. *)
Lemma titleOfPath_clean (segments : list string) :
  segments <> [] ->
  forallb cleanSegment segments = true ->
  titleOfPath (pathOf segments) = Ok (join " / " segments).
Proof.
  intros Hne Hc. unfold titleOfPath.
  rewrite (replace_none _ _ _ (fun a => plainByte a || N.eqb (code a) 47)%bool);
    auto using plain_fileExtension, pathOf_bytes.
  rewrite split_pathOf by auto.
  pose proof (cleanSegments_plain segments Hc) as Hp.
  rewrite decodeAll_plain by (cbn [forallb allBytes]; exact Hp).
  rewrite map_clean_pieces by (cbn [forallb allBytes]; exact Hp).
  rewrite filter_cons_False by (cbn; auto).
  rewrite filter_nonEmpty_clean by auto.
  destruct segments as [|s l]; [congruence|].
  rewrite nonEmpty_join; [reflexivity|].
  cbn [forallb] in Hc. apply andb_true_iff in Hc as [Hs _].
  unfold cleanSegment in Hs. now apply andb_true_iff in Hs.
Qed.

(** A title is never empty. *)
Lemma titleOfPath_nonEmpty (path title : string) :
  titleOfPath path = Ok title -> title <> "".
Proof.
  unfold titleOfPath. destruct (decodeAll _) as [pieces|err]; [|discriminate].
  cbv zeta. destruct (nonEmpty (join " / " _)) eqn:E; intros [= <-].
  - now apply nonEmpty_true.
  - discriminate.
Qed.

(** ** The steps of the title derivation *)

Lemma run_Chr {A} (p : ascii -> bool) (a : ascii) (s : string)
    (k : string -> option A) :
  run (Chr p) (String a s) k = if p a then k s else None.
Proof. reflexivity. Qed.

Lemma length_lt_cons (a : ascii) (s : string) :
  (String.length s <? String.length (String a s))%nat = true.
Proof. apply Nat.ltb_lt. cbn [String.length]. lia. Qed.

(** A class repeated up to the end of the input: all of the input must be
    in the class. *)
Lemma run_star_to_end {A} (p : ascii -> bool) (s : string)
    (k : string -> option A) :
  run (Star (Chr p)) s (fun rest => run AtEnd rest k)
  = if allBytes p s then k "" else None.
Proof.
  induction s as [|a s IH]; rewrite run_Star.
  - reflexivity.
  - rewrite run_Chr. cbn [allBytes].
    destruct (p a); [|reflexivity].
    rewrite length_lt_cons, IH. cbn [andb].
    destruct (allBytes p s); [|reflexivity]. now destruct (k "").
Qed.

Lemma matchLen_fileExtension (ext : string) :
  matchLen fileExtension (String "." ext)
  = if allBytes notSlash ext then Some (S (String.length ext)) else None.
Proof.
  unfold matchLen, fileExtension.
  change (run (Star (Chr notSlash)) ext
            (fun rest => run AtEnd rest
               (fun rest0 => Some (String.length (String "." ext)
                                   - String.length rest0)%nat))
          = if allBytes notSlash ext
            then Some (S (String.length ext)) else None).
  now rewrite run_star_to_end.
Qed.

Lemma dropBytes_all (s : string) : dropBytes (String.length s) s = "".
Proof. induction s as [|a s IH]; [reflexivity|exact IH]. Qed.

Lemma fileExtension_first (a : ascii) :
  first fileExtension a = N.eqb (code a) 46.
Proof. unfold fileExtension. cbn. now rewrite orb_false_r. Qed.

Lemma matchLen_fileExtension_other (a : ascii) (rest : string) :
  N.eqb (code a) 46 = false -> matchLen fileExtension (String a rest) = None.
Proof.
  intros H. apply matchLen_no_first; [reflexivity|].
  cbn [startsIn]. now rewrite fileExtension_first.
Qed.

Lemma code_dot (a : ascii) : N.eqb (code a) 46 = true -> a = "."%char.
Proof.
  intros H. apply N.eqb_eq in H. unfold code in H.
  apply (f_equal ascii_of_N) in H. now rewrite ascii_N_embedding in H.
Qed.

(** The extension is cut off: from the first dot after the last slash. *)
Lemma replace_fileExtension (stem ext : string) :
  dotsBeforeSlash stem = true ->
  allBytes notSlash ext = true ->
  replace fileExtension "" (stem +:+ "." +:+ ext) = stem.
Proof.
  intros Hstem Hext. induction stem as [|a stem IH].
  - change ("" +:+ "." +:+ ext) with (String "." ext).
    cbn [replace]. rewrite matchLen_fileExtension, Hext.
    change ("" +:+ dropBytes (S (String.length ext)) (String "." ext))
      with (dropBytes (String.length ext) ext).
    apply dropBytes_all.
  - cbn [dotsBeforeSlash] in Hstem. apply andb_true_iff in Hstem as [Ha Hstem].
    change (String a stem +:+ "." +:+ ext)
      with (String a (stem +:+ "." +:+ ext)).
    cbn [replace].
    assert (matchLen fileExtension (String a (stem +:+ "." +:+ ext)) = None)
      as ->.
    { destruct (N.eqb (code a) 46) eqn:E.
      - apply code_dot in E. subst a. rewrite matchLen_fileExtension.
        rewrite allBytes_app. apply negb_true_iff in Ha. now rewrite Ha.
      - now apply matchLen_fileExtension_other. }
    f_equal. now apply IH.
Qed.

(** A path without a dot after its last slash has no extension. *)
Lemma replace_fileExtension_none (path : string) :
  dotsBeforeSlash path = true -> replace fileExtension "" path = path.
Proof.
  induction path as [|a path IH]; intros H.
  - cbn [replace]. now rewrite matchLen_no_first.
  - cbn [dotsBeforeSlash] in H. apply andb_true_iff in H as [Ha H].
    cbn [replace].
    assert (matchLen fileExtension (String a path) = None) as ->.
    { destruct (N.eqb (code a) 46) eqn:E.
      - apply code_dot in E. subst a. rewrite matchLen_fileExtension.
        apply negb_true_iff in Ha. now rewrite Ha.
      - now apply matchLen_fileExtension_other. }
    f_equal. now apply IH.
Qed.

Lemma digitOrDot_not_space (a : ascii) :
  digitOrDot a = true -> first WhiteSpace a = false.
Proof. by_bytes a. Qed.

Lemma run_versionByte {A} (a : ascii) (s : string) (k : string -> option A) :
  digitOrDot a = true ->
  run versionByte (String a s) k = k s.
Proof.
  intros Ha. unfold versionByte.
  change (run (Alt (Chr digitOrDot) WhiteSpace) (String a s) k)
    with (match run (Chr digitOrDot) (String a s) k with
          | Some x => Some x
          | None => run WhiteSpace (String a s) k
          end).
  rewrite run_Chr, Ha.
  destruct (k s) eqn:E; [reflexivity|].
  rewrite run_no_first by (cbn [startsIn]; now apply digitOrDot_not_space).
  reflexivity.
Qed.

(** Digits and dots up to the end of the input. *)
Lemma run_version_to_end {A} (s : string) (k : string -> option A) :
  allBytes digitOrDot s = true ->
  run (Star versionByte) s (fun rest => run AtEnd rest k) = k "".
Proof.
  induction s as [|a s IH]; intros Hs; rewrite run_Star.
  - unfold versionByte.
    rewrite run_no_first by reflexivity. reflexivity.
  - cbn [allBytes] in Hs. apply andb_true_iff in Hs as [Ha Hs].
    rewrite run_versionByte by auto.
    rewrite length_lt_cons, IH by auto.
    now destruct (k "").
Qed.

Lemma isVersion_digits (a : ascii) (ds : string) :
  N.eqb (code a) 118 = false ->
  isVersion (String a ds) = true ->
  digitOrDot a = true /\ allBytes digitOrDot ds = true.
Proof.
  intros Hv. cbn [isVersion]. rewrite Hv. cbn [allBytes].
  now rewrite andb_true_iff.
Qed.

Lemma code_v (a : ascii) : N.eqb (code a) 118 = true -> a = "v"%char.
Proof.
  intros H. apply N.eqb_eq in H. unfold code in H.
  apply (f_equal ascii_of_N) in H. now rewrite ascii_N_embedding in H.
Qed.

Lemma matchLen_versionNumber (v : string) :
  isVersion v = true ->
  matchLen versionNumber (String "@" v) = Some (S (String.length v)).
Proof.
  intros Hv. unfold matchLen, versionNumber, Opt, Plus.
  change (match
            run (B 118) v (fun rest =>
              run versionByte rest (fun rest0 =>
                run (Star versionByte) rest0 (fun rest1 =>
                  run AtEnd rest1 (fun rest2 =>
                    Some (String.length (String "@" v)
                          - String.length rest2)%nat))))
          with
          | Some x => Some x
          | None =>
              run versionByte v (fun rest0 =>
                run (Star versionByte) rest0 (fun rest1 =>
                  run AtEnd rest1 (fun rest2 =>
                    Some (String.length (String "@" v)
                          - String.length rest2)%nat)))
          end = Some (S (String.length v))).
  destruct v as [|a ds]; [discriminate|].
  unfold B at 1. rewrite run_Chr.
  destruct (N.eqb (code a) 118) eqn:E.
  - cbn [isVersion] in Hv. rewrite E in Hv.
    apply andb_true_iff in Hv as [Hne Hds].
    destruct ds as [|d ds]; [discriminate|].
    cbn [allBytes] in Hds. apply andb_true_iff in Hds as [Hd Hds].
    rewrite run_versionByte by auto.
    now rewrite run_version_to_end by auto.
  - apply isVersion_digits in Hv as [Ha Hds]; auto.
    rewrite run_versionByte by auto.
    now rewrite run_version_to_end by auto.
Qed.

Lemma versionNumber_first (a : ascii) :
  first versionNumber a = N.eqb (code a) 64.
Proof. unfold versionNumber. cbn. now rewrite orb_false_r. Qed.

(** The version is cut off. *)
Lemma replace_versionNumber (name v : string) :
  allBytes notAt name = true ->
  isVersion v = true ->
  replace versionNumber "" (name +:+ "@" +:+ v) = name.
Proof.
  intros Hname Hv. induction name as [|a name IH].
  - change ("" +:+ "@" +:+ v) with (String "@" v).
    cbn [replace]. rewrite matchLen_versionNumber by auto.
    change ("" +:+ dropBytes (S (String.length v)) (String "@" v))
      with (dropBytes (String.length v) v).
    apply dropBytes_all.
  - cbn [allBytes] in Hname. apply andb_true_iff in Hname as [Ha Hname].
    change (String a name +:+ "@" +:+ v)
      with (String a (name +:+ "@" +:+ v)).
    cbn [replace]. rewrite matchLen_no_first.
    + f_equal. now apply IH.
    + reflexivity.
    + cbn [startsIn]. rewrite versionNumber_first.
      now apply negb_true_iff in Ha.
Qed.

Lemma run_gapByte {A} (a : ascii) (s : string) (k : string -> option A) :
  isAscii a = true ->
  run gapByte (String a s) k = if isGap a then k s else None.
Proof.
  destruct a as [[] [] [] [] [] [] [] []]; try discriminate; intros _;
    cbn; try reflexivity; now destruct (k s).
Qed.

Lemma length_dropBytes (n : nat) : forall s,
  (String.length (dropBytes n s) = String.length s - n)%nat.
Proof.
  induction n as [|n IH]; intros [|a s]; cbn [dropBytes String.length];
    try rewrite IH; lia.
Qed.

Lemma gapLength_le (s : string) : (gapLength s <= String.length s)%nat.
Proof.
  induction s as [|a s IH]; cbn [gapLength String.length]; [lia|].
  destruct (isGap a); lia.
Qed.

(** The greedy star takes the whole run of gap bytes when what follows
    succeeds on it. *)
Lemma run_gaps {A} (s : string) (k : string -> option A) :
  allBytes isAscii s = true ->
  (forall x, k x <> None) ->
  run (Star gapByte) s k = k (dropBytes (gapLength s) s).
Proof.
  intros Hs Hk. induction s as [|a s IH]; rewrite run_Star.
  - unfold gapByte. now rewrite run_no_first by reflexivity.
  - cbn [allBytes] in Hs. apply andb_true_iff in Hs as [Ha Hs].
    rewrite run_gapByte by auto. cbn [gapLength].
    destruct (isGap a); [|reflexivity].
    rewrite length_lt_cons, IH by auto. cbn [dropBytes].
    destruct (k (dropBytes (gapLength s) s)) eqn:E; [reflexivity|].
    now apply Hk in E.
Qed.

Lemma matchLen_gaps (s : string) :
  allBytes isAscii s = true ->
  matchLen spacesAndUnderbars s
  = match gapLength s with
    | O => None
    | S n => Some (S n)
    end.
Proof.
  intros Hs. unfold matchLen, spacesAndUnderbars, Plus.
  change (run (Seq (Alt WhiteSpace (B 95)) (Star (Alt WhiteSpace (B 95)))) s
            (fun rest => Some (String.length s - String.length rest)%nat))
    with (run gapByte s (fun rest =>
            run (Star gapByte) rest (fun rest0 =>
              Some (String.length s - String.length rest0)%nat))).
  destruct s as [|a s].
  - unfold gapByte. now rewrite run_no_first by reflexivity.
  - cbn [allBytes] in Hs. apply andb_true_iff in Hs as [Ha Hs].
    rewrite run_gapByte by auto. cbn [gapLength].
    destruct (isGap a); [|reflexivity].
    rewrite run_gaps by (auto; discriminate).
    rewrite length_dropBytes. cbn [String.length].
    pose proof (gapLength_le s). f_equal. lia.
Qed.

(** The replacement does what [collapseGaps] says. *)
Lemma replaceAll_gaps (s : string) :
  allBytes isAscii s = true ->
  replaceAll spacesAndUnderbars " " s = collapseGaps false s
  /\ replaceAll_from spacesAndUnderbars " " (gapLength s) s
     = collapseGaps true s.
Proof.
  unfold replaceAll. induction s as [|a s IH]; intros Hs.
  - split; reflexivity.
  - pose proof (matchLen_gaps _ Hs) as Hm.
    cbn [allBytes] in Hs. apply andb_true_iff in Hs as [Ha Hs].
    destruct (IH Hs) as [IH0 IHn].
    cbn [gapLength] in *. cbn [collapseGaps replaceAll_from].
    destruct (isGap a).
    + rewrite Hm, IHn. split; reflexivity.
    + rewrite Hm, IH0. split; reflexivity.
Qed.

(** ** Ordered records *)

Lemma get_assign_eq (q : Params) (k v : string) :
  get (assign q k v) k = Some v.
Proof.
  induction q as [|[k' v'] q IH]; simpl.
  - now rewrite String.eqb_refl.
  - destruct (String.eqb k' k) eqn:E; simpl; rewrite E; auto.
Qed.

Lemma get_assign_ne (q : Params) (k k' v : string) :
  k <> k' -> get (assign q k v) k' = get q k'.
Proof.
  intros Hne. induction q as [|[k0 v0] q IH]; simpl.
  - destruct (String.eqb k k') eqn:E; auto.
    apply String.eqb_eq in E. contradiction.
  - destruct (String.eqb k0 k) eqn:E; simpl.
    + apply String.eqb_eq in E. subst k0.
      destruct (String.eqb k k') eqn:E'; auto.
      apply String.eqb_eq in E'. contradiction.
    + now rewrite IH.
Qed.

Lemma keys_assign (q : Params) (k v : string) :
  keys (assign q k v) = addKey (keys q) k.
Proof.
  unfold addKey, keys. induction q as [|[k' v'] q IH]; simpl.
  - destruct (decide (k ∈ [])) as [H|H]; [inversion H | reflexivity].
  - destruct (String.eqb k' k) eqn:E; simpl.
    + apply String.eqb_eq in E. subst k'.
      destruct (decide (k ∈ k :: map fst q)) as [H|H]; auto.
      exfalso. apply H. left.
    + assert (k' <> k) as Hne.
      { intros ->. now rewrite String.eqb_refl in E. }
      rewrite IH.
      destruct (decide (k ∈ map fst q)) as [H|H];
        destruct (decide (k ∈ k' :: map fst q)) as [H'|H']; auto.
      * exfalso. apply H'. now right.
      * exfalso. apply elem_of_cons in H' as [->|H']; auto.
Qed.

Lemma maybeAddShortParam_spec (q : Params) (name : string)
    (value : Primitive) :
  maybeAddShortParam q name value =
    if present value then assign q name (shortValue value) else q.
Proof. destruct value as [| |[|]| | |]; reflexivity. Qed.

Lemma maybeAddCustomEventParam_spec (snakeCase : string -> string)
    (q : Params) (prefix name : string) (value : Primitive) :
  maybeAddCustomEventParam snakeCase q prefix name value =
    if defined value
    then assign q (customKey snakeCase prefix name value) (String_ value)
    else q.
Proof. destruct value; reflexivity. Qed.

(** ** Keys of the query parameters *)

Lemma keys_addShortParams fields : forall q,
  keys (addShortParams q fields) = fold_left addKey (shortKeys fields) (keys q).
Proof.
  induction fields as [|[n v] fields IH]; intros q; simpl; auto.
  unfold addShortParams in *. simpl. rewrite IH.
  rewrite maybeAddShortParam_spec.
  destruct (present v); simpl; auto. now rewrite keys_assign.
Qed.

Lemma keys_addCustomParams sc prefix entries : forall q,
  keys (addCustomParams sc prefix q entries)
  = fold_left addKey (customKeys sc prefix entries) (keys q).
Proof.
  induction entries as [|[n v] entries IH]; intros q; simpl; auto.
  unfold addCustomParams in *. simpl. rewrite IH.
  rewrite maybeAddCustomEventParam_spec.
  destruct (defined v); simpl; auto. now rewrite keys_assign.
Qed.

Lemma firstOccurrences_filter (P : string -> Prop) `{!forall k, Decision (P k)}
    (l : list string) :
  firstOccurrences (filter P l) = filter P (firstOccurrences l).
Proof.
  induction l as [|x l IH]; simpl; auto.
  rewrite filter_cons. destruct (decide (P x)) as [Hx|Hx]; simpl.
  - rewrite filter_cons_True by auto. f_equal.
    rewrite IH, !list_filter_filter. apply list_filter_iff. tauto.
  - rewrite filter_cons_False by auto.
    rewrite IH, list_filter_filter. apply list_filter_iff.
    intros y. split; [|tauto]. intros Hy. split; auto. now intros ->.
Qed.

Lemma fold_addKey (l : list string) : forall acc,
  fold_left addKey l acc
  = (acc ++ firstOccurrences (filter (fun k => k ∉ acc) l))%list.
Proof.
  induction l as [|x l IH]; intros acc; simpl.
  - now rewrite app_nil_r.
  - rewrite IH. unfold addKey. rewrite filter_cons.
    destruct (decide (x ∈ acc)) as [Hx|Hx].
    + destruct (decide (x ∉ acc)) as [Hx'|_]; [contradiction|]. reflexivity.
    + destruct (decide (x ∉ acc)) as [_|Hx']; [|contradiction].
      simpl. rewrite <- app_assoc. simpl. do 2 f_equal.
      rewrite <- firstOccurrences_filter, list_filter_filter.
      f_equal. apply list_filter_iff. intros y.
      rewrite not_elem_of_app, list_elem_of_singleton. tauto.
Qed.

Lemma filter_all (P : string -> Prop) `{!forall k, Decision (P k)}
    (l : list string) :
  (forall k, k ∈ l -> P k) -> filter P l = l.
Proof.
  induction l as [|x l IH]; intros Hall; auto.
  rewrite filter_cons_True by (apply Hall; left).
  f_equal. apply IH. intros k Hk. apply Hall. now right.
Qed.

Lemma firstOccurrences_sub (l : list string) (k : string) :
  k ∈ firstOccurrences l -> k ∈ l.
Proof.
  induction l as [|x l IH]; simpl; auto.
  rewrite !elem_of_cons, list_elem_of_filter. intuition.
Qed.

Lemma firstOccurrences_NoDup (l : list string) :
  NoDup l -> firstOccurrences l = l.
Proof.
  induction 1 as [|x l Hx Hl IH]; simpl; auto.
  rewrite IH. f_equal. apply filter_all. intros k Hk ->. contradiction.
Qed.

(** Keys joined to keys they are disjoint from. *)
Lemma fold_addKey_disjoint (l acc : list string) :
  (forall k, k ∈ l -> k ∉ acc) ->
  fold_left addKey l acc = (acc ++ firstOccurrences l)%list.
Proof.
  intros H. rewrite fold_addKey. now rewrite filter_all.
Qed.

Lemma shortKeys_sub fields k : k ∈ shortKeys fields -> k ∈ map fst fields.
Proof.
  induction fields as [|[n v] fields IH]; simpl; auto.
  destruct (present v); rewrite ?elem_of_cons; intuition.
Qed.

Lemma shortKeys_NoDup fields :
  NoDup (map fst fields) -> NoDup (shortKeys fields).
Proof.
  induction fields as [|[n v] fields IH]; simpl; intros H; auto.
  apply NoDup_cons in H as [Hn H].
  destruct (present v); auto.
  apply NoDup_cons. split; auto. intros Hin. apply Hn.
  now apply shortKeys_sub.
Qed.

Lemma prefix_append (p s : string) : String.prefix p (p +:+ s) = true.
Proof.
  induction p as [|a p IH]; [now destruct s|].
  simpl. destruct (ascii_dec a a); [exact IH | contradiction].
Qed.

Lemma customKeys_prefix sc prefix entries k :
  k ∈ customKeys sc prefix entries -> String.prefix prefix k = true.
Proof.
  induction entries as [|[n v] entries IH]; simpl.
  - intros H. inversion H.
  - destruct (defined v); auto. rewrite elem_of_cons. intros [->|H]; auto.
    apply prefix_append.
Qed.

Lemma queryParams_unfold sc r sess :
  queryParams sc r sess =
    addCustomParams sc "up"
      match event r with
      | Some ev =>
          addShortParams
            (addCustomParams sc "ep" (addShortParams [] (commonFields r sess))
               (eventCustomParams ev))
            (eventFields r sess ev)
      | None => addShortParams [] (commonFields r sess)
      end
      (user_properties (user r)).
Proof. unfold queryParams. destruct (event r); reflexivity. Qed.

Lemma commonFields_names r sess : map fst (commonFields r sess) = commonNames.
Proof. reflexivity. Qed.

Lemma eventFields_names r sess ev :
  map fst (eventFields r sess ev) = eventNames.
Proof. reflexivity. Qed.

Lemma names_NoDup : NoDup (commonNames ++ eventNames).
Proof. apply (bool_decide_unpack _). vm_compute. exact I. Qed.

Lemma names_no_prefix k :
  k ∈ (commonNames ++ eventNames)%list ->
  String.prefix "ep" k = false /\ String.prefix "up" k = false.
Proof.
  intros H. 
  assert (Forall (fun k => String.prefix "ep" k = false
                           /\ String.prefix "up" k = false)
                 (commonNames ++ eventNames)) as HF.
  { repeat constructor. }
  rewrite Forall_forall in HF. auto.
Qed.

Lemma prefix_ep_up k :
  String.prefix "ep" k = true -> String.prefix "up" k = true -> False.
Proof.
  intros Hep Hup. apply String.prefix_correct in Hep, Hup.
  simpl String.length in *. congruence.
Qed.

Lemma commonKeys_names r sess k :
  k ∈ shortKeys (commonFields r sess) -> k ∈ commonNames.
Proof. intros H. apply shortKeys_sub in H. exact H. Qed.

Lemma eventKeys_names r sess ev k :
  k ∈ shortKeys (eventFields r sess ev) -> k ∈ eventNames.
Proof. intros H. apply shortKeys_sub in H. exact H. Qed.

Lemma queryParams_keys sc r sess :
  keys (queryParams sc r sess) = expectedKeys sc r sess.
Proof.
  pose proof names_NoDup as Hnd.
  apply NoDup_app in Hnd as (Hc & Hce & He).
  assert (forall k, k ∈ commonNames -> String.prefix "ep" k = false
                                       /\ String.prefix "up" k = false) as Hcp.
  { intros k Hk. apply names_no_prefix, elem_of_app. now left. }
  assert (forall k, k ∈ eventNames -> String.prefix "ep" k = false
                                      /\ String.prefix "up" k = false) as Hep.
  { intros k Hk. apply names_no_prefix, elem_of_app. now right. }
  assert (fold_left addKey (shortKeys (commonFields r sess)) []
          = shortKeys (commonFields r sess)) as Hcommon.
  { rewrite fold_addKey_disjoint by (intros k _ H; inversion H).
    apply firstOccurrences_NoDup, shortKeys_NoDup. exact Hc. }
  rewrite queryParams_unfold, keys_addCustomParams. unfold expectedKeys.
  destruct (event r) as [ev|].
  - rewrite keys_addShortParams, keys_addCustomParams, keys_addShortParams.
    change (keys []) with (@nil string). rewrite Hcommon.
    rewrite (fold_addKey_disjoint (customKeys sc "ep" _)).
    2:{ intros k Hk Hin. apply customKeys_prefix in Hk.
        apply commonKeys_names, Hcp in Hin as [Hin _]. congruence. }
    rewrite (fold_addKey_disjoint (shortKeys (eventFields r sess ev))).
    2:{ intros k Hk Hin. apply eventKeys_names in Hk.
        apply elem_of_app in Hin as [Hin|Hin].
        - apply commonKeys_names in Hin. now apply (Hce k).
        - apply firstOccurrences_sub, customKeys_prefix in Hin.
          apply Hep in Hk as [Hk _]. congruence. }
    rewrite (firstOccurrences_NoDup (shortKeys (eventFields r sess ev))).
    2:{ apply shortKeys_NoDup. exact He. }
    rewrite fold_addKey_disjoint.
    2:{ intros k Hk Hin. apply customKeys_prefix in Hk.
        rewrite !elem_of_app in Hin. destruct Hin as [[Hin|Hin]|Hin].
        - apply commonKeys_names, Hcp in Hin as [_ Hin]. congruence.
        - apply firstOccurrences_sub, customKeys_prefix in Hin.
          now apply (prefix_ep_up k).
        - apply eventKeys_names, Hep in Hin as [_ Hin]. congruence. }
    now rewrite <- !app_assoc.
  - rewrite keys_addShortParams. change (keys []) with (@nil string).
    rewrite Hcommon. rewrite fold_addKey_disjoint; auto.
    intros k Hk Hin. apply customKeys_prefix in Hk.
    apply commonKeys_names, Hcp in Hin as [_ Hin]. congruence.
Qed.

Lemma firstOccurrences_sup (l : list string) (k : string) :
  k ∈ l -> k ∈ firstOccurrences l.
Proof.
  induction l as [|x l IH]; cbn [firstOccurrences]; [auto|].
  rewrite !elem_of_cons, list_elem_of_filter.
  destruct (decide (k = x)); intuition.
Qed.

Lemma customKeys_elem sc prefix entries name value :
  (name, value) ∈ entries -> defined value = true ->
  customKey sc prefix name value ∈ customKeys sc prefix entries.
Proof.
  intros Hin Hd. induction entries as [|[n v] entries IH].
  - inversion Hin.
  - cbn [customKeys]. apply elem_of_cons in Hin as [Heq|Hin].
    + injection Heq as <- <-. rewrite Hd. left.
    + destruct (defined v); [right|]; auto.
Qed.

Lemma queryParams_custom_keys sc r sess name value :
  defined value = true ->
  ((name, value) ∈ user_properties (user r) ->
   customKey sc "up" name value ∈ keys (queryParams sc r sess))
  /\ (forall ev, event r = Some ev -> (name, value) ∈ event_params ev ->
      customKey sc "ep" name value ∈ keys (queryParams sc r sess)).
Proof.
  intros Hd. rewrite queryParams_keys. unfold expectedKeys. split.
  - intros Hin. rewrite !elem_of_app. right. right.
    now apply firstOccurrences_sup, customKeys_elem.
  - intros ev Hev Hin. rewrite Hev, !elem_of_app. right. left. left.
    apply firstOccurrences_sup, customKeys_elem; auto.
    unfold eventCustomParams. now do 2 right.
Qed.

(** ** Events *)

Lemma event_primaryEvent r : event r = primaryEvent r.
Proof. unfold event, primaryEvent. now destruct (events r) as [|[ev|] es]. Qed.

Lemma truthyCount_countTruthy r : truthyCount r = countTruthy (events r).
Proof.
  unfold truthyCount. induction (events r) as [|[ev|] es IH].
  - reflexivity.
  - rewrite filter_cons_True by reflexivity. cbn [length countTruthy]. lia.
  - rewrite filter_cons_False by discriminate. exact IH.
Qed.

(** ** The cases of [send] *)

Lemma event_frame r r' : events r' = events r -> event r' = event r.
Proof. unfold event. now intros ->. Qed.

Lemma recordHit_frame r r' :
  events r' = events r -> recordHit r' = recordHit r.
Proof.
  intros H. unfold recordHit, truthyCount. rewrite (event_frame r r' H).
  now rewrite H.
Qed.

Lemma upload_heap env r w request :
  heap (upload env r w request) = heapAfter env r w request.
Proof.
  unfold upload, heapAfter.
  destruct (fetch env request) as [response duration|err]; [|reflexivity].
  destruct (negb (status response =? 204)
            || (SLOW_UPLOAD_THRESHOLD <=? duration));
    destruct (session r) as [ref|]; try reflexivity;
    destruct (ok response); reflexivity.
Qed.

Lemma upload_network env r w request :
  network (upload env r w request) = (network w ++ [request])%list.
Proof.
  unfold upload.
  destruct (fetch env request) as [response duration|err]; [|reflexivity].
  destruct (negb (status response =? 204)
            || (SLOW_UPLOAD_THRESHOLD <=? duration));
    destruct (session r) as [ref|]; try reflexivity;
    destruct (ok response); reflexivity.
Qed.

Lemma upload_sessionMap env r w request :
  sessionMap (upload env r w request) = sessionMap w.
Proof.
  unfold upload.
  destruct (fetch env request) as [response duration|err]; [|reflexivity].
  destruct (negb (status response =? 204)
            || (SLOW_UPLOAD_THRESHOLD <=? duration));
    destruct (session r) as [ref|]; try reflexivity;
    destruct (ok response); reflexivity.
Qed.

Section SendFacts.

Variable sc : string -> string.
Variable SHA1 : string -> list ascii.

Lemma set_measurementId_same r : set_measurementId r (measurementId r) = r.
Proof. now destruct r. Qed.

Lemma send_cases env r w : SendCase sc SHA1 env r w (send sc SHA1 env r w).
Proof.
  unfold send.
  destruct (existsb truthy (events r)) eqn:Hev; simpl;
    [|now constructor].
  assert (match measurementId r with
          | Some _ => r
          | None => set_measurementId r (GA4_MEASUREMENT_ID env)
          end = set_measurementId r (resolvedMeasurementId env r)) as ->.
  { unfold resolvedMeasurementId.
    destruct r as [[m|] ? ? ? ? ? ?]; reflexivity. }
  change (measurementId (set_measurementId r (resolvedMeasurementId env r)))
    with (resolvedMeasurementId env r).
  destruct (resolvedMeasurementId env r) as [m|] eqn:Hm.
  2:{ pose proof (NoMeasurementId sc SHA1 env r w Hev (or_introl Hm)) as C.
      rewrite Hm in C. exact C. }
  destruct (nonEmpty m) eqn:Hne; simpl.
  2:{ apply nonEmpty_false in Hne. subst m.
      pose proof (NoMeasurementId sc SHA1 env r w Hev (or_intror Hm)) as C.
      rewrite Hm in C. exact C. }
  apply nonEmpty_true in Hne.
  change (client (set_measurementId r (Some m))) with (client r).
  destruct (client_id (client r)) as [id|] eqn:Hid.
  - apply (Transmits sc SHA1 env r w m); auto. unfold withClientId.
    now rewrite Hid.
  - destruct (client_ip (client r)) as [ip|] eqn:Hip.
    + apply (Transmits sc SHA1 env r w m); auto. unfold withClientId.
      now rewrite Hid, Hip.
    + apply (NoClient sc SHA1 env r w m); auto. unfold withClientId.
      now rewrite Hid, Hip.
Qed.

(** [transmit] throws before the request, or hands one request to [fetch]. *)
Lemma transmit_cases env r w :
  (exists err, eventParamsList sc (slice1 (events r)) = Throw err
               /\ transmit sc env r w = (r, w, Some err))
  \/ (exists ps, eventParamsList sc (slice1 (events r)) = Ok ps
                 /\ transmit sc env r w
                    = (r, upload env r w (requestOf sc r w ps), None)).
Proof.
  unfold transmit.
  destruct (eventParamsList sc (slice1 (events r))) as [ps|err]; eauto.
Qed.

Lemma withClientId_frame r m r' :
  withClientId SHA1 r m = Some r' ->
  session r' = session r /\ events r' = events r /\ user r' = user r
  /\ page r' = page r /\ campaign r' = campaign r
  /\ measurementId r' = Some m
  /\ client_ip (client r') = client_ip (client r)
  /\ client_language (client r') = client_language (client r)
  /\ client_headers (client r') = client_headers (client r).
Proof.
  unfold withClientId. intros H.
  destruct (client_id (client r)); [|destruct (client_ip (client r)) eqn:E];
    try discriminate; injection H as <-; repeat split; simpl; congruence.
Qed.

(** What a call of [send] does to the requests and to the heap: nothing, or
    one request is sent for the resolved report and the heap is the one
    [upload] leaves. *)
Lemma send_effect env r w :
  (network (send sc SHA1 env r w).1.2 = network w
   /\ heap (send sc SHA1 env r w).1.2 = heap w)
  \/ (exists m r' ps,
        existsb truthy (events r) = true
        /\ resolvedMeasurementId env r = Some m /\ m <> ""
        /\ withClientId SHA1 r m = Some r'
        /\ (send sc SHA1 env r w).1.1 = r'
        /\ network (send sc SHA1 env r w).1.2
           = (network w ++ [requestOf sc r' w ps])%list
        /\ heap (send sc SHA1 env r w).1.2
           = heapAfter env r w (requestOf sc r' w ps)).
Proof.
  destruct (send_cases env r w)
    as [Hev|Hev Hm|m Hev Hm Hne Hc|m r' Hev Hm Hne Hc];
    try (left; split; reflexivity).
  destruct (transmit_cases env r' w) as [(err & _ & ->)|(ps & _ & ->)].
  - left; split; reflexivity.
  - right. exists m, r', ps. repeat split; auto; simpl.
    + apply upload_network.
    + rewrite upload_heap. unfold heapAfter.
      apply withClientId_frame in Hc as (Hs & He & _).
      rewrite Hs.
      destruct (fetch env _); auto. destruct (session r); auto.
      now rewrite (recordHit_frame r r' He).
Qed.

End SendFacts.

Lemma send_report sc SHA1 env r w m r' :
  existsb truthy (events r) = true ->
  resolvedMeasurementId env r = Some m -> m <> "" ->
  withClientId SHA1 r m = Some r' ->
  (send sc SHA1 env r w).1.1 = r'.
Proof.
  intros Hev Hm Hne Hc.
  destruct (send_cases sc SHA1 env r w)
    as [Hev'|Hev' Hm'|m' Hev' Hm' Hne' Hc'|m' r'' Hev' Hm' Hne' Hc'];
    try congruence.
  - destruct Hm'; congruence.
  - assert (m' = m) as -> by congruence.
    assert (r'' = r') as -> by congruence.
    destruct (transmit_cases sc env r' w) as [(e & _ & ->)|(ps & _ & ->)];
      reflexivity.
Qed.

(** ** Sessions over time *)

Lemma sessionLater_refl s : sessionLater s s.
Proof. unfold sessionLater. intuition lia. Qed.

Lemma sessionLater_trans s1 s2 s3 :
  sessionLater s1 s2 -> sessionLater s2 s3 -> sessionLater s1 s3.
Proof.
  unfold sessionLater. intros (a1 & b1 & c1 & d1 & e1) (a2 & b2 & c2 & d2 & e2).
  repeat split; try congruence; try lia.
  destruct d1 as [d1|d1], d2 as [d2|d2]; auto; left + right; congruence.
Qed.

Lemma truthyCount_nonneg r : 0 <= truthyCount r.
Proof. unfold truthyCount. lia. Qed.

Lemma truthyCount_positive r :
  existsb truthy (events r) = true -> 1 <= truthyCount r.
Proof.
  unfold truthyCount. induction (events r) as [|e l IH]; [discriminate|].
  destruct e as [ev|].
  - intros _. rewrite filter_cons_True by reflexivity.
    rewrite length_cons. lia.
  - intros H. rewrite filter_cons_False by discriminate. apply IH, H.
Qed.

Lemma app_singleton_neq {A} (l : list A) (x : A) : l <> (l ++ [x])%list.
Proof.
  intros H. apply (f_equal length) in H. rewrite length_app in H.
  simpl in H. lia.
Qed.

Lemma recordHit_later r s : sessionLater s (recordHit r s).
Proof.
  pose proof (truthyCount_nonneg r).
  unfold sessionLater, recordHit; simpl. repeat split.
  - destruct (event r); auto.
  - destruct (truthyCount r =? 0); lia.
Qed.

Lemma heapAfter_later env r w request ref s :
  heap w !! ref = Some s ->
  exists s', heapAfter env r w request !! ref = Some s' /\ sessionLater s s'.
Proof.
  intros Hs. unfold heapAfter.
  destruct (fetch env request) as [response d|err];
    [|eauto using sessionLater_refl].
  destruct (session r) as [ref'|]; [|eauto using sessionLater_refl].
  destruct (ok response); [|eauto using sessionLater_refl].
  destruct (decide (ref' = ref)) as [->|Hne].
  - exists (recordHit r s). split; [|apply recordHit_later].
    now rewrite list_lookup_alter_eq, Hs.
  - exists s. split; [|apply sessionLater_refl].
    now rewrite list_lookup_alter_ne.
Qed.

Lemma heapAfter_length env r w request :
  length (heapAfter env r w request) = length (heap w).
Proof.
  unfold heapAfter. destruct (fetch env request); auto.
  destruct (session r); auto. destruct (ok _); auto. apply length_alter.
Qed.

Section CallFacts.

Variable snakeCase : string -> string.
Variable SHA1 : string -> list ascii.
Variable URL_parse : string -> option URL.
Variable STATUS_TEXT : Z -> option string.

Lemma send_later env r w ref s :
  heap w !! ref = Some s ->
  exists s', heap (send snakeCase SHA1 env r w).1.2 !! ref = Some s'
             /\ sessionLater s s'.
Proof.
  intros Hs.
  destruct (send_effect snakeCase SHA1 env r w)
    as [[_ ->]|(m & r' & ps & _ & _ & _ & _ & _ & _ & ->)].
  - eauto using sessionLater_refl.
  - now apply heapAfter_later.
Qed.

Lemma getSession_heap conn platform w :
  heap (getSession conn platform w).1 = heap w
  \/ exists s, heap (getSession conn platform w).1 = (heap w ++ [s])%list.
Proof.
  unfold getSession.
  destruct (sessionMap w !! conn_identity conn); simpl; eauto.
Qed.

Lemma GA4Report_new_world init platform w :
  (GA4Report_new URL_parse STATUS_TEXT init platform w).1
  = (getSession (init_conn init) platform w).1.
Proof.
  unfold GA4Report_new.
  destruct (getSession (init_conn init) platform w) as [w' ref].
  destruct (getPageTitle _ _ _ _); auto.
  destruct (getPageReferrer _ _); auto.
Qed.

Lemma call_later w c ref s :
  heap w !! ref = Some s ->
  exists s',
    heap (call snakeCase SHA1 URL_parse STATUS_TEXT w c) !! ref = Some s'
    /\ sessionLater s s'.
Proof.
  intros Hs. destruct c as [init platform|env r]; simpl.
  - rewrite GA4Report_new_world.
    destruct (getSession_heap (init_conn init) platform w) as [->|[s0 ->]].
    + eauto using sessionLater_refl.
    + exists s. split; [|apply sessionLater_refl].
      rewrite lookup_app_l; auto. now apply lookup_lt_Some in Hs.
  - now apply send_later.
Qed.

Lemma runCalls_later calls : forall w ref s,
  heap w !! ref = Some s ->
  exists s',
    heap (runCalls snakeCase SHA1 URL_parse STATUS_TEXT calls w) !! ref
    = Some s'
    /\ sessionLater s s'.
Proof.
  induction calls as [|c calls IH]; intros w ref s Hs; simpl.
  - eauto using sessionLater_refl.
  - destruct (call_later w c ref s Hs) as (s1 & H1 & L1).
    destruct (IH _ ref s1 H1) as (s2 & H2 & L2).
    eauto using sessionLater_trans.
Qed.

End CallFacts.

(** ** Digests *)

Lemma join_empty_cons (p : string) (l : list string) :
  join "" (p :: l) = p +:+ join "" l.
Proof. destruct l; simpl; auto. now rewrite append_empty_r. Qed.

Lemma byte_two_digits (b : ascii) :
  padStart0 2 (toString16 b)
  = String (lowerHexDigit (code b / 16))
      (String (lowerHexDigit (code b mod 16)) EmptyString).
Proof. destruct b as [[] [] [] [] [] [] [] []]; reflexivity. Qed.

Lemma toDigest_lowerHex (SHA1 : string -> list ascii) (msg : string) :
  toDigest SHA1 msg = lowerHex (SHA1 msg).
Proof.
  unfold toDigest. induction (SHA1 msg) as [|b bytes IH]; auto.
  rewrite map_cons, join_empty_cons, IH, byte_two_digits. reflexivity.
Qed.

Lemma material_commaJoined (c : Client) (ip : string) :
  material c ip
  = commaJoined ip (Headers_get (client_headers c) "user-agent")
      (Headers_get (client_headers c) "sec-ch-ua").
Proof.
  unfold material, joinNullable, commaJoined.
  destruct (Headers_get _ "user-agent"), (Headers_get _ "sec-ch-ua");
    reflexivity.
Qed.

(** ** The instances of the imported functions on known inputs *)

(** The SHA-1 test vectors of FIPS 180. *)
Example SHA1_empty :
  lowerHex (Imported.SHA1 "") = "da39a3ee5e6b4b0d3255bfef95601890afd80709".
Proof. vm_compute. reflexivity. Qed.

Example SHA1_abc :
  lowerHex (Imported.SHA1 "abc") = "a9993e364706816aba3e25717850c26c9cd0d89d".
Proof. vm_compute. reflexivity. Qed.

Example SHA1_two_blocks :
  lowerHex (Imported.SHA1
              "abcdbcdecdefdefgefghfghighijhijkijkljklmklmnlmnomnopnopq")
  = "84983e441c3bd26ebaae4aa1f95129e5e54670f1".
Proof. vm_compute. reflexivity. Qed.

Example snakeCase_examples :
  map Imported.snakeCase
    ["myMetric"; "myFlag"; "event_category"; "XMLHttpRequest"; " foo--bar9X "]
  = ["my_metric"; "my_flag"; "event_category"; "xml_http_request";
     "foo_bar9_x"].
Proof. vm_compute. reflexivity. Qed.

(** ** C1: parameter value coercion *)

(** C1, refuted as stated: the custom event parameter [myFlag] with the
    boolean [true] is emitted under [ep.my_flag] with the value ["true"],
    where the stated coercion gives ["1"]; and a custom parameter with the
    value [null] is emitted, with the value ["null"], where the stated
    coercion omits it. *)
Lemma custom_param_not_coerced_like_short :
  maybeAddCustomEventParam Imported.snakeCase [] "ep" "myFlag"
    (PBoolean true) = [("ep.my_flag", "true")]
  /\ spec_customParam Imported.snakeCase [] "ep" "myFlag" (PBoolean true)
     = [("ep.my_flag", "1")]
  /\ maybeAddCustomEventParam Imported.snakeCase [] "ep" "myFlag"
       (PBoolean true)
     <> spec_customParam Imported.snakeCase [] "ep" "myFlag" (PBoolean true)
  /\ maybeAddCustomEventParam Imported.snakeCase [] "up" "myFlag" PNull
     = [("up.my_flag", "null")]
  /\ spec_customParam Imported.snakeCase [] "up" "myFlag" PNull = []
  /\ maybeAddCustomEventParam Imported.snakeCase [] "up" "myFlag" PNull
     <> spec_customParam Imported.snakeCase [] "up" "myFlag" PNull.
Proof. repeat split; try reflexivity; discriminate. Qed.

(** C1, amended. A short parameter is omitted when its value is [null] or
    [undefined], carries ["1"] or ["0"] for a boolean and the string form of
    any other value. A custom parameter, of an event or of the user
    properties, is omitted only when its value is [undefined]; it carries
    the string form of every other value: ["null"] for [null], ["true"] or
    ["false"] for a boolean. Every other key of the record keeps its value.
    The custom event parameter [myFlag] with the boolean [true] is emitted as
    [ep.my_flag] with the value ["true"]. *)
Theorem parameter_value_coercion :
  (forall q name value,
     get (maybeAddShortParam q name value) name =
       match value with
       | PUndefined | PNull => get q name
       | PBoolean b => Some (if b then "1" else "0")
       | _ => Some (String_ value)
       end)
  /\ (forall q name value,
        present value = false -> maybeAddShortParam q name value = q)
  /\ (forall snakeCase q prefix name value,
        get (maybeAddCustomEventParam snakeCase q prefix name value)
            (customKey snakeCase prefix name value) =
          match value with
          | PUndefined => get q (customKey snakeCase prefix name value)
          | PNull => Some "null"
          | PBoolean b => Some (if b then "true" else "false")
          | _ => Some (String_ value)
          end)
  /\ (forall snakeCase q prefix name,
        maybeAddCustomEventParam snakeCase q prefix name PUndefined = q)
  /\ (forall snakeCase q prefix name value other,
        other <> name ->
        other <> customKey snakeCase prefix name value ->
        get (maybeAddShortParam q name value) other = get q other
        /\ get (maybeAddCustomEventParam snakeCase q prefix name value) other
           = get q other)
  /\ maybeAddCustomEventParam Imported.snakeCase [] "ep" "myFlag"
       (PBoolean true) = [("ep.my_flag", "true")].
Proof.
  split; [|split; [|split; [|split; [|split]]]]; try reflexivity.
  - intros q name value.
    destruct value as [| |[|]| | |]; simpl; auto using get_assign_eq.
  - intros q name value H. rewrite maybeAddShortParam_spec. now rewrite H.
  - intros snakeCase q prefix name value.
    destruct value as [| |[|]| | |]; simpl; auto;
      unfold customKey; simpl; apply get_assign_eq.
  - intros snakeCase q prefix name value other Hname Hkey. split.
    + rewrite maybeAddShortParam_spec.
      destruct (present value); auto using get_assign_ne.
    + rewrite maybeAddCustomEventParam_spec.
      destruct (defined value); auto using get_assign_ne.
Qed.

(** The amended coercion at concrete parameters. *)
Lemma parameter_value_coercion_witness :
  maybeAddShortParam [("v", "2")] "seg" PNull = [("v", "2")]
  /\ get (maybeAddShortParam [("v", "2")] "seg" (PBoolean true)) "v"
     = Some "2"
  /\ get (maybeAddCustomEventParam Imported.snakeCase [("v", "2")] "ep"
            "myFlag" PNull) "v" = Some "2".
Proof.
  destruct parameter_value_coercion as (_ & Hnull & _ & _ & Hother & _).
  split; [apply Hnull; reflexivity|].
  split.
  - apply (Hother Imported.snakeCase [("v", "2")] "ep" "seg"
             (PBoolean true) "v"); discriminate.
  - apply (Hother Imported.snakeCase [("v", "2")] "ep" "myFlag"
             PNull "v"); discriminate.
Defined.

(** ** C3: custom parameter naming *)

(** C3. A custom parameter that is emitted (its value is not [undefined])
    has its name converted to snake case and is stored under
    ["<prefix>n.<name>"] when the value is a number or a bigint and under
    ["<prefix>.<name>"] otherwise, with the string form of the value; in
    the query parameters the prefix is [ep] for the parameters of the
    primary event and [up] for the user properties, and the key of every
    such parameter is there; the event parameter [myMetric]
    with the number 42 is emitted as [epn.my_metric] with the value ["42"]. *)
Theorem custom_parameter_naming :
  (forall snakeCase q prefix name value,
     maybeAddCustomEventParam snakeCase q prefix name value =
       match value with
       | PUndefined => q
       | PNumber _ | PBigInt _ =>
           assign q (prefix +:+ "n." +:+ snakeCase name) (String_ value)
       | _ => assign q (prefix +:+ "." +:+ snakeCase name) (String_ value)
       end)
  /\ (forall snakeCase q prefix name value,
        defined value = true ->
        get (maybeAddCustomEventParam snakeCase q prefix name value)
            (prefix +:+ (if numeric value then "n." else ".")
                    +:+ snakeCase name)
        = Some (String_ value))
  /\ (forall snakeCase r sess name value,
        defined value = true ->
        ((name, value) ∈ user_properties (user r) ->
         ("up" +:+ (if numeric value then "n." else ".")
               +:+ snakeCase name)
         ∈ keys (queryParams snakeCase r sess))
        /\ (forall ev,
              event r = Some ev -> (name, value) ∈ event_params ev ->
              ("ep" +:+ (if numeric value then "n." else ".")
                    +:+ snakeCase name)
              ∈ keys (queryParams snakeCase r sess)))
  /\ maybeAddCustomEventParam Imported.snakeCase [] "ep" "myMetric"
       (PNumber 42) = [("epn.my_metric", "42")]
  /\ maybeAddCustomEventParam Imported.snakeCase [] "up" "myMetric"
       (PBigInt 42) = [("upn.my_metric", "42")]
  /\ maybeAddCustomEventParam Imported.snakeCase [] "up" "planName"
       (PString "pro") = [("up.plan_name", "pro")].
Proof.
  split; [|split; [|split]]; [| | |repeat split].
  - intros snakeCase q prefix name value. destruct value; reflexivity.
  - intros snakeCase q prefix name value H.
    rewrite maybeAddCustomEventParam_spec, H. apply get_assign_eq.
  - intros snakeCase r sess name value H.
    exact (queryParams_custom_keys snakeCase r sess name value H).
Qed.

Lemma custom_parameter_naming_witness :
  get (maybeAddCustomEventParam Imported.snakeCase [("v", "2")] "ep"
         "myMetric" (PNumber 42)) "epn.my_metric" = Some "42"
  /\ "epn.my_metric"
     ∈ keys (queryParams Imported.snakeCase exampleReport
               (Some exampleSession))
  /\ "up.plan_name"
     ∈ keys (queryParams Imported.snakeCase exampleReport
               (Some exampleSession)).
Proof.
  destruct custom_parameter_naming as (_ & H & Hkeys & _).
  split; [|split].
  - apply (H Imported.snakeCase [("v", "2")] "ep" "myMetric" (PNumber 42)).
    reflexivity.
  - apply (proj2 (Hkeys Imported.snakeCase exampleReport
                    (Some exampleSession) "myMetric" (PNumber 42) eq_refl)
             exampleEvent); [reflexivity|]. left.
  - apply (proj1 (Hkeys Imported.snakeCase exampleReport
                    (Some exampleSession) "planName" (PString "pro")
                    eq_refl)). left.
Defined.

(** ** C2: order of the query parameters *)

(** C2. Every request that [send] hands to [fetch] carries the query
    parameters [queryParams] of the resolved report. Their keys come in this
    order: [v], [tid], [cid], [ul], [_uip], [uid], the campaign keys [cs],
    [cm], [ci], [cn], [cc], [ck], the session keys [sid], [sct], [seg], [_s],
    the page keys [dl], [dr], [dt], [ir], [tt]; then, only when the primary
    event (the first entry of [events]) is not [null], the custom keys of
    [event_category], of [event_label] and of the parameters of the event,
    and [en], [_fv], [_nsi], [_ss]; then, in all cases, the custom keys of
    the user properties. A key is there only when its value is emitted, and
    a custom key emitted twice stays where it came first. When the primary
    event is not [null], [en] is a key, and so is the custom key of every
    defined parameter of the event. When the primary event is [null], no key
    is [en], [_fv], [_nsi] or [_ss] and no key starts with [ep]. *)
Theorem query_parameter_order :
  forall snakeCase SHA1 env r w,
    (network (send snakeCase SHA1 env r w).1.2 = network w
     \/ exists ps,
          network (send snakeCase SHA1 env r w).1.2
          = (network w
             ++ [requestOf snakeCase
                   (send snakeCase SHA1 env r w).1.1 w ps])%list)
    /\ (forall sess,
          keys (queryParams snakeCase r sess)
          = (shortKeys (commonFields r sess)
             ++ match primaryEvent r with
                | Some ev =>
                    firstOccurrences
                      (customKeys snakeCase "ep" (eventCustomParams ev))
                    ++ shortKeys (eventFields r sess ev)
                | None => []
                end
             ++ firstOccurrences
                  (customKeys snakeCase "up" (user_properties (user r))))%list)
    /\ (forall sess ev,
          primaryEvent r = Some ev ->
          ("en" ∈ keys (queryParams snakeCase r sess))
          /\ (forall name value,
                (name, value) ∈ eventCustomParams ev ->
                defined value = true ->
                customKey snakeCase "ep" name value
                ∈ keys (queryParams snakeCase r sess)))
    /\ (forall sess k,
          primaryEvent r = None ->
          k ∈ keys (queryParams snakeCase r sess) ->
          (k ∉ ["en"; "_fv"; "_nsi"; "_ss"])
          /\ String.prefix "ep" k = false).
Proof.
  intros sc SHA1 env r w. split; [|split; [|split]].
  - destruct (send_effect sc SHA1 env r w)
      as [[Hn _]|(m & r' & ps & _ & _ & _ & _ & Hr & Hn & _)]; auto.
    right. exists ps. now rewrite Hr.
  - intros sess. rewrite queryParams_keys. unfold expectedKeys.
    now rewrite event_primaryEvent.
  - intros sess ev Hev. rewrite queryParams_keys. unfold expectedKeys.
    rewrite event_primaryEvent, Hev. split.
    + rewrite !elem_of_app. right. left. right. cbn [eventFields shortKeys].
      left.
    + intros name value Hin Hd. rewrite !elem_of_app. right. left. left.
      now apply firstOccurrences_sup, customKeys_elem.
  - intros sess k Hev Hk. rewrite queryParams_keys in Hk.
    unfold expectedKeys in Hk.
    rewrite event_primaryEvent, Hev, app_nil_l in Hk.
    pose proof names_NoDup as Hnd.
    apply NoDup_app in Hnd as (_ & Hce & _).
    apply elem_of_app in Hk as [Hk|Hk].
    + apply commonKeys_names in Hk. split; [exact (Hce k Hk)|].
      apply names_no_prefix, elem_of_app. now left.
    + apply firstOccurrences_sub, customKeys_prefix in Hk. split.
      * intros Hin.
        assert (String.prefix "up" k = false) as Hup.
        { apply names_no_prefix, elem_of_app. now right. }
        congruence.
      * destruct (String.prefix "ep" k) eqn:E; auto.
        exfalso. now apply (prefix_ep_up k).
Qed.

Lemma query_parameter_order_witness :
  keys (queryParams Imported.snakeCase exampleFirstVisit
          (Some exampleSession))
  = ["v"; "tid"; "cid"; "ul"; "_uip"; "uid";
     "cs"; "cm"; "ci"; "cn"; "cc"; "ck";
     "sid"; "sct"; "seg"; "_s";
     "dl"; "dr"; "dt"; "ir"; "tt";
     "ep.event_category"; "ep.event_label"; "epn.my_metric"; "ep.my_flag";
     "en"; "_fv"; "_nsi"; "_ss";
     "up.plan_name"]
  /\ ("en" ∈ keys (queryParams Imported.snakeCase exampleReport
                     (Some exampleSession)))
  /\ ("epn.my_metric" ∈ keys (queryParams Imported.snakeCase exampleReport
                                (Some exampleSession)))
  /\ ("up.plan_name" ∉ ["en"; "_fv"; "_nsi"; "_ss"])
  /\ String.prefix "ep" "up.plan_name" = false.
Proof.
  destruct (query_parameter_order Imported.snakeCase Imported.SHA1
              exampleEnv exampleFirstVisit exampleWorld)
    as (_ & Hkeys & _ & _).
  destruct (query_parameter_order Imported.snakeCase Imported.SHA1
              exampleEnv exampleReport exampleWorld)
    as (_ & _ & Hevent & _).
  destruct (query_parameter_order Imported.snakeCase Imported.SHA1
              exampleEnv (set_event exampleReport None) exampleWorld)
    as (_ & _ & _ & Hnull).
  destruct (Hevent (Some exampleSession) exampleEvent eq_refl)
    as [Hen Hcustom].
  split; [rewrite Hkeys; vm_compute; reflexivity|].
  split; [exact Hen|]. split.
  - apply (Hcustom "myMetric" (PNumber 42)); [|reflexivity].
    vm_compute. do 2 right. left.
  - apply (Hnull (Some exampleSession)); [reflexivity|].
    vm_compute. repeat constructor.
Defined.

(** The query parameters of the example report once its client id is
    resolved, and the request they are sent in. *)
Example exampleReport_queryParams :
  queryParams Imported.snakeCase
    (send Imported.snakeCase Imported.SHA1 exampleEnv exampleReport
       exampleWorld).1.1
    (Some exampleSession)
  = [("v", "2"); ("tid", "G-EXAMPLE");
     ("cid", "03dc77bba34d5db245d0e60e4133800284989246");
     ("ul", "en-us"); ("_uip", "203.0.113.7");
     ("sid", "00k3j2h1g0"); ("sct", "3600000"); ("seg", "1"); ("_s", "0");
     ("dl", "https://deno.land/x/case"); ("dt", "x / case");
     ("ep.event_category", "docs"); ("epn.my_metric", "42");
     ("ep.my_flag", "true"); ("en", "page_view"); ("_ss", "1");
     ("up.plan_name", "pro")].
Proof. vm_compute. reflexivity. Qed.

Example exampleReport_keys_without_event :
  keys (queryParams Imported.snakeCase (set_event exampleReport None)
          (Some exampleSession))
  = ["v"; "tid"; "ul"; "_uip"; "sid"; "sct"; "seg"; "_s"; "dl"; "dt";
     "up.plan_name"].
Proof. vm_compute. reflexivity. Qed.

Example exampleFirstVisit_queryParams :
  queryParams Imported.snakeCase exampleFirstVisit (Some exampleSession)
  = [("v", "2"); ("tid", "G-EXAMPLE"); ("cid", "1234.5678");
     ("ul", "en-us"); ("_uip", "203.0.113.7"); ("uid", "u-42");
     ("cs", "newsletter"); ("cm", "email"); ("ci", "c-7");
     ("cn", "launch"); ("cc", "banner"); ("ck", "deno");
     ("sid", "00k3j2h1g0"); ("sct", "3600000"); ("seg", "1"); ("_s", "0");
     ("dl", "https://deno.land/x/case"); ("dr", "https://example.com/");
     ("dt", "x / case"); ("ir", "0"); ("tt", "referral");
     ("ep.event_category", "docs"); ("ep.event_label", "intro");
     ("epn.my_metric", "42"); ("ep.my_flag", "true");
     ("en", "first_visit"); ("_fv", "1"); ("_nsi", "1"); ("_ss", "1");
     ("up.plan_name", "pro")].
Proof. vm_compute. reflexivity. Qed.

Example exampleRequest_url :
  request_url exampleRequest
  = "https://www.google-analytics.com/g/collect?v=2&tid=G-EXAMPLE"
    +:+ "&cid=03dc77bba34d5db245d0e60e4133800284989246&ul=en-us"
    +:+ "&_uip=203.0.113.7&sid=00k3j2h1g0&sct=3600000&seg=1&_s=0"
    +:+ "&dl=https%3A%2F%2Fdeno.land%2Fx%2Fcase&dt=x+%2F+case"
    +:+ "&ep.event_category=docs&epn.my_metric=42&ep.my_flag=true"
    +:+ "&en=page_view&_ss=1&up.plan_name=pro".
Proof. vm_compute. reflexivity. Qed.

(** ** C4: session bookkeeping *)

(** C4. When a call of [send] has handed a request to [fetch], the response
    is [ok] and the report has a session: the [start] flag of the session is
    [undefined] afterwards if the primary event (the first entry of
    [events]) is not [null], and unchanged otherwise; and the hit count has
    grown by the number of the entries of [events] that are events, at
    least 1; that number is in fact never below 1 here. A [start] flag that
    is cleared stays cleared through every later sequence of calls that
    build or send reports. *)
Theorem session_bookkeeping_after_success :
  (forall snakeCase SHA1 env r w request response duration ref s,
     network (send snakeCase SHA1 env r w).1.2
       = (network w ++ [request])%list ->
     fetch env request = Resolved response duration ->
     ok response = true ->
     session r = Some ref ->
     heap w !! ref = Some s ->
     exists s',
       heap (send snakeCase SHA1 env r w).1.2 !! ref = Some s'
       /\ session_start s'
          = match primaryEvent r with
            | Some _ => None
            | None => session_start s
            end
       /\ session_hitCount s'
          = session_hitCount s + Z.max 1 (countTruthy (events r))
       /\ 1 <= countTruthy (events r))
  /\ (forall snakeCase SHA1 URL_parse STATUS_TEXT calls w ref s,
        heap w !! ref = Some s ->
        session_start s = None ->
        exists s',
          heap (runCalls snakeCase SHA1 URL_parse STATUS_TEXT calls w) !! ref
            = Some s'
          /\ session_start s' = None).
Proof.
  split.
  - intros sc SHA1 env r w request response duration ref s Hnet Hf Hok Hs Hh.
    destruct (send_effect sc SHA1 env r w)
      as [[Hn _]|(m & r' & ps & Hev & _ & _ & _ & _ & Hn & Hheap)].
    + rewrite Hn in Hnet. now apply app_singleton_neq in Hnet.
    + rewrite Hn in Hnet. apply app_inv_head in Hnet.
      injection Hnet as Hreq. rewrite Hreq in Hheap.
      rewrite Hheap. unfold heapAfter. rewrite Hf, Hs, Hok.
      exists (recordHit r s).
      rewrite list_lookup_alter_eq, Hh.
      pose proof (truthyCount_positive r Hev) as Hpos.
      rewrite <- truthyCount_countTruthy, <- event_primaryEvent.
      repeat split; auto. simpl.
      destruct (truthyCount r =? 0) eqn:E; lia.
  - intros sc SHA1 URL_parse STATUS_TEXT calls w ref s Hh Hstart.
    destruct (runCalls_later sc SHA1 URL_parse STATUS_TEXT calls w ref s Hh)
      as (s' & Hs' & _ & _ & _ & Hst & _).
    exists s'. split; auto. destruct Hst; congruence.
Qed.

Lemma session_bookkeeping_after_success_witness :
  (exists s',
     heap (send Imported.snakeCase Imported.SHA1 exampleEnv exampleBatch
             exampleWorld).1.2 !! 0%nat = Some s'
     /\ session_start s' = None
     /\ session_hitCount s' = 3)
  /\ (exists s',
        heap (send Imported.snakeCase Imported.SHA1 exampleEnv exampleLate
                exampleWorld).1.2 !! 0%nat = Some s'
        /\ session_start s' = Some true
        /\ session_hitCount s' = 1)
  /\ (exists s',
        heap (send Imported.snakeCase Imported.SHA1 exampleEnv exampleReport
                exampleWorld).1.2 !! 0%nat = Some s'
        /\ session_start s' = None
        /\ session_hitCount s' = 1).
Proof.
  split; [|split].
  - destruct (proj1 session_bookkeeping_after_success Imported.snakeCase
                Imported.SHA1 exampleEnv exampleBatch exampleWorld
                exampleBatchRequest noContent 25 0%nat exampleSession)
      as (s' & Hs' & Hstart & Hcount & _);
      [vm_compute; reflexivity|reflexivity..|].
    exists s'. split; [exact Hs'|]. split; [exact Hstart|exact Hcount].
  - destruct (proj1 session_bookkeeping_after_success Imported.snakeCase
                Imported.SHA1 exampleEnv exampleLate exampleWorld
                exampleLateRequest noContent 25 0%nat exampleSession)
      as (s' & Hs' & Hstart & Hcount & _);
      [vm_compute; reflexivity|reflexivity..|].
    exists s'. split; [exact Hs'|]. split; [exact Hstart|exact Hcount].
  - destruct (proj1 session_bookkeeping_after_success Imported.snakeCase
                Imported.SHA1 exampleEnv exampleReport exampleWorld
                exampleRequest noContent 25 0%nat exampleSession)
      as (s' & Hs' & Hstart & Hcount & _);
      [vm_compute; reflexivity|reflexivity..|].
    exists s'. split; [exact Hs'|]. split; [exact Hstart|exact Hcount].
Defined.

(** The sessions after the three example reports are sent. *)
Example exampleBatch_session :
  heap (send Imported.snakeCase Imported.SHA1 exampleEnv exampleBatch
          exampleWorld).1.2
  = [{| session_id := "00k3j2h1g0"; session_number := 3600000;
        session_engaged := true; session_start := None;
        session_hitCount := 3 |}].
Proof. vm_compute. reflexivity. Qed.

Example exampleLate_session :
  heap (send Imported.snakeCase Imported.SHA1 exampleEnv exampleLate
          exampleWorld).1.2
  = [{| session_id := "00k3j2h1g0"; session_number := 3600000;
        session_engaged := true; session_start := Some true;
        session_hitCount := 1 |}].
Proof. vm_compute. reflexivity. Qed.

Example exampleBatch_body :
  request_body exampleBatchRequest
  = "en=scroll&epn.percent=90" +:+ String (ascii_of_N 10) ""
    +:+ "en=click&ep.event_label=nav".
Proof. vm_compute. reflexivity. Qed.

(** ** C5: client id *)

(** C5. A call of [send] on a report whose [client.id] is absent. If
    [client.ip] is absent too, no request is handed to [fetch], and when the
    call gets to the client id (some event is truthy and the measurement id
    is resolved and not empty) it logs the warning about the client and ends
    there. Otherwise, when the call gets to the client id, [client.id]
    becomes the lower-case hexadecimal SHA-1 digest of the client IP, the
    [user-agent] header and the [sec-ch-ua] header joined by commas (an
    absent header as the empty string), and any other call with the same
    three inputs derives the same id. *)
Theorem client_id_resolution :
  forall snakeCase SHA1 env r w,
    client_id (client r) = None ->
    match client_ip (client r) with
    | None =>
        network (send snakeCase SHA1 env r w).1.2 = network w
        /\ forall m,
             existsb truthy (events r) = true ->
             resolvedMeasurementId env r = Some m -> m <> "" ->
             send snakeCase SHA1 env r w
             = (set_measurementId r (Some m),
                console_warn w noClientWarning, None)
             /\ console (send snakeCase SHA1 env r w).1.2
                = (console w ++ [noClientWarning])%list
    | Some ip =>
        forall m,
          existsb truthy (events r) = true ->
          resolvedMeasurementId env r = Some m -> m <> "" ->
          client_id (client (send snakeCase SHA1 env r w).1.1)
          = Some (lowerHex (SHA1
                   (commaJoined ip
                      (Headers_get (client_headers (client r)) "user-agent")
                      (Headers_get (client_headers (client r)) "sec-ch-ua"))))
          /\ forall env' r2 w2 m2,
               existsb truthy (events r2) = true ->
               resolvedMeasurementId env' r2 = Some m2 -> m2 <> "" ->
               client_id (client r2) = None ->
               client_ip (client r2) = Some ip ->
               Headers_get (client_headers (client r2)) "user-agent"
               = Headers_get (client_headers (client r)) "user-agent" ->
               Headers_get (client_headers (client r2)) "sec-ch-ua"
               = Headers_get (client_headers (client r)) "sec-ch-ua" ->
               client_id (client (send snakeCase SHA1 env' r2 w2).1.1)
               = client_id (client (send snakeCase SHA1 env r w).1.1)
    end.
Proof.
  intros sc SHA1 env r w Hid.
  assert (forall env r w m ip,
            existsb truthy (events r) = true ->
            resolvedMeasurementId env r = Some m -> m <> "" ->
            client_id (client r) = None ->
            client_ip (client r) = Some ip ->
            client_id (client (send sc SHA1 env r w).1.1)
            = Some (lowerHex (SHA1
                 (commaJoined ip
                    (Headers_get (client_headers (client r)) "user-agent")
                    (Headers_get (client_headers (client r)) "sec-ch-ua")))))
    as Hderive.
  { clear. intros env r w m ip Hev Hm Hne Hid Hip.
    rewrite (send_report sc SHA1 env r w m
               (set_client_id (set_measurementId r (Some m))
                  (toDigest SHA1 (material (client r) ip)))); auto.
    - simpl. now rewrite toDigest_lowerHex, material_commaJoined.
    - unfold withClientId. now rewrite Hid, Hip. }
  destruct (client_ip (client r)) as [ip|] eqn:Hip.
  - intros m Hev Hm Hne. split; [now apply (Hderive env r w m)|].
    intros env' r2 w2 m2 Hev2 Hm2 Hne2 Hid2 Hip2 Hua Hch.
    rewrite (Hderive env' r2 w2 m2 ip), (Hderive env r w m ip); auto.
    now rewrite Hua, Hch.
  - assert (forall m, withClientId SHA1 r m = None) as Hnone.
    { intros m. unfold withClientId. now rewrite Hid, Hip. }
    split.
    + destruct (send_cases sc SHA1 env r w)
        as [Hev'|Hev' Hm'|m' Hev' Hm' Hne' Hc'|m' r'' Hev' Hm' Hne' Hc'];
        try reflexivity.
      rewrite Hnone in Hc'. discriminate.
    + intros m Hev Hm Hne.
      assert (send sc SHA1 env r w
              = (set_measurementId r (Some m),
                 console_warn w noClientWarning, None)) as ->.
      { destruct (send_cases sc SHA1 env r w)
          as [Hev'|Hev' Hm'|m' Hev' Hm' Hne' Hc'|m' r'' Hev' Hm' Hne' Hc'];
          try congruence;
          try (destruct Hm'; congruence);
          try (rewrite Hnone in Hc'; discriminate). }
      split; reflexivity.
Qed.

Lemma client_id_resolution_witness :
  client_id (client (send Imported.snakeCase Imported.SHA1 exampleEnv
                       exampleReport exampleWorld).1.1)
  = Some (lowerHex (Imported.SHA1 "203.0.113.7,Deno/1.17,"))
  /\ console (send Imported.snakeCase Imported.SHA1 exampleEnv
                exampleAnonymous exampleWorld).1.2
     = [noClientWarning]
  /\ network (send Imported.snakeCase Imported.SHA1 exampleEnv
                exampleAnonymous exampleWorld).1.2 = [].
Proof.
  split; [|split].
  - apply (client_id_resolution Imported.snakeCase Imported.SHA1 exampleEnv
             exampleReport exampleWorld eq_refl "G-EXAMPLE");
      [reflexivity | reflexivity | discriminate].
  - apply (proj2 (client_id_resolution Imported.snakeCase Imported.SHA1
                    exampleEnv exampleAnonymous exampleWorld eq_refl)
             "G-EXAMPLE"); [reflexivity | reflexivity | discriminate].
  - apply (proj1 (client_id_resolution Imported.snakeCase Imported.SHA1
                    exampleEnv exampleAnonymous exampleWorld eq_refl)).
Defined.

(** The client id of the example report. *)
Example exampleReport_client_id :
  client_id (client (send Imported.snakeCase Imported.SHA1 exampleEnv
                       exampleReport exampleWorld).1.1)
  = Some "03dc77bba34d5db245d0e60e4133800284989246".
Proof. vm_compute. reflexivity. Qed.

(** ** C7: no events *)

(** C7. When no entry of [events] is truthy, [send] returns at once: the
    report and the world (heap, console, requests) are unchanged and nothing
    is thrown. This is the case when the primary event of a report without
    secondary events is set to [null]. *)
Theorem send_without_events :
  (forall snakeCase SHA1 env r w,
     existsb truthy (events r) = false ->
     send snakeCase SHA1 env r w = (r, w, None))
  /\ (forall snakeCase SHA1 env r w e,
        events r = [e] ->
        send snakeCase SHA1 env (set_event r None) w
        = (set_event r None, w, None)).
Proof.
  split.
  - intros sc SHA1 env r w H. unfold send. now rewrite H.
  - intros sc SHA1 env r w e H. unfold send, set_event. simpl.
    now rewrite H.
Qed.

Lemma send_without_events_witness :
  send Imported.snakeCase Imported.SHA1 exampleEnv
    (set_event exampleReport None) exampleWorld
  = (set_event exampleReport None, exampleWorld, None).
Proof.
  apply (proj1 send_without_events). reflexivity.
Defined.

(** ** C8: no measurement id *)

(** C8. When some event is truthy, the report has no measurement id and the
    environment gives none, [send] logs exactly one warning and ends: no
    request is handed to [fetch], and the report and the heap are
    unchanged. *)
Theorem send_without_measurement_id :
  forall snakeCase SHA1 env r w,
    existsb truthy (events r) = true ->
    measurementId r = None ->
    GA4_MEASUREMENT_ID env = None ->
    send snakeCase SHA1 env r w
      = (r, console_warn w noMeasurementIdWarning, None)
    /\ console (send snakeCase SHA1 env r w).1.2
       = (console w ++ [noMeasurementIdWarning])%list
    /\ network (send snakeCase SHA1 env r w).1.2 = network w
    /\ heap (send snakeCase SHA1 env r w).1.2 = heap w.
Proof.
  intros sc SHA1 env r w Hev Hm Henv.
  assert (send sc SHA1 env r w
          = (r, console_warn w noMeasurementIdWarning, None)) as ->.
  { unfold send. rewrite Hev, Hm, Henv. simpl.
    destruct r; simpl in *; subst; reflexivity. }
  repeat split.
Qed.

Lemma send_without_measurement_id_witness :
  console (send Imported.snakeCase Imported.SHA1 exampleEnv
             exampleUnconfigured exampleWorld).1.2
  = [noMeasurementIdWarning]
  /\ network (send Imported.snakeCase Imported.SHA1 exampleEnv
                exampleUnconfigured exampleWorld).1.2 = []
  /\ heap (send Imported.snakeCase Imported.SHA1 exampleEnv
             exampleUnconfigured exampleWorld).1.2 = [exampleSession].
Proof.
  apply (send_without_measurement_id Imported.snakeCase Imported.SHA1
           exampleEnv exampleUnconfigured exampleWorld); reflexivity.
Defined.

(** ** C9: the constructor can throw *)

Lemma eventParamsList_total (sc : string -> string)
    (l : list (option Event)) :
  forallb truthy l = true -> exists ps, eventParamsList sc l = Ok ps.
Proof.
  induction l as [|[ev|] l IH]; cbn [forallb truthy andb].
  - eauto.
  - intros H. destruct (IH H) as [ps Hps]. cbn [eventParamsList eventParams].
    rewrite Hps. eauto.
  - discriminate.
Qed.

(** C9. When the request carries a [referer] header that [new URL] rejects,
    the referrer derivation throws a [TypeError] and the constructor of
    [GA4Report] throws (that [TypeError], when the title derivation before
    it has not thrown): building a report is not total. A call of [send], on
    the other hand, throws nothing when the secondary events are events, as
    their type says, whatever [fetch] does. *)
Theorem constructor_throws_on_bad_referer :
  forall URL_parse STATUS_TEXT init platform w referrer,
    Headers_get (headers (init_request init)) "referer" = Some referrer ->
    URL_parse referrer = None ->
    (exists err,
       (GA4Report_new URL_parse STATUS_TEXT init platform w).2 = Throw err)
    /\ getPageReferrer URL_parse (init_request init)
       = Throw (TypeError "Invalid URL")
    /\ (forall title,
          getPageTitle URL_parse STATUS_TEXT (init_request init)
            (init_response init) = Ok title ->
          (GA4Report_new URL_parse STATUS_TEXT init platform w).2
          = Throw (TypeError "Invalid URL"))
    /\ (forall snakeCase SHA1 env r w',
          forallb truthy (slice1 (events r)) = true ->
          (send snakeCase SHA1 env r w').2 = None).
Proof.
  intros URL_parse STATUS_TEXT init platform w referrer Href Hparse.
  assert (getPageReferrer URL_parse (init_request init)
          = Throw (TypeError "Invalid URL")) as Hthrow.
  { unfold getPageReferrer. now rewrite Href, Hparse. }
  split; [|split; [exact Hthrow|split]].
  - unfold GA4Report_new.
    destruct (getSession (init_conn init) platform w) as [w' ref].
    destruct (getPageTitle _ _ _ _) as [title|err]; simpl; eauto.
    rewrite Hthrow. simpl. eauto.
  - intros title Htitle. unfold GA4Report_new.
    destruct (getSession (init_conn init) platform w) as [w' ref].
    now rewrite Htitle, Hthrow.
  - intros sc SHA1 env r w' Htyped.
    destruct (send_cases sc SHA1 env r w')
      as [Hev|Hev Hm|m Hev Hm Hne Hc|m r' Hev Hm Hne Hc]; try reflexivity.
    apply withClientId_frame in Hc as (_ & He & _).
    unfold transmit. rewrite He.
    destruct (eventParamsList_total sc _ Htyped) as [ps ->]. reflexivity.
Qed.

Lemma constructor_throws_on_bad_referer_witness :
  (GA4Report_new Imported.URL_parse Imported.STATUS_TEXT exampleInit
     examplePlatform exampleWorld).2 = Throw (TypeError "Invalid URL").
Proof.
  apply (constructor_throws_on_bad_referer Imported.URL_parse
           Imported.STATUS_TEXT exampleInit examplePlatform exampleWorld
           "not a url" eq_refl eq_refl) with (title := "x / case").
  reflexivity.
Defined.

(** ** C10: what [send] leaves alone *)

(** C10. A call of [send] leaves the fields [id], [number] and [engaged] of
    every session as they are, allocates no session and leaves [sessionMap]
    alone; it changes the heap only when it has handed a request to [fetch]
    and the response is [ok]. From its creation by [getSession] on, through
    every sequence of calls that build or send reports, a session keeps its
    [id] and [number] and stays [engaged]. *)
Theorem session_identity_frame :
  (forall snakeCase SHA1 env r w ref s,
     heap w !! ref = Some s ->
     exists s',
       heap (send snakeCase SHA1 env r w).1.2 !! ref = Some s'
       /\ session_id s' = session_id s
       /\ session_number s' = session_number s
       /\ session_engaged s' = session_engaged s)
  /\ (forall snakeCase SHA1 env r w,
        length (heap (send snakeCase SHA1 env r w).1.2) = length (heap w)
        /\ sessionMap (send snakeCase SHA1 env r w).1.2 = sessionMap w)
  /\ (forall snakeCase SHA1 env r w,
        heap (send snakeCase SHA1 env r w).1.2 = heap w
        \/ exists request response duration,
             network (send snakeCase SHA1 env r w).1.2
               = (network w ++ [request])%list
             /\ fetch env request = Resolved response duration
             /\ ok response = true)
  /\ (forall snakeCase SHA1 URL_parse STATUS_TEXT conn platform w calls,
        sessionMap w !! conn_identity conn = None ->
        exists s',
          heap (runCalls snakeCase SHA1 URL_parse STATUS_TEXT calls
                  (getSession conn platform w).1)
            !! (getSession conn platform w).2 = Some s'
          /\ session_id s' = padStart0 10 (random36 platform)
          /\ session_number s'
             = (Date_now platform - START_OF_2020) / MINUTE
          /\ session_engaged s' = true).
Proof.
  split; [|split; [|split]].
  - intros sc SHA1 env r w ref s Hs.
    destruct (send_later sc SHA1 env r w ref s Hs)
      as (s' & Hs' & Hi & Hn & He & _).
    eauto.
  - intros sc SHA1 env r w.
    destruct (send_cases sc SHA1 env r w)
      as [Hev|Hev Hm|m Hev Hm Hne Hc|m r' Hev Hm Hne Hc];
      try (split; reflexivity).
    destruct (transmit_cases sc env r' w) as [(e & _ & ->)|(ps & _ & ->)];
      [split; reflexivity|]. simpl.
    now rewrite upload_heap, heapAfter_length, upload_sessionMap.
  - intros sc SHA1 env r w.
    destruct (send_effect sc SHA1 env r w)
      as [[_ ->]|(m & r' & ps & _ & _ & _ & _ & _ & Hn & ->)];
      [now left|].
    unfold heapAfter.
    destruct (fetch env (requestOf sc r' w ps)) as [resp d|err] eqn:Hf;
      [|now left].
    destruct (session r); [|now left].
    destruct (ok resp) eqn:Hok; [|now left].
    right. exists (requestOf sc r' w ps), resp, d. auto.
  - intros sc SHA1 URL_parse STATUS_TEXT conn platform w calls Hnew.
    set (s0 := {| session_id := padStart0 10 (random36 platform);
                  session_number
                    := (Date_now platform - START_OF_2020) / MINUTE;
                  session_engaged := true; session_start := Some true;
                  session_hitCount := 0 |}).
    assert (heap (getSession conn platform w).1
              !! (getSession conn platform w).2 = Some s0) as H0.
    { unfold getSession. rewrite Hnew. simpl.
      rewrite lookup_app_r by lia. now rewrite Nat.sub_diag. }
    destruct (runCalls_later sc SHA1 URL_parse STATUS_TEXT calls _ _ _ H0)
      as (s' & Hs' & Hi & Hn & He & _).
    exists s'. repeat split; auto.
Qed.

Lemma session_identity_frame_witness :
  (exists s',
     heap (send Imported.snakeCase Imported.SHA1 exampleEnv exampleReport
             exampleWorld).1.2 !! 0%nat = Some s'
     /\ session_id s' = "00k3j2h1g0"
     /\ session_number s' = 3600000
     /\ session_engaged s' = true)
  /\ exists s',
       heap (runCalls Imported.snakeCase Imported.SHA1 Imported.URL_parse
               Imported.STATUS_TEXT
               [Send exampleEnv exampleReport;
                Build exampleInit examplePlatform]
               (getSession (init_conn exampleInit) examplePlatform
                  exampleWorld).1)
         !! (getSession (init_conn exampleInit) examplePlatform
               exampleWorld).2 = Some s'
       /\ session_id s' = padStart0 10 (random36 examplePlatform)
       /\ session_number s'
          = (Date_now examplePlatform - START_OF_2020) / MINUTE
       /\ session_engaged s' = true.
Proof.
  destruct session_identity_frame as (Hsend & _ & _ & Hlife).
  split.
  - apply (Hsend Imported.snakeCase Imported.SHA1 exampleEnv exampleReport
             exampleWorld 0%nat exampleSession). reflexivity.
  - apply (Hlife Imported.snakeCase Imported.SHA1 Imported.URL_parse
             Imported.STATUS_TEXT (init_conn exampleInit) examplePlatform
             exampleWorld). reflexivity.
Defined.

(** * Further properties *)

(** ** Matches and what they consume *)

(** What a match leaves: the continuation that succeeds is called on a rest
    of the input that is not longer than the input, and shorter when the
    expression matches no empty string. *)
Lemma run_rest {A} (r : regex) :
  forall (s : string) (k : string -> option A) (x : A),
    run r s k = Some x ->
    exists t, k t = Some x
      /\ (String.length t <= String.length s)%nat
      /\ (nullable r = false -> (String.length t < String.length s)%nat).
Proof.
  induction r as [p| |r1 IH1 r2 IH2|r1 IH1 r2 IH2|r1 IH1|];
    intros s k x H.
  - destruct s as [|a rest]; [discriminate|]. rewrite run_Chr in H.
    destruct (p a); [|discriminate].
    exists rest. cbn [String.length]. repeat split; auto; lia.
  - exists s. repeat split; auto; discriminate.
  - cbn [run] in H. apply IH1 in H as (t1 & H & L1 & N1).
    apply IH2 in H as (t & H & L2 & N2).
    exists t. split; [exact H|]. split; [lia|].
    cbn [nullable]. rewrite andb_false_iff.
    intros [E|E]; [apply N1 in E|apply N2 in E]; lia.
  - cbn [run] in H. cbn [nullable].
    destruct (run r1 s k) as [y|] eqn:E1.
    + injection H as ->. apply IH1 in E1 as (t & H & L & N).
      exists t. repeat split; auto. rewrite orb_false_iff. intros [E _]. auto.
    + apply IH2 in H as (t & H & L & N).
      exists t. repeat split; auto. rewrite orb_false_iff. intros [_ E]. auto.
  - cbn [run] in H. revert H. generalize (S (String.length s)) as fuel.
    intros fuel. revert s. induction fuel as [|fuel IHf]; intros s H.
    + exists s. repeat split; auto; discriminate.
    + cbn [iterate] in H.
      destruct (run r1 s _) as [y|] eqn:E1.
      * injection H as ->. apply IH1 in E1 as (t1 & H & L & _).
        destruct (Nat.ltb_spec (String.length t1) (String.length s));
          [|discriminate].
        apply IHf in H as (t & H & L' & _).
        exists t. repeat split; auto; try lia; discriminate.
      * exists s. repeat split; auto; discriminate.
  - destruct s; [|discriminate]. exists "". repeat split; auto; discriminate.
Qed.

(** A match is not longer than the input, and not empty when the expression
    matches no empty string. *)
Lemma matchLen_bounds (r : regex) (s : string) (n : nat) :
  matchLen r s = Some n ->
  (n <= String.length s)%nat /\ (nullable r = false -> (0 < n)%nat).
Proof.
  unfold matchLen. intros H. apply run_rest in H as (t & H & L & N).
  injection H as <-. split; [lia|]. intros E. apply N in E. lia.
Qed.

(** A star succeeds whenever what follows it succeeds everywhere. *)
Lemma run_Star_total {A} (r : regex) (s : string) (k : string -> option A) :
  (forall t, k t <> None) -> run (Star r) s k <> None.
Proof.
  intros Hk. rewrite run_Star. destruct (run r s _); [discriminate|apply Hk].
Qed.

(** ** The client IP *)

Lemma matchLen_comma (rest : string) :
  exists n, matchLen commaSeparator (String "," rest) = Some (S n).
Proof.
  destruct (matchLen commaSeparator (String "," rest)) as [n|] eqn:E.
  - apply matchLen_bounds in E as H. destruct H as [_ H].
    destruct n; [specialize (H eq_refl); lia|eauto].
  - exfalso. revert E. unfold matchLen, commaSeparator.
    set (k := fun rest0 : string =>
                Some (String.length (String "," rest)
                      - String.length rest0)%nat).
    change (run (Star WhiteSpace) (String "," rest)
              (fun t => run (B 44) t (fun t' => run (Star WhiteSpace) t' k))
            <> None).
    rewrite run_no_first by reflexivity. cbn [emptyAt].
    unfold B. rewrite run_Chr. cbn [code N_of_ascii N.eqb].
    change (run (Star WhiteSpace) rest k <> None).
    apply run_Star_total. discriminate.
Qed.

Lemma code_comma (a : ascii) : N.eqb (code a) 44 = true -> a = ","%char.
Proof.
  destruct a as [[] [] [] [] [] [] [] []]; vm_compute;
    first [reflexivity | intros H; discriminate H].
Qed.

Lemma matchLen_comma_none (a : ascii) (rest : string) :
  matchLen commaSeparator (String a rest) = None -> notComma a = true.
Proof.
  intros H. unfold notComma. destruct (N.eqb (code a) 44) eqn:E; auto.
  apply code_comma in E. subst a.
  destruct (matchLen_comma rest) as [n Hn]. congruence.
Qed.

(** The first piece of a split at the commas: a prefix of the input without
    a comma, followed by the end of the input or by a separator. *)
Lemma split_comma_head : forall s piece,
  exists p rest more,
    split_from commaSeparator 0 piece s = (piece +:+ p) :: more
    /\ s = p +:+ rest
    /\ allBytes notComma p = true
    /\ (rest = "" \/ exists n, matchLen commaSeparator rest = Some (S n)).
Proof.
  induction s as [|a s IH]; intros piece.
  - exists "", "", []. rewrite append_empty_r. repeat split; auto.
  - cbn [split_from].
    destruct (matchLen commaSeparator (String a s)) as [[|n]|] eqn:E.
    + apply matchLen_bounds in E as [_ E]. specialize (E eq_refl). lia.
    + exists "", (String a s), (split_from commaSeparator n "" s).
      rewrite append_empty_r. repeat split; eauto.
    + destruct (IH (piece +:+ String a ""))
        as (p & rest & more & H & -> & Hp & Hr).
      exists (String a p), rest, more.
      rewrite H, append_assoc. repeat split; auto.
      cbn [allBytes]. now rewrite (matchLen_comma_none _ _ E), Hp.
Qed.

(** Bytes that start no match go to the current piece. *)
Lemma split_from_run (r : regex) (p : ascii -> bool) (seg : string) :
  nullable r = false ->
  (forall a, p a = true -> first r a = false) ->
  forall piece tail,
    allBytes p seg = true ->
    split_from r 0 piece (seg +:+ tail) = split_from r 0 (piece +:+ seg) tail.
Proof.
  intros Hn Hp. induction seg as [|a seg IH]; intros piece tail Hs.
  - now rewrite append_empty_r.
  - cbn [allBytes] in Hs. apply andb_true_iff in Hs as [Ha Hs].
    change (String a seg +:+ tail) with (String a (seg +:+ tail)).
    cbn [split_from].
    rewrite matchLen_no_first; [|exact Hn|cbn [startsIn]; auto].
    rewrite IH by auto. now rewrite append_assoc.
Qed.

Lemma split_from_at_match (r : regex) (piece tail : string) :
  (tail = "" \/ exists n, matchLen r tail = Some (S n)) ->
  exists more, split_from r 0 piece tail = piece :: more.
Proof.
  intros [->|[n H]]; [exists []; reflexivity|].
  destruct tail as [|a t].
  - apply matchLen_bounds in H as [H _]. cbn in H. lia.
  - cbn [split_from]. rewrite H. eauto.
Qed.

Lemma address_no_separator (a : ascii) :
  addressByte a = true -> first commaSeparator a = false.
Proof. by_bytes a. Qed.

Lemma run_WhiteSpace_ascii {A} (a : ascii) (t : string)
    (k : string -> option A) (x : A) :
  asciiSpace a = true -> k t = Some x ->
  run WhiteSpace (String a t) k = Some x.
Proof.
  intros Ha Hk. unfold WhiteSpace. cbn [run].
  unfold asciiSpace in Ha. now rewrite Ha, Hk.
Qed.

Lemma run_spaces {A} (sp rest : string) (k : string -> option A) (x : A) :
  allBytes asciiSpace sp = true ->
  run (Star WhiteSpace) rest k = Some x ->
  run (Star WhiteSpace) (sp +:+ rest) k = Some x.
Proof.
  intros Hs Hk. induction sp as [|a sp IH]; [exact Hk|].
  cbn [allBytes] in Hs. apply andb_true_iff in Hs as [Ha Hs].
  change (String a sp +:+ rest) with (String a (sp +:+ rest)).
  rewrite run_Star.
  rewrite (run_WhiteSpace_ascii a (sp +:+ rest) _ x); auto.
  rewrite length_lt_cons. auto.
Qed.

Lemma matchLen_spaces_comma (sp more : string) :
  allBytes asciiSpace sp = true ->
  exists n, matchLen commaSeparator (sp +:+ "," +:+ more) = Some (S n).
Proof.
  intros Hs.
  destruct (matchLen commaSeparator (sp +:+ "," +:+ more)) as [n|] eqn:E.
  - apply matchLen_bounds in E as H. destruct H as [_ H].
    destruct n; [specialize (H eq_refl); lia|eauto].
  - exfalso. revert E. unfold matchLen, commaSeparator.
    set (k := fun rest0 : string =>
                Some (String.length (sp +:+ "," +:+ more)
                      - String.length rest0)%nat).
    change (run (Star WhiteSpace) (sp +:+ "," +:+ more)
              (fun t => run (B 44) t (fun t' => run (Star WhiteSpace) t' k))
            <> None).
    destruct (run (Star WhiteSpace) more k) as [x|] eqn:Hx.
    2:{ now apply run_Star_total in Hx. }
    rewrite (run_spaces sp _ _ x); [discriminate|auto|].
    change ("," +:+ more) with (String "," more).
    rewrite run_no_first by reflexivity. cbn [emptyAt].
    unfold B. rewrite run_Chr. cbn [code N_of_ascii N.eqb]. exact Hx.
Qed.

Lemma getClientIp_header (request : Request) (conn : ConnInfo) (v : string) :
  Headers_get (headers request) "x-forwarded-for" = Some v -> v <> "" ->
  split_from commaSeparator 0 "" v
  = getClientIp request conn :: tail (split_from commaSeparator 0 "" v).
Proof.
  intros Hv Hne. unfold getClientIp. rewrite Hv.
  destruct v as [|a v]; [congruence|]. cbn [nonEmpty String.eqb negb].
  unfold split.
  destruct (split_comma_head (String a v) "") as (p & rest & more & -> & _).
  reflexivity.
Qed.

(** X1. The client IP. Without an [x-forwarded-for] header, or with an
    empty one, it is the host name of the connection. Otherwise it is the
    first entry of the header, even when that entry is empty: a prefix of
    the header value without a comma, followed by the end of the value or
    by a separator (a comma with the white space around it). A header that
    starts with an address of printable ASCII bytes, followed by nothing
    or by ASCII white space and a comma, gives that address. *)
Theorem client_ip_is_first_forwarded_entry :
  forall request conn,
    (Headers_get (headers request) "x-forwarded-for" = None ->
     getClientIp request conn = remoteAddr_hostname conn)
    /\ (Headers_get (headers request) "x-forwarded-for" = Some "" ->
        getClientIp request conn = remoteAddr_hostname conn)
    /\ (forall v,
          Headers_get (headers request) "x-forwarded-for" = Some v ->
          v <> "" ->
          exists rest,
            v = getClientIp request conn +:+ rest
            /\ allBytes notComma (getClientIp request conn) = true
            /\ (rest = ""
                \/ exists n, matchLen commaSeparator rest = Some (S n)))
    /\ (forall ip rest,
          Headers_get (headers request) "x-forwarded-for"
            = Some (ip +:+ rest) ->
          ip <> "" ->
          allBytes addressByte ip = true ->
          (rest = ""
           \/ exists sp more,
                rest = sp +:+ "," +:+ more /\ allBytes asciiSpace sp = true) ->
          getClientIp request conn = ip).
Proof.
  intros request conn. split; [|split; [|split]].
  - intros H. unfold getClientIp. now rewrite H.
  - intros H. unfold getClientIp. now rewrite H.
  - intros v Hv Hne.
    pose proof (getClientIp_header request conn v Hv Hne) as H.
    destruct (split_comma_head v "") as (p & rest & more & Hs & Hv' & Hp & Hr).
    rewrite Hs in H. injection H as H. change ("" +:+ p) with p in H.
    subst p. eauto.
  - intros ip rest Hv Hne Hip Hrest.
    assert (ip +:+ rest <> "") as Hne'.
    { destruct ip; [congruence|discriminate]. }
    pose proof (getClientIp_header request conn _ Hv Hne') as H.
    rewrite (split_from_run commaSeparator addressByte) in H;
      auto using address_no_separator.
    destruct (split_from_at_match commaSeparator ("" +:+ ip) rest) as [more Hm].
    { destruct Hrest as [->|(sp & more & -> & Hsp)]; [now left|right].
      now apply matchLen_spaces_comma. }
    rewrite Hm in H. injection H as H. now rewrite <- H.
Qed.

Lemma client_ip_is_first_forwarded_entry_witness :
  getClientIp (forwardedRequest "") exampleConn = "198.51.100.4"
  /\ (exists rest,
        "a b,c" = getClientIp (forwardedRequest "a b,c") exampleConn +:+ rest
        /\ allBytes notComma
             (getClientIp (forwardedRequest "a b,c") exampleConn) = true
        /\ (rest = "" \/ exists n, matchLen commaSeparator rest = Some (S n)))
  /\ getClientIp (forwardedRequest "203.0.113.7 , 10.0.0.1") exampleConn
     = "203.0.113.7".
Proof.
  split; [|split].
  - apply (proj1 (proj2 (client_ip_is_first_forwarded_entry
                           (forwardedRequest "") exampleConn))).
    reflexivity.
  - apply (proj1 (proj2 (proj2 (client_ip_is_first_forwarded_entry
                                  (forwardedRequest "a b,c") exampleConn)))).
    + reflexivity.
    + discriminate.
  - apply (proj2 (proj2 (proj2 (client_ip_is_first_forwarded_entry
             (forwardedRequest "203.0.113.7 , 10.0.0.1") exampleConn)))
             "203.0.113.7" " , 10.0.0.1").
    + reflexivity.
    + discriminate.
    + reflexivity.
    + right. exists " ", " 10.0.0.1". split; reflexivity.
Defined.

(** ** The client language *)

Lemma matchLen_class_none (p : ascii -> bool) (a : ascii) (rest : string) :
  matchLen (Plus (Chr p)) (String a rest) = None -> p a = false.
Proof.
  destruct (p a) eqn:E; auto. unfold matchLen, Plus.
  set (k := fun rest0 : string =>
              Some (String.length (String a rest) - String.length rest0)%nat).
  change (run (Chr p) (String a rest) (fun t => run (Star (Chr p)) t k)
          = None -> true = false).
  rewrite run_Chr, E. intros H. now apply run_Star_total in H.
Qed.

(** Every piece of a split at the runs of a class is free of the class. *)
Lemma split_class_pieces (p : ascii -> bool) : forall s skip piece,
  allBytes (fun a => negb (p a)) piece = true ->
  Forall (fun x => allBytes (fun a => negb (p a)) x = true)
         (split_from (Plus (Chr p)) skip piece s).
Proof.
  induction s as [|a s IH]; intros skip piece Hp.
  - repeat constructor. exact Hp.
  - cbn [split_from]. destruct skip as [|skip]; [|now apply IH].
    destruct (matchLen (Plus (Chr p)) (String a s)) as [[|n]|] eqn:E.
    + apply matchLen_bounds in E as [_ E]. specialize (E eq_refl). lia.
    + constructor; [exact Hp|now apply IH].
    + apply IH. rewrite allBytes_app, Hp. cbn [allBytes andb].
      now rewrite (matchLen_class_none _ _ _ E).
Qed.

(** The greedy star of a class takes the whole run of the class. *)
Lemma run_Star_class {A} (p : ascii -> bool) (j rest : string)
    (k : string -> option A) (x : A) :
  allBytes p j = true -> startsIn p rest = false -> k rest = Some x ->
  run (Star (Chr p)) (j +:+ rest) k = Some x.
Proof.
  intros Hj Hr Hk. induction j as [|a j IH].
  - change ("" +:+ rest) with rest. rewrite run_no_first by exact Hr.
    exact Hk.
  - cbn [allBytes] in Hj. apply andb_true_iff in Hj as [Ha Hj].
    change (String a j +:+ rest) with (String a (j +:+ rest)).
    rewrite run_Star, run_Chr, Ha, length_lt_cons, IH by auto. reflexivity.
Qed.

Lemma length_append (s t : string) :
  String.length (s +:+ t) = (String.length s + String.length t)%nat.
Proof.
  induction s as [|a s IH]; [reflexivity|].
  change (S (String.length (s +:+ t))
          = S (String.length s + String.length t)%nat). now rewrite IH.
Qed.

Lemma matchLen_class_run (p : ascii -> bool) (a : ascii) (j rest : string) :
  allBytes p (String a j) = true -> startsIn p rest = false ->
  matchLen (Plus (Chr p)) (String a j +:+ rest)
  = Some (S (String.length j)).
Proof.
  intros Hj Hr. cbn [allBytes] in Hj. apply andb_true_iff in Hj as [Ha Hj].
  unfold matchLen, Plus.
  set (k := fun rest0 : string =>
              Some (String.length (String a j +:+ rest)
                    - String.length rest0)%nat).
  change (run (Chr p) (String a (j +:+ rest))
            (fun t => run (Star (Chr p)) t k) = Some (S (String.length j))).
  rewrite run_Chr, Ha.
  apply run_Star_class; auto. unfold k. f_equal.
  change (String a j +:+ rest) with (String a (j +:+ rest)).
  cbn [String.length]. rewrite length_append. lia.
Qed.

(** The bytes of a separator are skipped. *)
Lemma split_from_skip (r : regex) (j s : string) :
  split_from r (String.length j) "" (j +:+ s) = split_from r 0 "" s.
Proof.
  induction j as [|a j IH]; [reflexivity|].
  change (String a j +:+ s) with (String a (j +:+ s)).
  cbn [String.length split_from]. exact IH.
Qed.

(** A split at the runs of a class, for an input that starts with such a
    run: an empty piece, and the pieces of what follows the run. *)
Lemma split_from_class_run (p : ascii -> bool) (a : ascii) (j rest : string) :
  allBytes p (String a j) = true -> startsIn p rest = false ->
  split_from (Plus (Chr p)) 0 "" (String a j +:+ rest)
  = "" :: split_from (Plus (Chr p)) 0 "" rest.
Proof.
  intros Hj Hr.
  pose proof (matchLen_class_run p a j rest Hj Hr) as H.
  change (String a j +:+ rest) with (String a (j +:+ rest)) in *.
  cbn [split_from]. rewrite H. f_equal. apply split_from_skip.
Qed.

Lemma notCode_first (a : ascii) :
  codeByte a = true -> first notLanguageCode a = false.
Proof. by_bytes a. Qed.

Lemma lowerCase_codeByte (a : ascii) :
  codeByte a = true ->
  (if isUpper a then lowerCodeByte (ascii_of_N (code a + 32))
   else lowerCodeByte a && negb (N.eqb (code a) 195))%bool = true.
Proof. by_bytes a. Qed.

(** Lower-casing a language code leaves lower-case letters and hyphens. *)
Lemma toLowerCase_code (s : string) :
  allBytes codeByte s = true ->
  allBytes lowerCodeByte (toLowerCase s) = true.
Proof.
  unfold toLowerCase. induction s as [|a s IH]; [reflexivity|].
  cbn [allBytes]. rewrite andb_true_iff. intros [Ha Hs].
  apply lowerCase_codeByte in Ha. cbn [toLowerCase_from].
  destruct (isUpper a).
  - cbn [allBytes]. now rewrite Ha, IH.
  - apply andb_true_iff in Ha as [Ha Hb]. apply negb_true_iff in Hb.
    rewrite Hb. cbn [allBytes]. now rewrite Ha, IH.
Qed.

Lemma toLowerCase_nonEmpty (s : string) :
  s <> "" -> toLowerCase s <> "".
Proof.
  destruct s as [|a s]; [congruence|]. intros _. unfold toLowerCase.
  cbn [toLowerCase_from]. destruct (isUpper a); discriminate.
Qed.

Lemma split_pieces_language (v : string) :
  Forall (fun x => allBytes codeByte x = true) (split notLanguageCode v).
Proof.
  assert (forall l,
            Forall (fun x => allBytes (fun a => negb (negb (codeByte a))) x
                             = true) l ->
            Forall (fun x => allBytes codeByte x = true) l) as Hw.
  { intros l Hl. eapply Forall_impl; [exact Hl|]. intros x.
    apply allBytes_weaken. intros a. now rewrite negb_involutive. }
  apply Hw. unfold split. destruct v as [|a v].
  - destruct (matchLen notLanguageCode ""); repeat constructor.
  - exact (split_class_pieces (fun a => negb (codeByte a)) _ 0%nat "" eq_refl).
Qed.

Lemma split_code_head (c rest : string) :
  c <> "" -> allBytes codeByte c = true -> startsIn codeByte rest = false ->
  exists more, split_from notLanguageCode 0 "" (c +:+ rest) = c :: more.
Proof.
  intros Hne Hc Hr.
  rewrite (split_from_run notLanguageCode codeByte);
    auto using notCode_first.
  change ("" +:+ c) with c.
  destruct rest as [|a rest]; [exists []; reflexivity|].
  cbn [startsIn] in Hr.
  assert (exists n, matchLen notLanguageCode (String a rest) = Some (S n))
    as [n Hn].
  { destruct (matchLen notLanguageCode (String a rest)) as [[|n]|] eqn:E.
    - apply matchLen_bounds in E as [_ E]. specialize (E eq_refl). lia.
    - eauto.
    - apply matchLen_class_none in E. unfold codeByte in Hr.
      rewrite Hr in E. discriminate. }
  cbn [split_from]. rewrite Hn. eauto.
Qed.

Lemma filter_nonEmpty_cons (c : string) (l : list string) :
  c <> "" ->
  filter (fun s => nonEmpty s) (c :: l) = c :: filter (fun s => nonEmpty s) l.
Proof.
  intros H. apply filter_cons_True. destruct c; [congruence|reflexivity].
Qed.

(** X2. The client language. Without an [accept-language] header there is
    none. A language that is there is not empty and consists of lower-case
    ASCII letters and hyphens. It is the first run of letters and hyphens of
    the header, in lower case: a header [junk ++ c ++ rest], with no letter
    and no hyphen in [junk], [c] made of them and [rest] not starting with
    one, gives [toLowerCase c]; a header without letters and hyphens, such
    as ["*"], gives none. *)
Theorem client_language_is_first_code :
  forall request,
    (Headers_get (headers request) "accept-language" = None ->
     getClientLanguage request = None)
    /\ (forall c,
          getClientLanguage request = Some c ->
          c <> "" /\ allBytes lowerCodeByte c = true)
    /\ (forall junk c rest,
          Headers_get (headers request) "accept-language"
            = Some (junk +:+ c +:+ rest) ->
          allBytes notCodeByte junk = true ->
          c <> "" -> allBytes codeByte c = true ->
          startsIn codeByte rest = false ->
          getClientLanguage request = Some (toLowerCase c))
    /\ (forall v,
          Headers_get (headers request) "accept-language" = Some v ->
          allBytes notCodeByte v = true ->
          getClientLanguage request = None).
Proof.
  intros request. split; [|split; [|split]].
  - intros H. unfold getClientLanguage. now rewrite H.
  - intros c. unfold getClientLanguage.
    destruct (Headers_get _ _) as [v|]; [|discriminate].
    pose proof (split_pieces_language v) as Hall.
    destruct (filter _ (split notLanguageCode v)) as [|c0 l] eqn:E;
      [discriminate|].
    intros [= <-].
    assert (c0 ∈ filter (fun s => nonEmpty s) (split notLanguageCode v))
      as Hin by (rewrite E; left).
    apply list_elem_of_filter in Hin as [Hne Hin].
    rewrite Forall_forall in Hall. apply Hall in Hin.
    split; [|now apply toLowerCase_code].
    apply toLowerCase_nonEmpty. intros ->. exact Hne.
  - intros junk c rest Hv Hj Hne Hc Hr. unfold getClientLanguage.
    rewrite Hv.
    assert (startsIn notCodeByte (c +:+ rest) = false) as Hstart.
    { destruct c as [|a c]; [congruence|]. cbn [allBytes] in Hc.
      apply andb_true_iff in Hc as [Ha _].
      change (String a c +:+ rest) with (String a (c +:+ rest)).
      cbn [startsIn]. unfold notCodeByte. now rewrite Ha. }
    destruct (split_code_head c rest Hne Hc Hr) as [more Hm].
    assert (exists l, filter (fun s => nonEmpty s)
                        (split notLanguageCode (junk +:+ c +:+ rest))
                      = c :: l) as [l ->]; [|reflexivity].
    destruct junk as [|a junk].
    + change ("" +:+ c +:+ rest) with (c +:+ rest). unfold split.
      destruct (c +:+ rest) as [|b t] eqn:Eb.
      { destruct c; [congruence|discriminate]. }
      rewrite Hm, filter_nonEmpty_cons by auto. eauto.
    + unfold split.
      change (String a junk +:+ c +:+ rest)
        with (String a (junk +:+ c +:+ rest)).
      cbv iota.
      change (String a (junk +:+ c +:+ rest))
        with (String a junk +:+ (c +:+ rest)).
      unfold notLanguageCode.
      rewrite split_from_class_run; auto.
      fold notLanguageCode. rewrite Hm.
      rewrite filter_cons_False by (cbn; auto).
      rewrite filter_nonEmpty_cons by auto. eauto.
  - intros v Hv Hall. unfold getClientLanguage. rewrite Hv.
    assert (filter (fun s => nonEmpty s) (split notLanguageCode v) = [])
      as ->; [|reflexivity].
    destruct v as [|a v]; [reflexivity|].
    unfold split. rewrite <- (append_empty_r (String a v)).
    unfold notLanguageCode. rewrite split_from_class_run; auto.
Qed.

Lemma client_language_is_first_code_witness :
  getClientLanguage (languageRequest "en-US,en;q=0.9") = Some "en-us"
  /\ getClientLanguage (languageRequest "*") = None
  /\ ("en-us" <> "" /\ allBytes lowerCodeByte "en-us" = true).
Proof.
  split; [|split].
  - apply (proj1 (proj2 (proj2 (client_language_is_first_code
             (languageRequest "en-US,en;q=0.9")))) "" "en-US" ",en;q=0.9");
      first [reflexivity | discriminate].
  - apply (proj2 (proj2 (proj2 (client_language_is_first_code
             (languageRequest "*")))) "*"); reflexivity.
  - apply (proj1 (proj2 (client_language_is_first_code
             (languageRequest "en-US,en;q=0.9")))).
    reflexivity.
Defined.

(** ** The client headers *)

Lemma Headers_get_filter (P : string * string -> bool) (h : Headers)
    (name : string) :
  (forall e, fst e = name -> P e = true) ->
  Headers_get (filter (fun e => P e) h) name = Headers_get h name.
Proof.
  intros HP. unfold Headers_get, Headers in *.
  rewrite list_filter_filter.
  rewrite (list_filter_iff _ (fun e => String.eqb (fst e) name)); auto.
  intros e. split; [tauto|]. intros H. split; auto.
  apply Is_true_true in H. apply String.eqb_eq in H.
  apply Is_true_true. auto.
Qed.

Lemma Headers_get_filter_none (P : string * string -> bool) (h : Headers)
    (name : string) :
  (forall e, fst e = name -> P e = false) ->
  Headers_get (filter (fun e => P e) h) name = None.
Proof.
  intros HP. unfold Headers_get, Headers in *.
  rewrite list_filter_filter.
  rewrite (list_filter_iff _ (fun e => False)).
  - induction h as [|e h IH]; [reflexivity|].
    now rewrite filter_cons_False by tauto.
  - intros e. split; [|tauto]. intros [H1 H2].
    apply Is_true_true in H1. apply String.eqb_eq in H1.
    apply Is_true_true in H2. rewrite HP in H2; auto. discriminate.
Qed.

(** X3. The client headers are the headers of the request whose name, in
    lower case, is [user-agent], [sec-ch-ua] or starts with [sec-ch-ua-], in
    the order of the request. Looking such a name up in them gives what the
    request gives; looking any other name up gives nothing: no cookie, no
    authorization and no forwarding header goes on to the collector. *)
Theorem client_headers_are_hints_only :
  forall request,
    (forall name value,
       (name, value) ∈ getClientHeaders request
       <-> (name, value) ∈ headers request
           /\ clientHint (toLowerCase name) = true)
    /\ getClientHeaders request `sublist_of` headers request
    /\ (forall name,
          clientHint (toLowerCase name) = true ->
          Headers_get (getClientHeaders request) name
          = Headers_get (headers request) name)
    /\ (forall name,
          clientHint (toLowerCase name) = false ->
          Headers_get (getClientHeaders request) name = None)
    /\ Headers_get (getClientHeaders request) "user-agent"
       = Headers_get (headers request) "user-agent"
    /\ Headers_get (getClientHeaders request) "sec-ch-ua"
       = Headers_get (headers request) "sec-ch-ua"
    /\ Headers_get (getClientHeaders request) "cookie" = None
    /\ Headers_get (getClientHeaders request) "authorization" = None
    /\ Headers_get (getClientHeaders request) "x-forwarded-for" = None.
Proof.
  intros request.
  assert (forall name,
            clientHint (toLowerCase name) = true ->
            Headers_get (getClientHeaders request) name
            = Headers_get (headers request) name) as Hkeep.
  { intros name H. unfold getClientHeaders.
    apply (Headers_get_filter (fun e => clientHint (toLowerCase (fst e)))).
    now intros e ->. }
  assert (forall name,
            clientHint (toLowerCase name) = false ->
            Headers_get (getClientHeaders request) name = None) as Hdrop.
  { intros name H. unfold getClientHeaders.
    apply (Headers_get_filter_none
             (fun e => clientHint (toLowerCase (fst e)))).
    now intros e ->. }
  split; [|split; [|split; [|split]]]; auto.
  - intros name value. unfold getClientHeaders, Headers.
    rewrite list_elem_of_filter. cbn [fst].
    change (String.eqb (toLowerCase name) "user-agent"
            || String.eqb (toLowerCase name) "sec-ch-ua"
            || String.prefix "sec-ch-ua-" (toLowerCase name))%bool
      with (clientHint (toLowerCase name)).
    rewrite Is_true_true. tauto.
  - apply sublist_filter.
  - repeat split; first [apply Hkeep | apply Hdrop]; reflexivity.
Qed.

Lemma client_headers_are_hints_only_witness :
  Headers_get (getClientHeaders (init_request browserInit)) "x-api-key" = None
  /\ Headers_get (getClientHeaders (init_request browserInit)) "user-agent"
     = Some "Deno/1.17".
Proof.
  destruct (client_headers_are_hints_only (init_request browserInit))
    as (_ & _ & Hkeep & Hdrop & _).
  split; [apply Hdrop|rewrite Hkeep]; reflexivity.
Defined.

(** ** The classes of a status *)

(** X4. The class of a status is told by its hundreds: success is 2xx,
    redirect is 3xx, server error is 5xx. No status is in two classes, and
    [response.ok] is [isSuccess]. *)
Theorem status_classes_by_hundreds :
  forall response,
    isSuccess response = (status response / 100 =? 2)
    /\ isRedirect response = (status response / 100 =? 3)
    /\ isServerError response = (status response / 100 =? 5)
    /\ (isSuccess response && isRedirect response = false)%bool
    /\ (isSuccess response && isServerError response = false)%bool
    /\ (isRedirect response && isServerError response = false)%bool
    /\ ok response = isSuccess response.
Proof.
  intros [st text]. unfold isSuccess, isRedirect, isServerError, ok.
  cbn [status].
  repeat split;
    repeat match goal with
           | |- context [?a <=? ?b] => destruct (Z.leb_spec a b)
           | |- context [?a =? ?b] => destruct (Z.eqb_spec a b)
           end; cbn [andb]; try reflexivity; exfalso;
    Z.div_mod_to_equations; lia.
Qed.

(** ** The digest *)

Lemma fromHex_byte (b : ascii) (rest : string) :
  fromHex (String (lowerHexDigit (code b / 16))
             (String (lowerHexDigit (code b mod 16)) rest))
  = option_map (cons b) (fromHex rest).
Proof.
  destruct b as [[] [] [] [] [] [] [] []];
    cbn [fromHex]; destruct (fromHex rest); reflexivity.
Qed.

Lemma lowerHex_digits (b : ascii) :
  (lowerHexByte (lowerHexDigit (code b / 16))
   && lowerHexByte (lowerHexDigit (code b mod 16)))%bool = true.
Proof. destruct b as [[] [] [] [] [] [] [] []]; reflexivity. Qed.

Lemma fromHex_lowerHex (bytes : list ascii) :
  fromHex (lowerHex bytes) = Some bytes.
Proof.
  induction bytes as [|b l IH]; [reflexivity|].
  cbn [lowerHex]. now rewrite fromHex_byte, IH.
Qed.

(** X5. The digest string. [toDigest] writes every byte of the SHA-1
    digest as two lower-case hexadecimal digits: the bytes can be read back
    from the string, the string is twice as long as the digest, and two
    messages get the same string exactly when their digests are equal. *)
Theorem digest_is_lower_hex :
  forall SHA1 msg,
    fromHex (toDigest SHA1 msg) = Some (SHA1 msg)
    /\ String.length (toDigest SHA1 msg) = (2 * length (SHA1 msg))%nat
    /\ allBytes lowerHexByte (toDigest SHA1 msg) = true
    /\ (forall msg',
          toDigest SHA1 msg = toDigest SHA1 msg' <-> SHA1 msg = SHA1 msg').
Proof.
  intros SHA1 msg. rewrite toDigest_lowerHex.
  split; [apply fromHex_lowerHex|]. split; [|split].
  - induction (SHA1 msg) as [|b l IH]; [reflexivity|].
    cbn [lowerHex String.length length]. rewrite IH. lia.
  - induction (SHA1 msg) as [|b l IH]; [reflexivity|].
    cbn [lowerHex allBytes]. rewrite IH, andb_true_r. apply lowerHex_digits.
  - intros msg'. rewrite toDigest_lowerHex. split; [|now intros ->].
    intros H. apply (f_equal fromHex) in H.
    rewrite !fromHex_lowerHex in H. now injection H.
Qed.

(** ** The form encoding *)

Lemma formDecode_byte (a : ascii) (t : string) :
  formDecode (formEncodeByte a +:+ t) = String a (formDecode t).
Proof. destruct a as [[] [] [] [] [] [] [] []]; reflexivity. Qed.

Lemma formEncodeByte_safe (a : ascii) :
  allBytes formSafe (formEncodeByte a) = true.
Proof. destruct a as [[] [] [] [] [] [] [] []]; reflexivity. Qed.

Lemma queryByte_safe (a : ascii) : formSafe a = true -> queryByte a = true.
Proof. unfold queryByte. now intros ->. Qed.

Lemma formDecode_formEncode (s : string) : formDecode (formEncode s) = s.
Proof.
  induction s as [|a s IH]; [reflexivity|].
  cbn [formEncode]. now rewrite formDecode_byte, IH.
Qed.

Lemma formEncode_safe (s : string) : allBytes formSafe (formEncode s) = true.
Proof.
  induction s as [|a s IH]; [reflexivity|].
  cbn [formEncode]. now rewrite allBytes_app, formEncodeByte_safe, IH.
Qed.

Lemma formSafe_plain (a : ascii) :
  formSafe a = true ->
  N.eqb (code a) 38 = false /\ N.eqb (code a) 61 = false
  /\ N.eqb (code a) 10 = false /\ N.eqb (code a) 32 = false
  /\ isAscii a = true.
Proof.
  destruct a as [[] [] [] [] [] [] [] []]; vm_compute;
    first [intros H; discriminate H | repeat split].
Qed.

(** Safe bytes go to the piece that is being read. *)
Lemma parsePairs_safe (x : string) : forall key piece s,
  allBytes formSafe x = true ->
  parsePairs key piece (x +:+ s) = parsePairs key (piece +:+ x) s.
Proof.
  induction x as [|a x IH]; intros key piece s Hx.
  - now rewrite append_empty_r.
  - cbn [allBytes] in Hx. apply andb_true_iff in Hx as [Ha Hx].
    apply formSafe_plain in Ha as (H38 & H61 & _).
    change (String a x +:+ s) with (String a (x +:+ s)).
    cbn [parsePairs]. rewrite H38, H61.
    destruct key; rewrite IH by auto; now rewrite append_assoc.
Qed.

Lemma parsePairs_pair (k v rest : string) :
  parsePairs None "" (formEncode k +:+ "=" +:+ formEncode v +:+ rest)
  = parsePairs (Some (formEncode k)) (formEncode v) rest.
Proof.
  rewrite parsePairs_safe by apply formEncode_safe.
  change ("=" +:+ formEncode v +:+ rest)
    with (String "=" (formEncode v +:+ rest)).
  cbn [parsePairs]. change (N.eqb (code "=") 38) with false.
  change (N.eqb (code "=") 61) with true. cbv iota.
  rewrite parsePairs_safe by apply formEncode_safe. reflexivity.
Qed.

Lemma parsePairs_query (q : Params) :
  q <> [] ->
  parsePairs None ""
    (join "&" (map (fun p => formEncode (fst p) +:+ "=" +:+ formEncode (snd p))
                   q))
  = map (fun p => (formEncode (fst p), formEncode (snd p))) q.
Proof.
  induction q as [|[k v] q IH]; [congruence|]. intros _.
  destruct q as [|p q].
  - cbn [map join fst snd].
    rewrite <- (append_empty_r (formEncode v)) at 1.
    rewrite parsePairs_pair. reflexivity.
  - cbn [map] in *. rewrite join_cons2. cbn [fst snd].
    rewrite !append_assoc. rewrite parsePairs_pair.
    change ("&" +:+ ?x) with (String "&" x).
    cbn [parsePairs]. change (N.eqb (code "&") 38) with true. cbv iota.
    cbn [closePair]. f_equal. apply IH. discriminate.
Qed.

Lemma query_nonEmpty (q : Params) :
  q <> [] -> URLSearchParams_toString q <> "".
Proof.
  destruct q as [|[k v] q]; [congruence|]. intros _ H.
  apply (f_equal String.length) in H. unfold URLSearchParams_toString in H.
  destruct q as [|p q]; cbn [map join fst snd] in H;
    rewrite !length_append in H; cbn [String.length] in H; lia.
Qed.

Lemma allBytes_join (p : ascii -> bool) (sep : string) (l : list string) :
  allBytes p sep = true ->
  Forall (fun x => allBytes p x = true) l ->
  allBytes p (join sep l) = true.
Proof.
  intros Hsep. induction 1 as [|x l Hx Hl IH]; [reflexivity|].
  destruct l as [|y l]; [exact Hx|].
  rewrite join_cons2, !allBytes_app, Hx, Hsep, IH. reflexivity.
Qed.

Lemma parseQuery_toString (q : Params) :
  parseQuery (URLSearchParams_toString q) = q.
Proof.
  destruct q as [|p q]; [reflexivity|].
  pose proof (query_nonEmpty (p :: q) ltac:(discriminate)) as Hne.
  unfold parseQuery.
  destruct (URLSearchParams_toString (p :: q)) as [|a t] eqn:E;
    [congruence|].
  rewrite <- E. unfold URLSearchParams_toString.
  rewrite parsePairs_query by discriminate.
  rewrite map_map. cbn [fst snd].
  rewrite <- (map_id (p :: q)) at 2. apply map_ext.
  intros [k v]. cbn [fst snd]. now rewrite !formDecode_formEncode.
Qed.

(** X6. The query string. The form encoding of a string decodes to that
    string. Parsing the query string of a record of parameters gives the
    record back, keys and values in order, so that different records have
    different query strings. A query string consists of ASCII letters,
    digits, [*], [-], [.], [_], [+], [%], [&] and [=] only. *)
Theorem query_string_round_trip :
  (forall s, formDecode (formEncode s) = s)
  /\ (forall q, parseQuery (URLSearchParams_toString q) = q)
  /\ (forall q q',
        URLSearchParams_toString q = URLSearchParams_toString q' -> q = q')
  /\ (forall q, allBytes queryByte (URLSearchParams_toString q) = true).
Proof.
  split; [exact formDecode_formEncode|].
  split; [exact parseQuery_toString|]. split.
  - intros q q' H. apply (f_equal parseQuery) in H.
    now rewrite !parseQuery_toString in H.
  - intros q. unfold URLSearchParams_toString.
    apply allBytes_join; [reflexivity|].
    apply Forall_map, Forall_forall. intros [k v] _. cbn [fst snd].
    rewrite !allBytes_app.
    rewrite !(allBytes_weaken formSafe queryByte _ (queryByte_safe)
                (formEncode_safe _)).
    reflexivity.
Qed.

Lemma query_string_round_trip_witness :
  parseQuery "v=2&dt=x+%2F+case&ep.my_flag=true"
  = [("v", "2"); ("dt", "x / case"); ("ep.my_flag", "true")].
Proof.
  destruct query_string_round_trip as (_ & Hparse & _).
  exact (Hparse [("v", "2"); ("dt", "x / case"); ("ep.my_flag", "true")]).
Defined.

(** ** The values of the short parameters *)

Lemma elem_of_map_fst {A B} (l : list (A * B)) (k : A) (v : B) :
  (k, v) ∈ l -> k ∈ map fst l.
Proof.
  induction l as [|[k0 v0] l IH]; intros H; [inversion H|].
  cbn [map fst]. apply elem_of_cons in H as [[= -> ->]|H]; [left|right; auto].
Qed.

Lemma get_addShortParams_other (fields : list (string * Primitive))
    (name : string) : forall q,
  name ∉ map fst fields ->
  get (addShortParams q fields) name = get q name.
Proof.
  unfold addShortParams.
  induction fields as [|[n v] fields IH]; intros q Hn; [reflexivity|].
  cbn [map fst] in Hn. apply not_elem_of_cons in Hn as [Hne Hn].
  cbn [fold_left fst snd]. rewrite IH by auto.
  rewrite maybeAddShortParam_spec. destruct (present v); auto.
  apply get_assign_ne. congruence.
Qed.

Lemma get_addShortParams_in (fields : list (string * Primitive))
    (name : string) (value : Primitive) : forall q,
  NoDup (map fst fields) -> (name, value) ∈ fields ->
  get (addShortParams q fields) name
  = if present value then Some (shortValue value) else get q name.
Proof.
  induction fields as [|[n v] fields IH]; intros q Hnd Hin.
  - inversion Hin.
  - cbn [map fst] in Hnd. apply NoDup_cons in Hnd as [Hn Hnd].
    apply elem_of_cons in Hin as [Heq|Hin].
    + injection Heq as <- <-.
      change (addShortParams q ((name, value) :: fields))
        with (addShortParams (maybeAddShortParam q name value) fields).
      rewrite get_addShortParams_other by auto.
      rewrite maybeAddShortParam_spec. destruct (present value); auto.
      apply get_assign_eq.
    + change (addShortParams q ((n, v) :: fields))
        with (addShortParams (maybeAddShortParam q n v) fields).
      rewrite IH by auto. destruct (present value); auto.
      rewrite maybeAddShortParam_spec. destruct (present v); auto.
      apply get_assign_ne. intros ->. apply Hn.
      apply elem_of_map_fst in Hin. exact Hin.
Qed.

Lemma customKey_prefix sc prefix name value :
  String.prefix prefix (customKey sc prefix name value) = true.
Proof. apply prefix_append. Qed.

(** A custom parameter never writes a key without its prefix. *)
Lemma get_addCustomParams_other sc prefix (entries : list (string * Primitive))
    (name : string) : forall q,
  String.prefix prefix name = false ->
  get (addCustomParams sc prefix q entries) name = get q name.
Proof.
  unfold addCustomParams.
  induction entries as [|[n v] entries IH]; intros q Hp; [reflexivity|].
  cbn [fold_left fst snd]. rewrite IH by auto.
  rewrite maybeAddCustomEventParam_spec. destruct (defined v); auto.
  apply get_assign_ne. intros <-. rewrite customKey_prefix in Hp.
  discriminate.
Qed.

Lemma get_queryParams_common sc r sess name value :
  (name, value) ∈ commonFields r sess ->
  get (queryParams sc r sess) name
  = if present value then Some (shortValue value) else None.
Proof.
  intros Hin.
  pose proof names_NoDup as Hnd.
  apply NoDup_app in Hnd as (Hc & Hce & He).
  assert (name ∈ commonNames) as Hname.
  { apply elem_of_map_fst in Hin. exact Hin. }
  destruct (names_no_prefix name) as [Hep Hup].
  { apply elem_of_app. now left. }
  rewrite queryParams_unfold, get_addCustomParams_other by exact Hup.
  destruct (event r) as [ev|].
  - rewrite get_addShortParams_other by (exact (Hce name Hname)).
    rewrite get_addCustomParams_other by exact Hep.
    now rewrite (get_addShortParams_in _ name value) by auto.
  - now rewrite (get_addShortParams_in _ name value) by auto.
Qed.

Lemma get_queryParams_event sc r sess ev name value :
  event r = Some ev ->
  (name, value) ∈ eventFields r sess ev ->
  get (queryParams sc r sess) name
  = if present value then Some (shortValue value) else None.
Proof.
  intros Hev Hin.
  pose proof names_NoDup as Hnd.
  apply NoDup_app in Hnd as (Hc & Hce & He).
  assert (name ∈ eventNames) as Hname.
  { apply elem_of_map_fst in Hin. exact Hin. }
  destruct (names_no_prefix name) as [Hep Hup].
  { apply elem_of_app. now right. }
  rewrite queryParams_unfold, get_addCustomParams_other by exact Hup.
  rewrite Hev.
  rewrite (get_addShortParams_in _ name value) by auto.
  destruct (present value); auto.
  rewrite get_addCustomParams_other by exact Hep.
  rewrite get_addShortParams_other; [reflexivity|].
  intros Hin'. exact (Hce name Hin' Hname).
Qed.

Lemma get_queryParams_en sc r sess :
  get (queryParams sc r sess) "en" = event_name <$> event r.
Proof.
  destruct (event r) as [ev|] eqn:Hev.
  - apply (get_queryParams_event sc r sess ev "en" (PString _) Hev). left.
  - rewrite queryParams_unfold, Hev.
    rewrite get_addCustomParams_other by reflexivity.
    rewrite get_addShortParams_other; [reflexivity|].
    apply (bool_decide_unpack _). vm_compute. exact I.
Qed.

Lemma short_parameters_values sc r sess :
  get (queryParams sc r sess) "v" = Some "2"
  /\ get (queryParams sc r sess) "tid" = measurementId r
  /\ get (queryParams sc r sess) "cid" = client_id (client r)
  /\ get (queryParams sc r sess) "_uip" = client_ip (client r)
  /\ get (queryParams sc r sess) "dl" = Some (page_location (page r))
  /\ get (queryParams sc r sess) "en" = event_name <$> event r.
Proof.
  assert (forall name o,
            (name, ofString o) ∈ commonFields r sess ->
            get (queryParams sc r sess) name = o) as Hstring.
  { intros name o Hin. rewrite (get_queryParams_common sc r sess name _ Hin).
    now destruct o. }
  split; [|split; [|split; [|split; [|split]]]].
  - apply (get_queryParams_common sc r sess "v" (PNumber 2)). left.
  - apply Hstring. unfold commonFields. set_solver.
  - apply Hstring. unfold commonFields. set_solver.
  - apply Hstring. unfold commonFields. set_solver.
  - apply (get_queryParams_common sc r sess "dl" (PString _)).
    unfold commonFields. set_solver.
  - apply get_queryParams_en.
Qed.

(** X7. The short parameters of the query have the values of their
    fields, whatever the custom parameters are called: a field that is
    present stands under its key with its coerced value, a field that is
    absent has no key. So [v] is 2, [tid] is the measurement id, [cid] the
    client id, [_uip] the client IP, [dl] the location and [dt] the title of
    the page, [_s] the hit count of the session and [en] the name of the
    primary event. *)
Theorem short_parameters_are_not_overwritten :
  forall snakeCase r sess,
    (forall name value,
       (name, value) ∈ commonFields r sess ->
       get (queryParams snakeCase r sess) name
       = if present value then Some (shortValue value) else None)
    /\ (forall ev name value,
          event r = Some ev ->
          (name, value) ∈ eventFields r sess ev ->
          get (queryParams snakeCase r sess) name
          = if present value then Some (shortValue value) else None)
    /\ get (queryParams snakeCase r sess) "v" = Some "2"
    /\ get (queryParams snakeCase r sess) "tid" = measurementId r
    /\ get (queryParams snakeCase r sess) "cid" = client_id (client r)
    /\ get (queryParams snakeCase r sess) "_uip" = client_ip (client r)
    /\ get (queryParams snakeCase r sess) "dl"
       = Some (page_location (page r))
    /\ get (queryParams snakeCase r sess) "dt" = Some (page_title (page r))
    /\ get (queryParams snakeCase r sess) "_s"
       = (Z_to_string ∘ session_hitCount) <$> sess
    /\ get (queryParams snakeCase r sess) "en" = event_name <$> event r.
Proof.
  intros sc r sess.
  assert (forall name o,
            (name, ofString o) ∈ commonFields r sess ->
            get (queryParams sc r sess) name = o) as Hstring.
  { intros name o Hin. rewrite (get_queryParams_common sc r sess name _ Hin).
    now destruct o. }
  split; [exact (get_queryParams_common sc r sess)|].
  split; [intros ev name value; apply get_queryParams_event|].
  split; [|split; [|split; [|split; [|split; [|split; [|split]]]]]].
  - apply (get_queryParams_common sc r sess "v" (PNumber 2)). left.
  - apply Hstring. unfold commonFields. set_solver.
  - apply Hstring. unfold commonFields. set_solver.
  - apply Hstring. unfold commonFields. set_solver.
  - apply (get_queryParams_common sc r sess "dl" (PString _)).
    unfold commonFields. set_solver.
  - apply (get_queryParams_common sc r sess "dt" (PString _)).
    unfold commonFields. set_solver.
  - rewrite (get_queryParams_common sc r sess "_s"
               (ofNumber (session_hitCount <$> sess))).
    + now destruct sess.
    + unfold commonFields. set_solver.
  - destruct (event r) as [ev|] eqn:Hev.
    + apply (get_queryParams_event sc r sess ev "en" (PString _) Hev). left.
    + rewrite queryParams_unfold, Hev.
      rewrite get_addCustomParams_other by reflexivity.
      rewrite get_addShortParams_other; [reflexivity|].
      apply (bool_decide_unpack _). vm_compute. exact I.
Qed.

Lemma short_parameters_are_not_overwritten_witness :
  get (queryParams Imported.snakeCase exampleReport (Some exampleSession))
      "tid" = Some "G-EXAMPLE"
  /\ get (queryParams Imported.snakeCase exampleReport (Some exampleSession))
         "_ss" = Some "1".
Proof.
  destruct (short_parameters_are_not_overwritten Imported.snakeCase
              exampleReport (Some exampleSession)) as (Hc & He & _).
  split.
  - apply (Hc "tid" (PString "G-EXAMPLE")). unfold commonFields.
    right; left.
  - apply (He exampleEvent "_ss" (PBoolean true)); [reflexivity|].
    do 3 right; left.
Defined.

(** ** No key twice *)

Lemma NoDup_addKey (ks : list string) (k : string) :
  NoDup ks -> NoDup (addKey ks k).
Proof.
  intros H. unfold addKey. destruct (decide (k ∈ ks)); auto.
  apply NoDup_app. repeat split; auto.
  - intros x Hx Hin. apply list_elem_of_singleton in Hin. congruence.
  - apply NoDup_singleton.
Qed.

Lemma NoDup_fold_addKey (l : list string) : forall acc,
  NoDup acc -> NoDup (fold_left addKey l acc).
Proof.
  induction l as [|k l IH]; intros acc H; [exact H|].
  cbn [fold_left]. apply IH, NoDup_addKey, H.
Qed.

Lemma NoDup_keys_addShortParams fields q :
  NoDup (keys q) -> NoDup (keys (addShortParams q fields)).
Proof. rewrite keys_addShortParams. apply NoDup_fold_addKey. Qed.

Lemma NoDup_keys_addCustomParams sc prefix entries q :
  NoDup (keys q) -> NoDup (keys (addCustomParams sc prefix q entries)).
Proof. rewrite keys_addCustomParams. apply NoDup_fold_addKey. Qed.

Lemma get_elem_of (q : Params) (k v : string) :
  NoDup (keys q) -> (k, v) ∈ q -> get q k = Some v.
Proof.
  induction q as [|[k0 v0] q IH]; intros Hnd Hin; [inversion Hin|].
  cbn [keys map fst] in Hnd. apply NoDup_cons in Hnd as [Hk Hnd].
  cbn [get]. apply elem_of_cons in Hin as [Heq|Hin].
  - injection Heq as <- <-. now rewrite String.eqb_refl.
  - destruct (String.eqb_spec k0 k) as [->|Hne]; [|auto].
    exfalso. apply Hk. apply elem_of_map_fst in Hin. exact Hin.
Qed.

Lemma elem_of_get (q : Params) (k v : string) :
  get q k = Some v -> (k, v) ∈ q.
Proof.
  induction q as [|[k0 v0] q IH]; [discriminate|]. cbn [get].
  destruct (String.eqb_spec k0 k) as [->|Hne].
  - intros [= ->]. left.
  - intros H. right. auto.
Qed.

Lemma secondaryParams_eq sc ev :
  eventParams sc (Some ev) = Ok (secondaryParams sc ev).
Proof. reflexivity. Qed.

(** X8. No key stands twice in the query parameters, nor in the
    parameters of a secondary event; a pair is in the query parameters
    exactly when looking its key up gives its value. *)
Theorem parameter_keys_are_distinct :
  forall snakeCase,
    (forall r sess, NoDup (keys (queryParams snakeCase r sess)))
    /\ (forall e p, eventParams snakeCase e = Ok p -> NoDup (keys p))
    /\ (forall r sess k v,
          (k, v) ∈ queryParams snakeCase r sess
          <-> get (queryParams snakeCase r sess) k = Some v).
Proof.
  intros sc.
  assert (forall r sess, NoDup (keys (queryParams sc r sess))) as Hq.
  { intros r sess. rewrite queryParams_unfold.
    apply NoDup_keys_addCustomParams. destruct (event r).
    - apply NoDup_keys_addShortParams, NoDup_keys_addCustomParams,
        NoDup_keys_addShortParams, NoDup_nil_2.
    - apply NoDup_keys_addShortParams, NoDup_nil_2. }
  split; [exact Hq|]. split.
  - intros [ev|] p; [|discriminate]. rewrite secondaryParams_eq.
    intros [= <-]. apply NoDup_keys_addCustomParams.
    repeat constructor. intros H. inversion H.
  - intros r sess k v. split; [apply get_elem_of, Hq|apply elem_of_get].
Qed.

Lemma parameter_keys_are_distinct_witness :
  get (queryParams Imported.snakeCase exampleReport (Some exampleSession))
      "epn.my_metric" = Some "42".
Proof.
  apply (proj2 (proj2 (parameter_keys_are_distinct Imported.snakeCase))).
  vm_compute. set_solver.
Defined.

(** ** The parameters of a secondary event *)

Lemma keys_secondaryParams sc ev :
  keys (secondaryParams sc ev)
  = "en" :: firstOccurrences (customKeys sc "ep" (eventCustomParams ev)).
Proof.
  unfold secondaryParams. rewrite keys_addCustomParams.
  change (keys (maybeAddShortParam [] "en" (PString (event_name ev))))
    with ["en"].
  rewrite fold_addKey_disjoint; [reflexivity|].
  intros k Hk Hin. apply customKeys_prefix in Hk.
  apply list_elem_of_singleton in Hin. subst k. discriminate.
Qed.

Lemma eventParamsList_length sc (l : list (option Event)) (ps : list Params) :
  eventParamsList sc l = Ok ps -> length ps = length l.
Proof.
  revert ps. induction l as [|e l IH]; intros ps.
  - intros [= <-]. reflexivity.
  - cbn [eventParamsList]. destruct (eventParams sc e); [|discriminate].
    destruct (eventParamsList sc l) as [ps'|]; [|discriminate].
    intros [= <-]. cbn [length]. f_equal. auto.
Qed.

Lemma eventParamsList_Forall2 sc (l : list (option Event)) (ps : list Params) :
  eventParamsList sc l = Ok ps ->
  Forall2 (fun e p => exists ev, e = Some ev /\ p = secondaryParams sc ev)
          l ps.
Proof.
  revert ps. induction l as [|e l IH]; intros ps.
  - intros [= <-]. constructor.
  - cbn [eventParamsList]. destruct e as [ev|]; [|discriminate].
    rewrite secondaryParams_eq.
    destruct (eventParamsList sc l) as [ps'|]; [|discriminate].
    intros [= <-]. constructor; eauto.
Qed.

(** X9. The parameters of a secondary event start with its name under
    [en], followed by the custom keys of its category, its label and its
    parameters, each where it came first. [eventParamsList] gives one
    record for every secondary event, in order, and the body of the request
    is these records, serialized one a line: one line less than there are
    events. *)
Theorem secondary_event_parameters :
  forall snakeCase,
    (forall ev,
       exists p,
         eventParams snakeCase (Some ev) = Ok p
         /\ keys p
            = "en" :: firstOccurrences
                        (customKeys snakeCase "ep" (eventCustomParams ev))
         /\ get p "en" = Some (event_name ev)
         /\ exists rest, p = ("en", event_name ev) :: rest)
    /\ (forall l ps,
          eventParamsList snakeCase l = Ok ps ->
          length ps = length l
          /\ Forall2 (fun e p => eventParams snakeCase e = Ok p) l ps)
    /\ (forall env r w ps,
          eventParamsList snakeCase (slice1 (events r)) = Ok ps ->
          (transmit snakeCase env r w).1.2
          = upload env r w (requestOf snakeCase r w ps)
          /\ request_body (requestOf snakeCase r w ps)
             = join (String (ascii_of_N 10) "")
                 (map URLSearchParams_toString ps)
          /\ length ps = pred (length (events r))).
Proof.
  intros sc. split; [|split].
  - intros ev. exists (secondaryParams sc ev).
    split; [reflexivity|]. split; [apply keys_secondaryParams|].
    assert (get (secondaryParams sc ev) "en" = Some (event_name ev)) as Hen.
    { unfold secondaryParams.
      now rewrite get_addCustomParams_other by reflexivity. }
    split; [exact Hen|].
    pose proof (keys_secondaryParams sc ev) as Hk.
    destruct (secondaryParams sc ev) as [|[k v] rest]; [discriminate|].
    cbn [keys map fst] in Hk. injection Hk as -> _.
    cbn [get] in Hen. rewrite String.eqb_refl in Hen. injection Hen as ->.
    eauto.
  - intros l ps H. split; [now apply (eventParamsList_length sc)|].
    apply eventParamsList_Forall2 in H.
    eapply Forall2_impl; [exact H|].
    intros e p (ev & -> & ->). reflexivity.
  - intros env r w ps H. unfold transmit. rewrite H.
    split; [reflexivity|]. split; [reflexivity|].
    apply eventParamsList_length in H. rewrite H.
    now destruct (events r).
Qed.

Lemma secondary_event_parameters_witness :
  exists ps,
    eventParamsList Imported.snakeCase [Some exampleEvent] = Ok ps
    /\ length ps = 1%nat
    /\ map URLSearchParams_toString ps
       = ["en=page_view&ep.event_category=docs&epn.my_metric=42"
          +:+ "&ep.my_flag=true"].
Proof.
  eexists. split; [reflexivity|]. split.
  - apply (proj1 (proj2 (secondary_event_parameters Imported.snakeCase))
             [Some exampleEvent]).
    reflexivity.
  - vm_compute. reflexivity.
Defined.

(** ** What [send] logs *)

Lemma upload_console env r w request :
  console (upload env r w request) = consoleAfter env r w request.
Proof.
  unfold upload, consoleAfter, uploadedLine, uploadFailedLine.
  destruct (fetch env request) as [response duration|err]; [|reflexivity].
  unfold SLOW_UPLOAD_THRESHOLD.
  destruct (Z.eqb_spec (status response) 204) as [E|E];
    destruct (Z.leb_spec 1000 duration) as [D|D];
    destruct (Z.ltb_spec duration 1000) as [D'|D']; try lia;
    cbn [negb orb andb];
    destruct (session r) as [ref|]; try reflexivity;
    destruct (ok response); reflexivity.
Qed.

Lemma consoleAfter_frame env r r' w request :
  events r' = events r ->
  consoleAfter env r' w request = consoleAfter env r w request.
Proof. unfold consoleAfter. now intros ->. Qed.

(** The console after a call of [send]. *)
Lemma send_console sc SHA1 env r w :
  (network (send sc SHA1 env r w).1.2 = network w
   /\ (console (send sc SHA1 env r w).1.2 = console w
       \/ console (send sc SHA1 env r w).1.2
          = (console w ++ [noMeasurementIdWarning])%list
       \/ console (send sc SHA1 env r w).1.2
          = (console w ++ [noClientWarning])%list))
  \/ (exists request,
        network (send sc SHA1 env r w).1.2 = (network w ++ [request])%list
        /\ console (send sc SHA1 env r w).1.2 = consoleAfter env r w request
        /\ (send sc SHA1 env r w).2 = None).
Proof.
  destruct (send_cases sc SHA1 env r w)
    as [Hev|Hev Hm|m Hev Hm Hne Hc|m r' Hev Hm Hne Hc];
    try (left; split; [reflexivity|]; auto; fail).
  destruct (transmit_cases sc env r' w) as [(err & _ & ->)|(ps & _ & ->)].
  - left. split; [reflexivity|]. now left.
  - right. exists (requestOf sc r' w ps). cbn [fst snd].
    split; [apply upload_network|]. split; [|reflexivity].
    rewrite upload_console. apply consoleAfter_frame.
    now apply withClientId_frame in Hc.
Qed.

(** X10. What [send] logs. A call logs one line at most, and a line it
    logs starts with ["GA4: "]. After a request was handed to [fetch]:
    nothing is logged for a status 204 that came in under 1000 ms; any
    other response is logged with the number of events, the duration, the
    status and the status text; and when [fetch] throws, the failure is
    logged, no session changes and [send] throws nothing. When no request
    was sent, the line, if there is one, is one of the two warnings. *)
Theorem send_logs_the_outcome :
  forall snakeCase SHA1 env r w,
    (forall request,
       network (send snakeCase SHA1 env r w).1.2
         = (network w ++ [request])%list ->
       console (send snakeCase SHA1 env r w).1.2
       = match fetch env request with
         | Resolved response duration =>
             if (status response =? 204) && (duration <? 1000)
             then console w
             else (console w
                   ++ [uploadedLine (length (events r)) response duration])%list
         | Rejected err => (console w ++ [uploadFailedLine err])%list
         end
       /\ (send snakeCase SHA1 env r w).2 = None
       /\ (forall err,
             fetch env request = Rejected err ->
             heap (send snakeCase SHA1 env r w).1.2 = heap w))
    /\ (network (send snakeCase SHA1 env r w).1.2 = network w ->
        console (send snakeCase SHA1 env r w).1.2 = console w
        \/ console (send snakeCase SHA1 env r w).1.2
           = (console w ++ [noMeasurementIdWarning])%list
        \/ console (send snakeCase SHA1 env r w).1.2
           = (console w ++ [noClientWarning])%list)
    /\ (exists lines,
          console (send snakeCase SHA1 env r w).1.2
            = (console w ++ lines)%list
          /\ (length lines <= 1)%nat
          /\ Forall (fun line => String.prefix "GA4: " line = true) lines).
Proof.
  intros sc SHA1 env r w.
  pose proof (send_console sc SHA1 env r w) as Hc.
  split; [|split].
  - intros request Hnet.
    destruct Hc as [[Hn _]|(request' & Hn & Hcon & Hno)].
    { rewrite Hn in Hnet. now apply app_singleton_neq in Hnet. }
    rewrite Hn in Hnet. apply app_inv_head in Hnet. injection Hnet as ->.
    split; [exact Hcon|]. split; [exact Hno|].
    intros err Herr.
    destruct (send_effect sc SHA1 env r w)
      as [[_ Hh]|(m & r' & ps & _ & _ & _ & _ & _ & Hn' & Hh)]; [exact Hh|].
    rewrite Hn in Hn'. apply app_inv_head in Hn'. injection Hn' as Hreq.
    rewrite Hh, <- Hreq. unfold heapAfter. now rewrite Herr.
  - intros Hnet. destruct Hc as [[_ Hcon]|(request & Hn & _)]; [exact Hcon|].
    rewrite Hn in Hnet. symmetry in Hnet.
    now apply app_singleton_neq in Hnet.
  - destruct Hc as [[_ [Hcon|[Hcon|Hcon]]]|(request & _ & Hcon & _)].
    + exists []. rewrite app_nil_r. split; [exact Hcon|].
      split; [cbn; lia|constructor].
    + eexists. split; [exact Hcon|]. split; [cbn; lia|].
      repeat constructor.
    + eexists. split; [exact Hcon|]. split; [cbn; lia|].
      repeat constructor.
    + rewrite Hcon. unfold consoleAfter.
      destruct (fetch env request) as [response duration|err].
      * destruct ((status response =? 204)
                  && (duration <? SLOW_UPLOAD_THRESHOLD)).
        -- exists []. rewrite app_nil_r. split; [reflexivity|].
           split; [cbn; lia|constructor].
        -- eexists. split; [reflexivity|]. split; [cbn; lia|].
           repeat constructor. apply prefix_append.
      * eexists. split; [reflexivity|]. split; [cbn; lia|].
        repeat constructor.
Qed.

Lemma send_logs_the_outcome_witness :
  console (send Imported.snakeCase Imported.SHA1 offlineEnv exampleReport
             exampleWorld).1.2
  = ["GA4: Upload failed: TypeError: error sending request"]
  /\ console (send Imported.snakeCase Imported.SHA1 slowEnv exampleReport
                exampleWorld).1.2
     = ["GA4: 1 events uploaded in 1500ms. Response: 200 OK"]
  /\ console (send Imported.snakeCase Imported.SHA1 exampleEnv exampleReport
                exampleWorld).1.2 = [].
Proof.
  split; [|split].
  - apply (proj1 (send_logs_the_outcome Imported.snakeCase Imported.SHA1
                    offlineEnv exampleReport exampleWorld) exampleRequest).
    vm_compute. reflexivity.
  - apply (proj1 (send_logs_the_outcome Imported.snakeCase Imported.SHA1
                    slowEnv exampleReport exampleWorld) exampleRequest).
    vm_compute. reflexivity.
  - apply (proj1 (send_logs_the_outcome Imported.snakeCase Imported.SHA1
                    exampleEnv exampleReport exampleWorld) exampleRequest).
    vm_compute. reflexivity.
Defined.

(** ** When [send] throws *)

Lemma eventParamsList_throw sc (l : list (option Event)) :
  forallb truthy l = false ->
  eventParamsList sc l
  = Throw (TypeError "Cannot read properties of null (reading 'name')").
Proof.
  induction l as [|[ev|] l IH]; cbn [forallb truthy andb].
  - discriminate.
  - intros H. cbn [eventParamsList eventParams]. now rewrite IH.
  - reflexivity.
Qed.

(** X11. [send] throws in one case: some event is truthy, the measurement
    id is resolved and not empty, the client has an id or an IP, and an
    entry of [events] after the first is [null]. What it throws is a
    [TypeError], before anything is sent or logged: the world is as it was,
    while the report has its measurement id and client id resolved. *)
Theorem send_throws_on_null_secondary_event :
  forall snakeCase SHA1 env r w,
    ((send snakeCase SHA1 env r w).2 <> None
     <-> existsb truthy (events r) = true
         /\ (exists m, resolvedMeasurementId env r = Some m /\ m <> "")
         /\ (client_id (client r) <> None \/ client_ip (client r) <> None)
         /\ forallb truthy (slice1 (events r)) = false)
    /\ ((send snakeCase SHA1 env r w).2 <> None ->
        (send snakeCase SHA1 env r w).2
        = Some (TypeError "Cannot read properties of null (reading 'name')")
        /\ (send snakeCase SHA1 env r w).1.2 = w
        /\ measurementId (send snakeCase SHA1 env r w).1.1
           = resolvedMeasurementId env r
        /\ client_id (client (send snakeCase SHA1 env r w).1.1) <> None).
Proof.
  intros sc SHA1 env r w.
  assert (forall m, withClientId SHA1 r m <> None
                    <-> client_id (client r) <> None
                        \/ client_ip (client r) <> None) as Hwith.
  { intros m. unfold withClientId.
    destruct (client_id (client r)), (client_ip (client r));
      split; intros H; try discriminate; auto; destruct H; congruence. }
  destruct (send_cases sc SHA1 env r w)
    as [Hev|Hev Hm|m Hev Hm Hne Hc|m r' Hev Hm Hne Hc].
  - split; [split|]; cbn [snd]; try congruence.
    intros (H & _). congruence.
  - split; [split|]; cbn [snd]; try congruence.
    intros (_ & (m & Hm' & Hne) & _). destruct Hm; congruence.
  - split; [split|]; cbn [snd]; try congruence.
    intros (_ & _ & H & _). apply (Hwith m) in H. congruence.
  - pose proof (withClientId_frame SHA1 r m r' Hc)
      as (_ & He & _ & _ & _ & Hmid & _).
    assert (client_id (client r') <> None) as Hid.
    { unfold withClientId in Hc.
      destruct (client_id (client r)) eqn:E1;
        [|destruct (client_ip (client r))]; try discriminate;
        injection Hc as <-; cbn; congruence. }
    destruct (forallb truthy (slice1 (events r))) eqn:Ht.
    + destruct (eventParamsList_total sc _ Ht) as [ps Hps].
      unfold transmit. rewrite He, Hps. cbn [snd].
      split; [split|]; try congruence. intros (_ & _ & _ & H). discriminate.
    + unfold transmit. rewrite He, (eventParamsList_throw sc _ Ht).
      cbn [fst snd]. split; [split|].
      * intros _. repeat split; eauto.
        apply (Hwith m). congruence.
      * discriminate.
      * intros _. repeat split; auto. congruence.
Qed.

Lemma send_throws_on_null_secondary_event_witness :
  (send Imported.snakeCase Imported.SHA1 exampleEnv exampleBroken
     exampleWorld).2
  = Some (TypeError "Cannot read properties of null (reading 'name')")
  /\ (send Imported.snakeCase Imported.SHA1 exampleEnv exampleBroken
        exampleWorld).1.2 = exampleWorld.
Proof.
  destruct (send_throws_on_null_secondary_event Imported.snakeCase
              Imported.SHA1 exampleEnv exampleBroken exampleWorld)
    as [Hiff Hthen].
  assert ((send Imported.snakeCase Imported.SHA1 exampleEnv exampleBroken
             exampleWorld).2 <> None) as H.
  { apply Hiff. split; [reflexivity|]. split.
    - exists "G-EXAMPLE". split; [reflexivity|discriminate].
    - split; [right; discriminate|reflexivity]. }
  destruct (Hthen H) as (H1 & H2 & _). split; assumption.
Defined.

(** ** What [send] does to the report *)

Lemma send_result_report sc SHA1 env r w :
  (send sc SHA1 env r w).1.1
  = if existsb truthy (events r)
    then match resolvedMeasurementId env r with
         | Some m =>
             if nonEmpty m
             then default (set_measurementId r (Some m))
                    (withClientId SHA1 r m)
             else set_measurementId r (Some m)
         | None => set_measurementId r None
         end
    else r.
Proof.
  destruct (send_cases sc SHA1 env r w)
    as [Hev|Hev Hm|m Hev Hm Hne Hc|m r' Hev Hm Hne Hc]; cbn [fst].
  - now rewrite Hev.
  - rewrite Hev. destruct Hm as [->| ->]; reflexivity.
  - rewrite Hev, Hm, Hc. destruct m; [congruence|reflexivity].
  - rewrite Hev, Hm, Hc.
    assert (nonEmpty m = true) as -> by (destruct m; [congruence|reflexivity]).
    destruct (transmit_cases sc env r' w) as [(e & _ & ->)|(ps & _ & ->)];
      reflexivity.
Qed.

(** X12. The report after [send]. Events, session, user, page, campaign
    and the IP, language and headers of the client are as before; a
    measurement id or a client id that was set is kept. Sending the report
    again, in the same environment, leaves it as it is: the ids are
    resolved once. *)
Theorem send_resolves_the_report_once :
  forall snakeCase SHA1 env r w,
    events (send snakeCase SHA1 env r w).1.1 = events r
    /\ session (send snakeCase SHA1 env r w).1.1 = session r
    /\ user (send snakeCase SHA1 env r w).1.1 = user r
    /\ page (send snakeCase SHA1 env r w).1.1 = page r
    /\ campaign (send snakeCase SHA1 env r w).1.1 = campaign r
    /\ client_ip (client (send snakeCase SHA1 env r w).1.1)
       = client_ip (client r)
    /\ client_language (client (send snakeCase SHA1 env r w).1.1)
       = client_language (client r)
    /\ client_headers (client (send snakeCase SHA1 env r w).1.1)
       = client_headers (client r)
    /\ (forall m,
          measurementId r = Some m ->
          measurementId (send snakeCase SHA1 env r w).1.1 = Some m)
    /\ (forall id,
          client_id (client r) = Some id ->
          client_id (client (send snakeCase SHA1 env r w).1.1) = Some id)
    /\ (forall w',
          (send snakeCase SHA1 env (send snakeCase SHA1 env r w).1.1 w').1.1
          = (send snakeCase SHA1 env r w).1.1).
Proof.
  intros sc SHA1 env r w.
  assert (forall w', (send sc SHA1 env (send sc SHA1 env r w).1.1 w').1.1
                     = (send sc SHA1 env r w).1.1) as Hagain.
  { intros w'. rewrite (send_result_report sc SHA1 env r w).
    unfold withClientId, resolvedMeasurementId.
    destruct (existsb truthy (events r)) eqn:Hev;
      [|now rewrite send_result_report, Hev].
    destruct (measurementId r) as [m|] eqn:Hm;
      [|destruct (GA4_MEASUREMENT_ID env) as [m|] eqn:Henv];
      try destruct (nonEmpty m) eqn:Hne;
      try destruct (client_id (client r)) as [cid|] eqn:Hid;
      try destruct (client_ip (client r)) as [ip|] eqn:Hip;
      cbn [default from_option id];
      rewrite send_result_report;
      unfold withClientId, resolvedMeasurementId;
      cbn [events measurementId client client_id client_ip
           set_measurementId set_client_id];
      rewrite ?Hev, ?Hm, ?Henv, ?Hne, ?Hid, ?Hip; reflexivity. }
  rewrite (send_result_report sc SHA1 env r w) in *.
  unfold withClientId, resolvedMeasurementId in *.
  destruct (existsb truthy (events r)) eqn:Hev;
    [|repeat split; auto].
  destruct (measurementId r) as [m|] eqn:Hm;
    [|destruct (GA4_MEASUREMENT_ID env) as [m|] eqn:Henv];
    try destruct (nonEmpty m) eqn:Hne;
    try destruct (client_id (client r)) as [cid|] eqn:Hid;
    try destruct (client_ip (client r)) as [ip|] eqn:Hip;
    cbn [default from_option id] in *;
    repeat split; auto; try discriminate;
    intros cid' [= <-]; cbn [client set_measurementId]; exact Hid.
Qed.

Lemma send_resolves_the_report_once_witness :
  measurementId (send Imported.snakeCase Imported.SHA1 exampleEnv
                   exampleReport exampleWorld).1.1 = Some "G-EXAMPLE"
  /\ client_id (client (send Imported.snakeCase Imported.SHA1 exampleEnv
                          (set_client_id exampleReport "7") exampleWorld).1.1)
     = Some "7".
Proof.
  split.
  - apply (send_resolves_the_report_once Imported.snakeCase Imported.SHA1
             exampleEnv exampleReport exampleWorld). reflexivity.
  - apply (send_resolves_the_report_once Imported.snakeCase Imported.SHA1
             exampleEnv (set_client_id exampleReport "7") exampleWorld).
    reflexivity.
Defined.

(** ** Connections and their sessions *)

Lemma getSession_known conn platform w ref :
  sessionMap w !! conn_identity conn = Some ref ->
  getSession conn platform w = (w, ref).
Proof. unfold getSession. now intros ->. Qed.

Lemma getSession_new conn platform w :
  sessionMap w !! conn_identity conn = None ->
  getSession conn platform w
  = ({| heap := heap w ++ [newSession platform];
        sessionMap := <[conn_identity conn := length (heap w)]> (sessionMap w);
        console := console w; network := network w |}, length (heap w)).
Proof. unfold getSession. now intros ->. Qed.

Lemma getSession_registered conn platform w :
  sessionMap (getSession conn platform w).1 !! conn_identity conn
  = Some (getSession conn platform w).2.
Proof.
  destruct (sessionMap w !! conn_identity conn) as [ref|] eqn:E.
  - now rewrite (getSession_known _ _ _ _ E).
  - rewrite (getSession_new _ _ _ E). cbn [fst snd sessionMap].
    apply lookup_insert_eq.
Qed.

Lemma getSession_keeps conn platform w c ref :
  sessionMap w !! c = Some ref ->
  sessionMap (getSession conn platform w).1 !! c = Some ref.
Proof.
  intros H. destruct (sessionMap w !! conn_identity conn) as [ref'|] eqn:E.
  - now rewrite (getSession_known _ _ _ _ E).
  - rewrite (getSession_new _ _ _ E). cbn [fst sessionMap].
    rewrite lookup_insert_ne; [exact H|]. intros <-. congruence.
Qed.

Lemma send_sessionMap sc SHA1 env r w :
  sessionMap (send sc SHA1 env r w).1.2 = sessionMap w.
Proof.
  destruct (send_cases sc SHA1 env r w)
    as [Hev|Hev Hm|m Hev Hm Hne Hc|m r' Hev Hm Hne Hc]; try reflexivity.
  destruct (transmit_cases sc env r' w) as [(e & _ & ->)|(ps & _ & ->)];
    [reflexivity|]. apply upload_sessionMap.
Qed.

Lemma send_heap_length sc SHA1 env r w :
  length (heap (send sc SHA1 env r w).1.2) = length (heap w).
Proof.
  destruct (send_effect sc SHA1 env r w)
    as [[_ ->]|(m & r' & ps & _ & _ & _ & _ & _ & _ & ->)]; [reflexivity|].
  apply heapAfter_length.
Qed.

Section Worlds.

Variable snakeCase : string -> string.
Variable SHA1 : string -> list ascii.
Variable URL_parse : string -> option URL.
Variable STATUS_TEXT : Z -> option string.

Lemma call_keeps w c0 c ref :
  sessionMap w !! c = Some ref ->
  sessionMap (call snakeCase SHA1 URL_parse STATUS_TEXT w c0) !! c = Some ref.
Proof.
  intros H. destruct c0 as [init platform|env r]; cbn [call].
  - rewrite GA4Report_new_world. now apply getSession_keeps.
  - now rewrite send_sessionMap.
Qed.

Lemma runCalls_keeps calls : forall w c ref,
  sessionMap w !! c = Some ref ->
  sessionMap (runCalls snakeCase SHA1 URL_parse STATUS_TEXT calls w) !! c
  = Some ref.
Proof.
  induction calls as [|c0 calls IH]; intros w c ref H; [exact H|].
  cbn [runCalls fold_left]. apply IH, call_keeps, H.
Qed.

Lemma getSession_wellFormed conn platform w :
  wellFormed w -> wellFormed (getSession conn platform w).1.
Proof.
  intros [Hb Hi].
  destruct (sessionMap w !! conn_identity conn) as [ref|] eqn:E.
  - rewrite (getSession_known _ _ _ _ E). now split.
  - rewrite (getSession_new _ _ _ E). split; cbn [fst heap sessionMap].
    + intros c ref. rewrite length_app. cbn [length].
      destruct (decide (c = conn_identity conn)) as [->|Hne].
      * rewrite lookup_insert_eq. intros [= <-]. lia.
      * rewrite lookup_insert_ne by congruence. intros H.
        apply Hb in H. lia.
    + intros c1 c2 ref.
      destruct (decide (c1 = conn_identity conn)) as [->|H1];
        destruct (decide (c2 = conn_identity conn)) as [->|H2];
        rewrite ?lookup_insert_eq, ?lookup_insert_ne by congruence; auto.
      * intros [= <-] H. apply Hb in H. lia.
      * intros H [= <-]. apply Hb in H. lia.
      * apply Hi.
Qed.

Lemma call_wellFormed w c :
  wellFormed w ->
  wellFormed (call snakeCase SHA1 URL_parse STATUS_TEXT w c).
Proof.
  intros H. destruct c as [init platform|env r]; cbn [call].
  - rewrite GA4Report_new_world. now apply getSession_wellFormed.
  - destruct H as [Hb Hi]. split.
    + intros c ref. rewrite send_sessionMap, send_heap_length. apply Hb.
    + intros c1 c2 ref. rewrite send_sessionMap. apply Hi.
Qed.

Lemma runCalls_wellFormed calls : forall w,
  wellFormed w ->
  wellFormed (runCalls snakeCase SHA1 URL_parse STATUS_TEXT calls w).
Proof.
  induction calls as [|c calls IH]; intros w H; [exact H|].
  cbn [runCalls fold_left]. apply IH, call_wellFormed, H.
Qed.

End Worlds.

Lemma emptyWorld_wellFormed : wellFormed emptyWorld.
Proof.
  split; cbn [emptyWorld sessionMap]; intros *; rewrite lookup_empty;
    discriminate.
Qed.

(** [send] writes to the session of its report only. *)
Lemma send_other_sessions sc SHA1 env r w ref :
  session r <> Some ref ->
  heap (send sc SHA1 env r w).1.2 !! ref = heap w !! ref.
Proof.
  intros Hne.
  destruct (send_effect sc SHA1 env r w)
    as [[_ ->]|(m & r' & ps & _ & _ & _ & _ & _ & _ & ->)]; [reflexivity|].
  unfold heapAfter. destruct (fetch env _); [|reflexivity].
  destruct (session r) as [ref'|]; [|reflexivity].
  destruct (ok response); [|reflexivity].
  apply list_lookup_alter_ne. congruence.
Qed.

Lemma GA4Report_new_session URL_parse STATUS_TEXT init platform w r :
  (GA4Report_new URL_parse STATUS_TEXT init platform w).2 = Ok r ->
  session r = Some (getSession (init_conn init) platform w).2.
Proof.
  unfold GA4Report_new.
  destruct (getSession (init_conn init) platform w) as [w' ref].
  destruct (getPageTitle _ _ _ _); [|discriminate].
  destruct (getPageReferrer _ _); [|discriminate].
  cbn [snd]. now intros [= <-].
Qed.

(** X13. A connection keeps its session. After [getSession] for a
    connection, every later [getSession] for that connection, whatever
    reports are built and sent in between, gives the same session and leaves
    the world alone, and a report built for the connection refers to that
    session. For a new connection the session is put at the end of the
    heap and nothing is logged or sent; for a known connection the world is
    unchanged. *)
Theorem connection_keeps_its_session :
  forall snakeCase SHA1 URL_parse STATUS_TEXT conn platform w calls,
    let w1 := (getSession conn platform w).1 in
    let ref := (getSession conn platform w).2 in
    let w2 := runCalls snakeCase SHA1 URL_parse STATUS_TEXT calls w1 in
    (forall platform', getSession conn platform' w2 = (w2, ref))
    /\ (forall init platform' r,
          conn_identity (init_conn init) = conn_identity conn ->
          (GA4Report_new URL_parse STATUS_TEXT init platform' w2).2 = Ok r ->
          session r = Some ref
          /\ (GA4Report_new URL_parse STATUS_TEXT init platform' w2).1 = w2)
    /\ (sessionMap w !! conn_identity conn = None ->
        heap w1 = (heap w ++ [newSession platform])%list
        /\ ref = length (heap w)
        /\ console w1 = console w /\ network w1 = network w)
    /\ (forall ref0,
          sessionMap w !! conn_identity conn = Some ref0 ->
          w1 = w /\ ref = ref0).
Proof.
  intros sc SHA1 UP ST conn platform w calls w1 ref w2.
  assert (sessionMap w2 !! conn_identity conn = Some ref) as Hreg.
  { apply runCalls_keeps, getSession_registered. }
  split; [|split; [|split]].
  - intros platform'. now apply getSession_known.
  - intros init platform' r Hconn Hr.
    rewrite <- Hconn in Hreg.
    rewrite GA4Report_new_world.
    apply GA4Report_new_session in Hr.
    rewrite (getSession_known _ platform' _ _ Hreg) in *. auto.
  - intros Hnew. unfold w1, ref. rewrite (getSession_new _ _ _ Hnew).
    repeat split.
  - intros ref0 H. unfold w1, ref. rewrite (getSession_known _ _ _ _ H).
    split; reflexivity.
Qed.

Lemma connection_keeps_its_session_witness :
  getSession exampleConn examplePlatform exampleWorld = (exampleWorld, 0%nat)
  /\ heap (getSession otherConn examplePlatform exampleWorld).1
     = [exampleSession; newSession examplePlatform].
Proof.
  split.
  - apply (proj1 (connection_keeps_its_session Imported.snakeCase
             Imported.SHA1 Imported.URL_parse Imported.STATUS_TEXT
             exampleConn examplePlatform exampleWorld [])).
  - apply (proj1 (proj2 (proj2 (connection_keeps_its_session
             Imported.snakeCase Imported.SHA1 Imported.URL_parse
             Imported.STATUS_TEXT otherConn examplePlatform
             exampleWorld [])))).
    reflexivity.
Defined.

(** X14. Connections have sessions of their own. In every world reached
    from the empty one by building and sending reports, the session map
    refers to sessions of the heap and no two connections share a session;
    [send] writes to the session of its report only, so that sending a
    report of one connection leaves the session of another as it is. *)
Theorem connections_have_sessions_of_their_own :
  forall snakeCase SHA1 URL_parse STATUS_TEXT calls,
    let w := runCalls snakeCase SHA1 URL_parse STATUS_TEXT calls emptyWorld in
    wellFormed w
    /\ (forall c1 c2 ref1 ref2,
          sessionMap w !! c1 = Some ref1 -> sessionMap w !! c2 = Some ref2 ->
          c1 <> c2 ->
          ref1 <> ref2
          /\ (exists s1, heap w !! ref1 = Some s1)
          /\ forall env r,
               session r = Some ref1 ->
               heap (send snakeCase SHA1 env r w).1.2 !! ref2
               = heap w !! ref2)
    /\ (forall env r ref,
          session r <> Some ref ->
          heap (send snakeCase SHA1 env r w).1.2 !! ref = heap w !! ref).
Proof.
  intros sc SHA1 UP ST calls w.
  assert (wellFormed w) as Hwf.
  { apply runCalls_wellFormed, emptyWorld_wellFormed. }
  split; [exact Hwf|]. split.
  - intros c1 c2 ref1 ref2 H1 H2 Hne.
    destruct Hwf as [Hb Hi].
    assert (ref1 <> ref2) as Href.
    { intros ->. apply Hne. exact (Hi c1 c2 ref2 H1 H2). }
    split; [exact Href|]. split.
    + apply lookup_lt_is_Some_2. exact (Hb c1 ref1 H1).
    + intros env r Hr. apply send_other_sessions. congruence.
  - intros env r ref. apply send_other_sessions.
Qed.

Lemma connections_have_sessions_of_their_own_witness :
  let w := runCalls Imported.snakeCase Imported.SHA1 Imported.URL_parse
             Imported.STATUS_TEXT
             [Build exampleInit examplePlatform;
              Build {| init_measurementId := None;
                       init_request := init_request exampleInit;
                       init_response := init_response exampleInit;
                       init_conn := otherConn |} examplePlatform]
             emptyWorld in
  (0 <> 1)%nat
  /\ (exists s1, heap w !! 0%nat = Some s1)
  /\ forall env r,
       session r = Some 0%nat ->
       heap (send Imported.snakeCase Imported.SHA1 env r w).1.2 !! 1%nat
       = heap w !! 1%nat.
Proof.
  cbv zeta.
  apply (proj1 (proj2 (connections_have_sessions_of_their_own
           Imported.snakeCase Imported.SHA1 Imported.URL_parse
           Imported.STATUS_TEXT
           [Build exampleInit examplePlatform;
            Build {| init_measurementId := None;
                     init_request := init_request exampleInit;
                     init_response := init_response exampleInit;
                     init_conn := otherConn |} examplePlatform]))
           9%nat 8%nat 0%nat 1%nat).
  - vm_compute. reflexivity.
  - vm_compute. reflexivity.
  - discriminate.
Defined.

(** ** The session in the query *)

Lemma get_None_keys (q : Params) (k : string) :
  get q k = None <-> k ∉ keys q.
Proof.
  induction q as [|[k0 v0] q IH]; cbn [get keys map fst].
  - split; [intros _ H; inversion H|reflexivity].
  - rewrite not_elem_of_cons.
    destruct (String.eqb_spec k0 k) as [->|Hne].
    + split; [discriminate|]. intros [H _]. congruence.
    + rewrite IH. unfold keys. split; [split; auto; congruence|tauto].
Qed.

Lemma get_queryParams_no_event sc r sess name :
  event r = None -> name ∈ eventNames ->
  get (queryParams sc r sess) name = None.
Proof.
  intros Hev Hname.
  pose proof names_NoDup as Hnd.
  apply NoDup_app in Hnd as (_ & Hce & _).
  destruct (names_no_prefix name) as [_ Hup].
  { apply elem_of_app. now right. }
  rewrite queryParams_unfold, Hev, get_addCustomParams_other by exact Hup.
  rewrite get_addShortParams_other; [reflexivity|].
  intros Hin. exact (Hce name Hin Hname).
Qed.

Lemma get_session_start sc r sess :
  get (queryParams sc r sess) "_ss"
  = match event r with
    | Some _ => (fun b : bool => if b then "1" else "0")
                  <$> (sess ≫= session_start)
    | None => None
    end.
Proof.
  destruct (event r) as [ev|] eqn:Hev.
  - rewrite (get_queryParams_event sc r sess ev "_ss"
               (ofBoolean (sess ≫= session_start)) Hev).
    + destruct (sess ≫= session_start) as [[|]|]; reflexivity.
    + unfold eventFields. do 3 right. left.
  - apply get_queryParams_no_event; [exact Hev|].
    unfold eventNames. do 3 right. left.
Qed.

Lemma get_session_hitCount sc r sess :
  get (queryParams sc r sess) "_s"
  = (Z_to_string ∘ session_hitCount) <$> sess.
Proof.
  rewrite (get_queryParams_common sc r sess "_s"
             (ofNumber (session_hitCount <$> sess))).
  - now destruct sess.
  - unfold commonFields. do 15 right. left.
Qed.

(** X15. The session start is reported once. When a report with a primary
    event was sent and the response is [ok], the request carried the
    [_ss] flag and the hit count of the session as they were before the
    call, and every query built for that session afterwards has no [_ss]
    and has the hit count increased by the number of the entries of
    [events] that are events. *)
Theorem session_start_is_reported_once :
  forall snakeCase SHA1 env r w request response duration ref s,
    network (send snakeCase SHA1 env r w).1.2
      = (network w ++ [request])%list ->
    fetch env request = Resolved response duration ->
    ok response = true ->
    session r = Some ref ->
    heap w !! ref = Some s ->
    primaryEvent r <> None ->
    let r' := (send snakeCase SHA1 env r w).1.1 in
    let w' := (send snakeCase SHA1 env r w).1.2 in
    request_url request
    = GA4_ENDPOINT_URL +:+ "?"
      +:+ URLSearchParams_toString (queryParams snakeCase r' (Some s))
    /\ get (queryParams snakeCase r' (Some s)) "_ss"
       = (fun b : bool => if b then "1" else "0") <$> session_start s
    /\ get (queryParams snakeCase r' (Some s)) "_s"
       = Some (Z_to_string (session_hitCount s))
    /\ forall r2,
         session r2 = Some ref ->
         let q2 := queryParams snakeCase r2 (session r2 ≫= (heap w' !!.)) in
         get q2 "_ss" = None
         /\ ("_ss" ∉ keys q2)
         /\ get q2 "_s"
            = Some (Z_to_string
                      (session_hitCount s + countTruthy (events r))).
Proof.
  intros sc SHA1 env r w request response duration ref s
    Hnet Hf Hok Hs Hh Hev r' w'.
  rewrite <- event_primaryEvent in Hev.
  rewrite <- truthyCount_countTruthy.
  destruct (send_effect sc SHA1 env r w)
    as [[Hn _]|(m & r0 & ps & Hex & _ & _ & Hc & Hr & Hn & Hheap)].
  { rewrite Hn in Hnet. now apply app_singleton_neq in Hnet. }
  rewrite Hn in Hnet. apply app_inv_head in Hnet. injection Hnet as Hreq.
  fold r' in Hr. subst r0.
  pose proof (withClientId_frame SHA1 r m r' Hc) as (Hs' & He' & _).
  assert (event r' = event r) as Hev' by (now apply event_frame).
  assert (heap w' !! ref = Some (recordHit r s)) as Hw'.
  { unfold w'. rewrite Hheap, Hreq. unfold heapAfter.
    rewrite Hf, Hs, Hok. now rewrite list_lookup_alter_eq, Hh. }
  split; [|split; [|split]].
  - rewrite <- Hreq. unfold requestOf. cbn [request_url].
    rewrite Hs', Hs. cbn [mbind option_bind]. now rewrite Hh.
  - rewrite get_session_start, Hev'.
    destruct (event r); [reflexivity|congruence].
  - now rewrite get_session_hitCount.
  - intros r2 Hr2. cbv zeta. rewrite Hr2. cbn [mbind option_bind].
    rewrite Hw'.
    assert (get (queryParams sc r2 (Some (recordHit r s))) "_ss" = None)
      as Hss.
    { rewrite get_session_start. destruct (event r2); [|reflexivity].
      cbn [mbind option_bind recordHit session_start].
      destruct (event r); [reflexivity|congruence]. }
    split; [exact Hss|]. split; [now apply get_None_keys|].
    rewrite get_session_hitCount. cbn [fmap option_fmap option_map].
    unfold compose. cbn [recordHit session_hitCount].
    pose proof (truthyCount_positive r Hex).
    destruct (Z.eqb_spec (truthyCount r) 0); [lia|reflexivity].
Qed.

Lemma session_start_is_reported_once_witness :
  get (queryParams Imported.snakeCase
         (send Imported.snakeCase Imported.SHA1 exampleEnv exampleBatch
            exampleWorld).1.1 (Some exampleSession)) "_ss" = Some "1"
  /\ get (queryParams Imported.snakeCase
            (send Imported.snakeCase Imported.SHA1 exampleEnv exampleBatch
               exampleWorld).1.1 (Some exampleSession)) "_s" = Some "0"
  /\ ("_ss" ∉ keys (queryParams Imported.snakeCase exampleReport
                      (session exampleReport
                         ≫= (heap (send Imported.snakeCase Imported.SHA1
                                     exampleEnv exampleBatch
                                     exampleWorld).1.2 !!.))))
  /\ get (queryParams Imported.snakeCase exampleReport
            (session exampleReport
               ≫= (heap (send Imported.snakeCase Imported.SHA1
                           exampleEnv exampleBatch exampleWorld).1.2 !!.)))
        "_s" = Some "3".
Proof.
  destruct (session_start_is_reported_once Imported.snakeCase Imported.SHA1
              exampleEnv exampleBatch exampleWorld exampleBatchRequest
              noContent 25 0%nat exampleSession)
    as (_ & Hss & Hs & Hnext).
  - vm_compute. reflexivity.
  - reflexivity.
  - reflexivity.
  - reflexivity.
  - reflexivity.
  - discriminate.
  - destruct (Hnext exampleReport eq_refl) as (_ & Hnone & Hcount).
    split; [exact Hss|]. split; [exact Hs|]. split; [exact Hnone|].
    exact Hcount.
Defined.

(** ** The referrer *)

(** X16. The referrer of a page is the [referer] header when its host
    differs from the host of the request, and that only. Without the header
    there is no referrer and nothing is parsed. [getPageReferrer] throws a
    [TypeError] only, and only when there is a header and the header or the
    URL of the request does not parse. A report that was built has the
    traffic type [referral] exactly when it has a referrer. *)
Theorem referrer_is_from_another_host :
  forall URL_parse STATUS_TEXT,
    (forall request referrer,
       getPageReferrer URL_parse request = Ok (Some referrer)
       <-> Headers_get (headers request) "referer" = Some referrer
           /\ exists from own,
                URL_parse referrer = Some from
                /\ URL_parse (url request) = Some own
                /\ host from <> host own)
    /\ (forall request,
          Headers_get (headers request) "referer" = None ->
          getPageReferrer URL_parse request = Ok None)
    /\ (forall request err,
          getPageReferrer URL_parse request = Throw err ->
          err = TypeError "Invalid URL"
          /\ exists referrer,
               Headers_get (headers request) "referer" = Some referrer
               /\ (URL_parse referrer = None
                   \/ URL_parse (url request) = None))
    /\ (forall init platform w r,
          (GA4Report_new URL_parse STATUS_TEXT init platform w).2 = Ok r ->
          getPageReferrer URL_parse (init_request init)
          = Ok (page_referrer (page r))
          /\ page_trafficType (page r)
             = match page_referrer (page r) with
               | Some _ => Some referral
               | None => None
               end).
Proof.
  intros UP ST. split; [|split; [|split]].
  - intros request referrer. unfold getPageReferrer.
    destruct (Headers_get (headers request) "referer") as [ref0|].
    2:{ split; [discriminate|]. intros [H _]. discriminate. }
    destruct (UP ref0) as [from|] eqn:Hfrom.
    2:{ split; [discriminate|]. intros [[= ->] (f & o & H & _)]. congruence. }
    destruct (UP (url request)) as [own|] eqn:Hown.
    2:{ split; [discriminate|]. intros [_ (f & o & _ & H & _)]. congruence. }
    destruct (String.eqb_spec (host from) (host own)) as [E|E].
    + split; [discriminate|].
      intros [[= ->] (f & o & Hf & Ho & Hne)]. congruence.
    + split.
      * intros [= ->]. split; [reflexivity|]. exists from, own. auto.
      * intros [[= ->] _]. reflexivity.
  - intros request H. unfold getPageReferrer. now rewrite H.
  - intros request err. unfold getPageReferrer.
    destruct (Headers_get (headers request) "referer") as [ref0|];
      [|discriminate].
    destruct (UP ref0) as [from|] eqn:Hfrom.
    2:{ intros [= <-]. split; [reflexivity|]. exists ref0. auto. }
    destruct (UP (url request)) as [own|] eqn:Hown.
    2:{ intros [= <-]. split; [reflexivity|]. exists ref0. auto. }
    destruct (String.eqb (host from) (host own)); discriminate.
  - intros init platform w r. unfold GA4Report_new.
    destruct (getSession (init_conn init) platform w) as [w' ref].
    destruct (getPageTitle _ _ _ _) as [title|]; [|discriminate].
    destruct (getPageReferrer _ _) as [referrer|]; [|discriminate].
    cbn [snd]. intros [= <-]. split; reflexivity.
Qed.

Lemma referrer_is_from_another_host_witness :
  getPageReferrer Imported.URL_parse (init_request browserInit)
  = Ok (Some "https://example.com/").
Proof.
  apply (proj1 (referrer_is_from_another_host Imported.URL_parse
                  Imported.STATUS_TEXT)).
  split; [reflexivity|].
  eexists _, _. split; [reflexivity|]. split; [reflexivity|]. discriminate.
Defined.

(** ** A report that was just built *)






(** ** Paths and their segments *)

(** The greedy star of a class takes the whole run of the class when what
    follows succeeds everywhere. *)
Lemma run_class {A} (p : ascii -> bool) (s : string)
    (k : string -> option A) :
  (forall x, k x <> None) ->
  run (Star (Chr p)) s k = k (dropBytes (runLength p s) s).
Proof.
  intros Hk. induction s as [|a s IH]; rewrite run_Star.
  - reflexivity.
  - rewrite run_Chr. cbn [runLength].
    destruct (p a); [|reflexivity].
    rewrite length_lt_cons, IH. cbn [dropBytes].
    destruct (k (dropBytes (runLength p s) s)) eqn:E; [reflexivity|].
    now apply Hk in E.
Qed.

Lemma runLength_le (p : ascii -> bool) (s : string) :
  (runLength p s <= String.length s)%nat.
Proof.
  induction s as [|a s IH]; cbn [runLength String.length]; [lia|].
  destruct (p a); lia.
Qed.

Lemma matchLen_slash (a : ascii) (rest : string) :
  isSlash a = true ->
  matchLen slashes (String a rest) = Some (S (runLength isSlash rest)).
Proof.
  intros Ha. unfold matchLen, slashes, Plus.
  set (k := fun rest0 : string =>
              Some (String.length (String a rest) - String.length rest0)%nat).
  change (run (Chr isSlash) (String a rest)
            (fun t => run (Star (Chr isSlash)) t k)
          = Some (S (runLength isSlash rest))).
  rewrite run_Chr, Ha, run_class by discriminate.
  unfold k. rewrite length_dropBytes. cbn [String.length].
  pose proof (runLength_le isSlash rest). f_equal. lia.
Qed.

Lemma matchLen_not_slash (a : ascii) (rest : string) :
  isSlash a = false -> matchLen slashes (String a rest) = None.
Proof. intros Ha. apply matchLen_slashes_none. exact Ha. Qed.

(** The pieces of a split at the slashes that are not empty are the
    segments. [skip] slashes of a separator are still to be dropped. *)
Lemma split_from_segments : forall s skip piece,
  (skip <= runLength isSlash s)%nat ->
  (skip <> 0%nat -> piece = "") ->
  filter (fun x => nonEmpty x) (split_from slashes skip piece s)
  = segmentsOf piece s.
Proof.
  induction s as [|a s IH]; intros skip piece Hskip Hpiece.
  - cbn [split_from segmentsOf]. destruct (nonEmpty piece) eqn:E.
    + now rewrite filter_cons_True by (now rewrite E).
    + now rewrite filter_cons_False by (now rewrite E).
  - cbn [split_from segmentsOf]. cbn [runLength] in Hskip.
    destruct skip as [|skip].
    + destruct (isSlash a) eqn:Ha.
      * rewrite matchLen_slash by exact Ha.
        destruct (nonEmpty piece) eqn:E.
        -- rewrite filter_cons_True by (now rewrite E). f_equal.
           apply IH; auto.
        -- rewrite filter_cons_False by (now rewrite E). apply IH; auto.
      * rewrite matchLen_not_slash by exact Ha. apply IH; [lia|congruence].
    + rewrite (Hpiece ltac:(discriminate)).
      destruct (isSlash a); [|lia]. cbn [nonEmpty String.eqb negb].
      apply IH; [lia|auto].
Qed.

Lemma split_segments (path : string) :
  filter (fun x => nonEmpty x) (split slashes path) = segmentsOf "" path.
Proof.
  destruct path as [|a path]; [reflexivity|].
  unfold split. apply split_from_segments; [lia|congruence].
Qed.

(** The pieces of a path of plain bytes and slashes are plain. *)
Lemma split_from_plain : forall s skip piece,
  allBytes pathByte s = true -> allBytes plainByte piece = true ->
  forallb (allBytes plainByte) (split_from slashes skip piece s) = true.
Proof.
  induction s as [|a s IH]; intros skip piece Hs Hp.
  - cbn [split_from forallb]. now rewrite Hp.
  - cbn [allBytes] in Hs. apply andb_true_iff in Hs as [Ha Hs].
    cbn [split_from]. destruct skip as [|skip]; [|now apply IH].
    destruct (isSlash a) eqn:Hsl.
    + rewrite matchLen_slash by exact Hsl. cbn [forallb].
      rewrite Hp. now apply IH.
    + rewrite matchLen_not_slash by exact Hsl. apply IH; [exact Hs|].
      rewrite allBytes_app, Hp. cbn [allBytes andb].
      unfold pathByte in Ha. rewrite Hsl, orb_false_r in Ha.
      now rewrite Ha.
Qed.

Lemma split_plain (path : string) :
  allBytes pathByte path = true ->
  forallb (allBytes plainByte) (split slashes path) = true.
Proof.
  intros H. destruct path as [|a path]; [reflexivity|].
  unfold split. now apply split_from_plain.
Qed.

Lemma titleOf_join (segments : list string) :
  Forall (fun s => s <> "") segments ->
  (if nonEmpty (join " / " segments) then join " / " segments
   else "(top level)") = titleOf segments.
Proof.
  intros H. destruct H as [|s l Hs Hl]; [reflexivity|].
  rewrite nonEmpty_join; [reflexivity|].
  destruct s; [congruence|reflexivity].
Qed.

Lemma segments_nonEmpty (path : string) :
  Forall (fun s => s <> "") (segmentsOf "" path).
Proof.
  rewrite <- split_segments. apply Forall_forall. intros s Hs.
  apply list_elem_of_filter in Hs as [Hs _]. intros ->. exact Hs.
Qed.

(** ** Escapes that are none *)

Lemma decodeAll_Throw (pieces : list string) (e : Error) :
  decodeAll pieces = Throw e ->
  e = URIError "URI malformed"
  /\ exists piece, piece ∈ pieces /\ decodeURIComponent piece = None.
Proof.
  induction pieces as [|p l IH]; [discriminate|]. cbn [decodeAll].
  destruct (decodeURIComponent p) as [d|] eqn:E.
  - destruct (decodeAll l) as [ds|e']; [discriminate|].
    intros [= <-]. destruct (IH eq_refl) as (He & piece & Hin & Hnone).
    split; [exact He|]. exists piece. split; [now right|exact Hnone].
  - intros [= <-]. split; [reflexivity|]. exists p. split; [left|exact E].
Qed.

Lemma decodeAll_elem (pieces : list string) (piece : string) :
  piece ∈ pieces -> decodeURIComponent piece = None ->
  decodeAll pieces = Throw (URIError "URI malformed").
Proof.
  intros Hin Hnone. induction pieces as [|p l IH]; [inversion Hin|].
  cbn [decodeAll]. destruct (decodeURIComponent p) as [d|] eqn:E;
    [|reflexivity].
  apply elem_of_cons in Hin as [->|Hin]; [congruence|].
  now rewrite (IH Hin).
Qed.

Lemma titleOfPath_Throw (path : string) (e : Error) :
  titleOfPath path = Throw e
  <-> e = URIError "URI malformed"
      /\ exists piece,
           piece ∈ segmentsOf "" (replace fileExtension "" path)
           /\ decodeURIComponent piece = None.
Proof.
  unfold titleOfPath. rewrite <- split_segments. split.
  - destruct (decodeAll _) as [ds|e'] eqn:E; [discriminate|].
    intros [= <-]. apply decodeAll_Throw in E as (He & piece & Hin & Hnone).
    split; [exact He|]. exists piece. split; [|exact Hnone].
    apply list_elem_of_filter. split; [|exact Hin].
    destruct piece; [discriminate|exact I].
  - intros (-> & piece & Hin & Hnone).
    apply list_elem_of_filter in Hin as [_ Hin].
    now rewrite (decodeAll_elem _ piece Hin Hnone).
Qed.

Lemma unescapeBytes_percent (post : string) :
  startsWithHexPair post = false -> unescapeBytes (String "%" post) = None.
Proof.
  intros Hpost. cbn [unescapeBytes].
  change (N.eqb (code "%") 37) with true. cbv iota.
  destruct post as [|h [|l post]]; try reflexivity.
  cbn [startsWithHexPair] in Hpost.
  destruct (hexValue h), (hexValue l); try reflexivity. discriminate.
Qed.

(** A [%] that is not followed by two hexadecimal digits is fatal wherever
    it stands: an escape before it takes three bytes, and none of them can
    be this [%]. *)
Lemma unescapeBytes_bad_upto (n : nat) : forall pre post,
  (String.length pre <= n)%nat -> startsWithHexPair post = false ->
  unescapeBytes (pre +:+ "%" +:+ post) = None.
Proof.
  induction n as [|n IH]; intros pre post Hlen Hpost.
  - destruct pre as [|a pre]; [|cbn [String.length] in Hlen; lia].
    now apply unescapeBytes_percent.
  - destruct pre as [|a pre]; [now apply unescapeBytes_percent|].
    cbn [String.length] in Hlen.
    change (String a pre +:+ "%" +:+ post)
      with (String a (pre +:+ "%" +:+ post)).
    cbn [unescapeBytes]. destruct (N.eqb (code a) 37).
    + destruct pre as [|h [|l pre]].
      * change ("" +:+ "%" +:+ post) with (String "%" post).
        destruct post; reflexivity.
      * change (String h "" +:+ "%" +:+ post)
          with (String h (String "%" post)).
        cbv beta iota. change (hexValue "%") with (@None N).
        destruct (hexValue h); reflexivity.
      * change (String h (String l pre) +:+ "%" +:+ post)
          with (String h (String l (pre +:+ "%" +:+ post))).
        cbv beta iota.
        destruct (hexValue h), (hexValue l); try reflexivity.
        rewrite IH; [reflexivity| |exact Hpost].
        cbn [String.length] in Hlen. lia.
    + rewrite IH; [reflexivity|lia|exact Hpost].
Qed.

Lemma unescapeBytes_bad (pre post : string) :
  startsWithHexPair post = false ->
  unescapeBytes (pre +:+ "%" +:+ post) = None.
Proof. apply (unescapeBytes_bad_upto (String.length pre)). lia. Qed.

Lemma unescapeBytes_literal (s : string) :
  allBytes notPercent s = true ->
  unescapeBytes s = Some (map (fun a => (a, false)) (list_ascii_of_string s)).
Proof.
  induction s as [|a s IH]; [reflexivity|]. cbn [allBytes].
  rewrite andb_true_iff. intros [Ha Hs]. unfold notPercent in Ha.
  apply negb_true_iff in Ha.
  cbn [unescapeBytes]. rewrite Ha, IH by auto. reflexivity.
Qed.

(** X18. The title derivation throws exactly when one of the segments of
    the path (after the file extension is removed) does not URL-decode, and
    then it throws a [URIError]. A segment does not decode when a [%] in
    it, wherever it stands, is not followed by two hexadecimal digits; a
    segment without [%] decodes to itself. For a GET or HEAD request with a
    success status the
    error leaves [getPageTitle] and the constructor, which has registered
    the session of the connection by then; for every other response the
    title is derived from the status and nothing is thrown. *)
Theorem title_throws_on_malformed_escape :
  (forall path e,
     titleOfPath path = Throw e
     <-> e = URIError "URI malformed"
         /\ exists piece,
              piece ∈ segmentsOf "" (replace fileExtension "" path)
              /\ decodeURIComponent piece = None)
  /\ (forall pre post,
        startsWithHexPair post = false ->
        decodeURIComponent (pre +:+ "%" +:+ post) = None)
  /\ (forall s, allBytes notPercent s = true -> decodeURIComponent s = Some s)
  /\ (forall URL_parse STATUS_TEXT request response u e,
        (method request = "GET" \/ method request = "HEAD") ->
        isSuccess response = true ->
        URL_parse (url request) = Some u ->
        titleOfPath (pathname u) = Throw e ->
        getPageTitle URL_parse STATUS_TEXT request response = Throw e)
  /\ (forall URL_parse STATUS_TEXT init platform w e,
        getPageTitle URL_parse STATUS_TEXT (init_request init)
          (init_response init) = Throw e ->
        (GA4Report_new URL_parse STATUS_TEXT init platform w).2 = Throw e
        /\ (GA4Report_new URL_parse STATUS_TEXT init platform w).1
           = (getSession (init_conn init) platform w).1)
  /\ (forall URL_parse STATUS_TEXT request response,
        isSuccess response = false ->
        exists title,
          getPageTitle URL_parse STATUS_TEXT request response = Ok title).
Proof.
  split; [exact titleOfPath_Throw|]. split; [|split; [|split; [|split]]].
  - intros pre post Hpost. unfold decodeURIComponent.
    now rewrite unescapeBytes_bad.
  - intros s Hs. unfold decodeURIComponent.
    rewrite unescapeBytes_literal, escapesWellFormed_literal by auto.
    rewrite map_map. cbn [fst]. rewrite map_id.
    now rewrite string_of_list_ascii_of_string.
  - intros UP ST request response u e Hm Hs Hu Ht. unfold getPageTitle.
    rewrite Hs, Hu, Ht.
    destruct Hm as [-> | ->]; reflexivity.
  - intros UP ST init platform w e Ht. unfold GA4Report_new.
    destruct (getSession (init_conn init) platform w) as [w' ref].
    rewrite Ht. split; reflexivity.
  - intros UP ST request response Hs. unfold getPageTitle.
    rewrite Hs, andb_false_r. eauto.
Qed.

Lemma title_throws_on_malformed_escape_witness :
  (GA4Report_new Imported.URL_parse Imported.STATUS_TEXT malformedInit
     examplePlatform exampleWorld).2 = Throw (URIError "URI malformed")
  /\ sessionMap (GA4Report_new Imported.URL_parse Imported.STATUS_TEXT
                   malformedInit examplePlatform exampleWorld).1 !! 8%nat
     = Some 1%nat
  /\ titleOfPath "/a_b__c/%41%zz" = Throw (URIError "URI malformed")
  /\ decodeURIComponent "%41%4" = None.
Proof.
  destruct title_throws_on_malformed_escape
    as (Hthrow & Hbad & _ & Htitle & Hnew & _).
  assert (titleOfPath "/100%" = Throw (URIError "URI malformed")) as Ht.
  { apply Hthrow. split; [reflexivity|]. exists "100%".
    split; [vm_compute; left|].
    apply (Hbad "100" ""); reflexivity. }
  assert (titleOfPath "/a_b__c/%41%zz" = Throw (URIError "URI malformed"))
    as Ht2.
  { apply Hthrow. split; [reflexivity|]. exists "%41%zz".
    split; [vm_compute; right; left|].
    apply (Hbad "%41" "zz"); reflexivity. }
  assert (decodeURIComponent "%41%4" = None) as Hd
    by (apply (Hbad "%41" "4"); reflexivity).
  destruct (Hnew Imported.URL_parse Imported.STATUS_TEXT malformedInit
              examplePlatform exampleWorld (URIError "URI malformed"))
    as [H1 H2].
  - apply (Htitle Imported.URL_parse Imported.STATUS_TEXT
             (init_request malformedInit) (init_response malformedInit)
             {| href := "https://deno.land/100%"; host := "deno.land";
                pathname := "/100%" |});
      [now left|reflexivity|reflexivity|exact Ht].
  - split; [exact H1|]. split; [rewrite H2; reflexivity|].
    split; [exact Ht2|exact Hd].
Defined.

(** ** Plain paths *)

Lemma pathByte_fileExtension (a : ascii) :
  pathByte a = true -> first fileExtension a = false.
Proof. exact (plain_fileExtension a). Qed.

Lemma titleOfPath_plain (path : string) :
  allBytes pathByte path = true ->
  titleOfPath path = Ok (titleOf (segmentsOf "" path)).
Proof.
  intros Hp. unfold titleOfPath.
  rewrite (replace_none _ _ _ pathByte);
    auto using pathByte_fileExtension.
  pose proof (split_plain path Hp) as Hplain.
  rewrite decodeAll_plain, map_clean_pieces by exact Hplain.
  rewrite split_segments. f_equal.
  apply titleOf_join, segments_nonEmpty.
Qed.

Lemma segmentsOf_trailing_slash (s : string) : forall piece,
  segmentsOf piece (s +:+ "/") = segmentsOf piece s.
Proof.
  induction s as [|a s IH]; intros piece.
  - reflexivity.
  - change (String a s +:+ "/") with (String a (s +:+ "/")).
    cbn [segmentsOf]. now rewrite !IH.
Qed.

(** X19. The title of a path of plain bytes and slashes is made of its
    segments that are not empty, joined by [" / "], and is ["(top level)"]
    when there is none: empty segments do not count, so a slash at the end
    or one more at the start changes nothing. In general the pieces of the
    split at the slashes that are not empty are the segments. *)
Theorem title_of_plain_path :
  (forall path,
     allBytes pathByte path = true ->
     titleOfPath path = Ok (titleOf (segmentsOf "" path)))
  /\ (forall path,
        allBytes pathByte path = true ->
        titleOfPath (path +:+ "/") = titleOfPath path
        /\ titleOfPath ("/" +:+ path) = titleOfPath path)
  /\ (forall path,
        filter (fun x => nonEmpty x) (split slashes path)
        = segmentsOf "" path).
Proof.
  split; [exact titleOfPath_plain|]. split; [|exact split_segments].
  intros path Hp. rewrite (titleOfPath_plain path Hp). split.
  - rewrite titleOfPath_plain.
    + now rewrite segmentsOf_trailing_slash.
    + now rewrite allBytes_app, Hp.
  - rewrite titleOfPath_plain; [reflexivity|].
    change ("/" +:+ path) with (String "/" path). cbn [allBytes].
    now rewrite Hp.
Qed.

Lemma title_of_plain_path_witness :
  titleOfPath "//x//case/" = Ok "x / case"
  /\ titleOfPath ("/x/case" +:+ "/") = titleOfPath "/x/case".
Proof.
  destruct title_of_plain_path as (Hplain & Hslash & _). split.
  - apply (Hplain "//x//case/"). reflexivity.
  - apply (Hslash "/x/case"). reflexivity.
Defined.

(** ** The primary event *)

Lemma get_addCustomParams_same sc prefix (entries : list (string * Primitive))
    (k : string) : forall q q',
  get q k = get q' k ->
  get (addCustomParams sc prefix q entries) k
  = get (addCustomParams sc prefix q' entries) k.
Proof.
  unfold addCustomParams.
  induction entries as [|[n v] entries IH]; intros q q' Hq; [exact Hq|].
  cbn [fold_left fst snd]. apply IH.
  rewrite !maybeAddCustomEventParam_spec. destruct (defined v); [|exact Hq].
  destruct (decide (customKey sc prefix n v = k)) as [<-|Hne].
  - now rewrite !get_assign_eq.
  - now rewrite !get_assign_ne.
Qed.

(** The query parameters that do not belong to the primary event. *)
Lemma get_queryParams_frame sc r sess k :
  k ∉ eventNames -> String.prefix "ep" k = false ->
  get (queryParams sc r sess) k
  = get (addCustomParams sc "up" (addShortParams [] (commonFields r sess))
           (user_properties (user r))) k.
Proof.
  intros Hk Hep. rewrite queryParams_unfold.
  apply get_addCustomParams_same.
  destruct (event r) as [ev|]; [|reflexivity].
  rewrite get_addShortParams_other by exact Hk.
  now rewrite get_addCustomParams_other.
Qed.

(** X20. The accessors of the primary event. Setting the primary event
    puts it first in [events], before the secondary events, which stay as
    they are; a report without events has one entry afterwards. Reading
    [event] then gives what was set, only the last of two settings counts,
    and setting the event that is there changes nothing. Every other field
    of the report (measurement id, client, user, session, campaign, page)
    is as before. In the request, the setting shows in the parameters of
    the primary event only: the query has the name of the event that was
    set under [en], and no [en] when it was set to [null]; every key other
    than [en], [_fv], [_nsi], [_ss] and the keys with the prefix [ep] has
    the value it had; and the parameters of the secondary events are the
    same. *)
Theorem primary_event_accessors :
  forall r e,
    events (set_event r e) = e :: slice1 (events r)
    /\ primaryEvent (set_event r e) = e
    /\ event (set_event r e) = e
    /\ slice1 (events (set_event r e)) = slice1 (events r)
    /\ (forall e', set_event (set_event r e) e' = set_event r e')
    /\ (events r <> [] -> set_event r (event r) = r)
    /\ (events r <> [] ->
        length (events (set_event r e)) = length (events r))
    /\ (events r = [] -> length (events (set_event r e)) = 1%nat)
    /\ measurementId (set_event r e) = measurementId r
    /\ client (set_event r e) = client r
    /\ user (set_event r e) = user r
    /\ session (set_event r e) = session r
    /\ campaign (set_event r e) = campaign r
    /\ page (set_event r e) = page r
    /\ (forall snakeCase sess,
          get (queryParams snakeCase (set_event r e) sess) "en"
          = event_name <$> e)
    /\ (forall snakeCase sess k,
          k ∉ ["en"; "_fv"; "_nsi"; "_ss"] ->
          String.prefix "ep" k = false ->
          get (queryParams snakeCase (set_event r e) sess) k
          = get (queryParams snakeCase r sess) k)
    /\ (forall snakeCase,
          eventParamsList snakeCase (slice1 (events (set_event r e)))
          = eventParamsList snakeCase (slice1 (events r))).
Proof.
  intros r e.
  assert (events (set_event r e) = e :: slice1 (events r)) as Hev.
  { unfold set_event. cbn [events]. now destruct (events r). }
  split; [exact Hev|].
  split; [unfold primaryEvent; rewrite Hev; now destruct e|].
  split; [unfold event; now rewrite Hev|].
  split; [now rewrite Hev|].
  split; [intros e'; unfold set_event; cbn; now destruct (events r)|].
  split; [intros H; destruct r as [? ? ? ? ? ? [|? ?]]; cbn in *;
          [congruence|reflexivity]|].
  split; [rewrite Hev; destruct (events r); [congruence|reflexivity]|].
  split; [intros H; now rewrite Hev, H|].
  do 6 (split; [reflexivity|]).
  split; [|split].
  - intros sc sess. rewrite get_queryParams_en. unfold event.
    now rewrite Hev.
  - intros sc sess k Hk Hep. now rewrite !get_queryParams_frame.
  - intros sc. now rewrite Hev.
Qed.

Lemma primary_event_accessors_witness :
  set_event exampleReport (event exampleReport) = exampleReport
  /\ length (events (set_event exampleReport None)) = 1%nat
  /\ length (events (set_event (withEvents exampleReport []) None)) = 1%nat
  /\ get (queryParams Imported.snakeCase (set_event exampleReport None)
            (Some exampleSession)) "up.plan_name"
     = get (queryParams Imported.snakeCase exampleReport
              (Some exampleSession)) "up.plan_name".
Proof.
  destruct (primary_event_accessors exampleReport None)
    as (_ & _ & _ & _ & _ & _ & Hlen & _ & _ & _ & _ & _ & _ & _ & _
        & Hframe & _).
  destruct (primary_event_accessors exampleReport (event exampleReport))
    as (_ & _ & _ & _ & _ & Hsame & _).
  destruct (primary_event_accessors (withEvents exampleReport []) None)
    as (_ & _ & _ & _ & _ & _ & _ & Hone & _).
  split; [apply Hsame; discriminate|].
  split; [apply Hlen; discriminate|].
  split; [apply Hone; reflexivity|].
  apply Hframe; [|reflexivity].
  apply (bool_decide_unpack _). vm_compute. exact I.
Defined.

(** ** Custom parameters under one key *)

Lemma get_addCustomParams sc prefix (entries : list (string * Primitive))
    (k : string) : forall q,
  get (addCustomParams sc prefix q entries) k
  = match lastCustom sc prefix entries k with
    | Some text => Some text
    | None => get q k
    end.
Proof.
  unfold addCustomParams.
  induction entries as [|[n v] entries IH]; intros q; [reflexivity|].
  cbn [fold_left fst snd lastCustom]. rewrite IH.
  destruct (lastCustom sc prefix entries k); [reflexivity|].
  rewrite maybeAddCustomEventParam_spec.
  destruct (defined v); [|reflexivity]. cbn [andb].
  destruct (String.eqb_spec (customKey sc prefix n v) k) as [<-|Hne].
  - apply get_assign_eq.
  - now apply get_assign_ne.
Qed.

Lemma prefixed_not_short (k : string) :
  String.prefix "ep" k = true \/ String.prefix "up" k = true ->
  (k ∉ commonNames) /\ (k ∉ eventNames).
Proof.
  intros H. split; intros Hin;
    (destruct (names_no_prefix k) as [Hep Hup];
     [apply elem_of_app; auto|destruct H; congruence]).
Qed.

Lemma get_common_prefixed r sess k :
  String.prefix "ep" k = true \/ String.prefix "up" k = true ->
  get (addShortParams [] (commonFields r sess)) k = None.
Proof.
  intros H. apply prefixed_not_short in H as [H _].
  now rewrite get_addShortParams_other.
Qed.

(** X21. Custom parameters under one key. When several custom parameters
    are emitted under the same key (their names have the same snake case),
    the key has the value of the last of them: the value of a key with the
    prefix [ep] in the query is that of the last such parameter among the
    category, the label and the parameters of the primary event, the value
    of a key with the prefix [up] that of the last such user property, and
    likewise in the parameters of a secondary event. *)
Theorem custom_parameters_last_one_wins :
  forall snakeCase r sess k,
    (String.prefix "ep" k = true ->
     get (queryParams snakeCase r sess) k
     = match event r with
       | Some ev => lastCustom snakeCase "ep" (eventCustomParams ev) k
       | None => None
       end)
    /\ (String.prefix "up" k = true ->
        get (queryParams snakeCase r sess) k
        = lastCustom snakeCase "up" (user_properties (user r)) k)
    /\ (forall ev p,
          eventParams snakeCase (Some ev) = Ok p ->
          String.prefix "ep" k = true ->
          get p k = lastCustom snakeCase "ep" (eventCustomParams ev) k)
    /\ (forall prefix before name value after,
          defined value = true ->
          customKey snakeCase prefix name value = k ->
          (forall name' value',
             (name', value') ∈ after -> defined value' = true ->
             customKey snakeCase prefix name' value' <> k) ->
          lastCustom snakeCase prefix (before ++ (name, value) :: after) k
          = Some (String_ value)).
Proof.
  intros sc r sess k. split; [|split; [|split]].
  - intros Hep. rewrite queryParams_unfold.
    rewrite get_addCustomParams_other.
    2:{ destruct (String.prefix "up" k) eqn:E; auto.
        exfalso. now apply (prefix_ep_up k). }
    destruct (prefixed_not_short k (or_introl Hep)) as [Hc He].
    destruct (event r) as [ev|].
    + rewrite get_addShortParams_other by exact He.
      rewrite get_addCustomParams.
      rewrite get_common_prefixed by auto.
      now destruct (lastCustom _ _ _ _).
    + now rewrite get_common_prefixed by auto.
  - intros Hup. rewrite queryParams_unfold, get_addCustomParams.
    destruct (lastCustom sc "up" _ k); [reflexivity|].
    destruct (prefixed_not_short k (or_intror Hup)) as [Hc He].
    destruct (event r) as [ev|].
    + rewrite get_addShortParams_other by exact He.
      rewrite get_addCustomParams_other.
      * now rewrite get_common_prefixed by auto.
      * destruct (String.prefix "ep" k) eqn:E; auto.
        exfalso. now apply (prefix_ep_up k).
    + now rewrite get_common_prefixed by auto.
  - intros ev p [= <-] Hep.
    change (get (secondaryParams sc ev) k
            = lastCustom sc "ep" (eventCustomParams ev) k).
    unfold secondaryParams. rewrite get_addCustomParams.
    destruct (lastCustom sc "ep" _ k); [reflexivity|].
    cbn [maybeAddShortParam String_ assign get].
    destruct (String.eqb_spec "en" k) as [<-|_]; [discriminate|reflexivity].
  - intros prefix before name value after Hd Hk Hnone.
    assert (lastCustom sc prefix after k = None) as Hrest.
    { induction after as [|[n v] after IH]; [reflexivity|].
      cbn [lastCustom]. rewrite IH.
      - destruct (defined v) eqn:Hv; [|reflexivity]. cbn [andb].
        destruct (String.eqb_spec (customKey sc prefix n v) k) as [E|E];
          [|reflexivity].
        exfalso. apply (Hnone n v); [left|exact Hv|exact E].
      - intros n' v' Hin. apply Hnone. now right. }
    induction before as [|[n v] before IH].
    + cbn [app lastCustom]. rewrite Hrest, Hd, Hk, String.eqb_refl.
      reflexivity.
    + cbn [app lastCustom]. now rewrite IH.
Qed.

Lemma custom_parameters_last_one_wins_witness :
  get (queryParams Imported.snakeCase exampleShadowed (Some exampleSession))
      "ep.event_category" = Some "spoofed"
  /\ get (queryParams Imported.snakeCase exampleShadowed
            (Some exampleSession)) "ep.my_flag" = Some "false"
  /\ get (queryParams Imported.snakeCase exampleReport (Some exampleSession))
         "up.plan_name" = Some "pro"
  /\ lastCustom Imported.snakeCase "ep"
       [("myFlag", PBoolean true); ("my_flag", PBoolean false)] "ep.my_flag"
     = Some "false".
Proof.
  split; [|split; [|split]].
  - apply (proj1 (custom_parameters_last_one_wins Imported.snakeCase
                    exampleShadowed (Some exampleSession)
                    "ep.event_category")).
    reflexivity.
  - apply (proj1 (custom_parameters_last_one_wins Imported.snakeCase
                    exampleShadowed (Some exampleSession) "ep.my_flag")).
    reflexivity.
  - apply (proj1 (proj2 (custom_parameters_last_one_wins Imported.snakeCase
                           exampleReport (Some exampleSession)
                           "up.plan_name"))).
    reflexivity.
  - apply (proj2 (proj2 (proj2 (custom_parameters_last_one_wins
             Imported.snakeCase exampleReport None "ep.my_flag")))
             "ep" [("myFlag", PBoolean true)] "my_flag" (PBoolean false) []);
      [reflexivity|reflexivity|].
    intros n v H. inversion H.
Defined.

(** ** A new session *)

Lemma length_zeros (n : nat) :
  String.length (string_of_list_ascii (repeat "0"%char n)) = n
  /\ allBytes isZero (string_of_list_ascii (repeat "0"%char n)) = true.
Proof.
  induction n as [|n [IH1 IH2]]; [split; reflexivity|].
  cbn [repeat string_of_list_ascii String.length allBytes].
  rewrite IH1, IH2. split; reflexivity.
Qed.

(** X22. A new session. For a connection without a session, [getSession]
    allocates one at a reference that was free and leaves the other
    sessions alone. The new session has its [start] flag set, no hits and
    is [engaged]; its id is the random text with zeros before it up to ten
    characters; its number is the number of whole minutes from the start of
    2020 to the current time. *)
Theorem new_session_fields :
  forall conn platform w,
    sessionMap w !! conn_identity conn = None ->
    exists s zeros,
      heap (getSession conn platform w).1 !! (getSession conn platform w).2
      = Some s
      /\ heap w !! (getSession conn platform w).2 = None
      /\ (forall ref,
            ref <> (getSession conn platform w).2 ->
            heap (getSession conn platform w).1 !! ref = heap w !! ref)
      /\ session_start s = Some true
      /\ session_hitCount s = 0
      /\ session_engaged s = true
      /\ session_id s = zeros +:+ random36 platform
      /\ allBytes isZero zeros = true
      /\ String.length zeros
         = (10 - String.length (random36 platform))%nat
      /\ (10 <= String.length (session_id s))%nat
      /\ START_OF_2020 + MINUTE * session_number s <= Date_now platform
      /\ Date_now platform < START_OF_2020 + MINUTE * (session_number s + 1).
Proof.
  intros conn platform w Hnew. rewrite (getSession_new _ _ _ Hnew).
  cbn [fst snd heap].
  destruct (length_zeros (10 - String.length (random36 platform)))
    as [Hlen Hzero].
  exists (newSession platform),
         (string_of_list_ascii
            (repeat "0"%char (10 - String.length (random36 platform)))).
  split; [rewrite lookup_app_r by lia; now rewrite Nat.sub_diag|].
  split; [apply lookup_ge_None_2; lia|].
  split.
  { intros ref Href.
    destruct (Nat.lt_ge_cases ref (length (heap w))) as [Hlt|Hge].
    - now rewrite lookup_app_l.
    - rewrite lookup_app_r by lia.
      rewrite (lookup_ge_None_2 (heap w)) by lia.
      destruct (ref - length (heap w))%nat as [|n] eqn:E; [lia|reflexivity]. }
  cbn [newSession session_start session_hitCount session_engaged
       session_id session_number].
  split; [reflexivity|]. split; [reflexivity|]. split; [reflexivity|].
  split; [reflexivity|]. split; [exact Hzero|]. split; [exact Hlen|].
  split.
  { unfold padStart0. rewrite length_append, Hlen. lia. }
  unfold START_OF_2020, MINUTE.
  split; Z.div_mod_to_equations; lia.
Qed.

Lemma new_session_fields_witness :
  exists s zeros,
    heap (getSession otherConn examplePlatform exampleWorld).1 !! 1%nat
    = Some s
    /\ session_id s = zeros +:+ "k3j2h1g0"
    /\ String.length zeros = 2%nat
    /\ session_number s = 3600000.
Proof.
  destruct (new_session_fields otherConn examplePlatform exampleWorld
              eq_refl)
    as (s & zeros & Hs & _ & _ & _ & _ & _ & Hid & _ & Hlen & _ & Hlo & Hhi).
  exists s, zeros. split; [exact Hs|]. split; [exact Hid|].
  split; [exact Hlen|].
  change (1577836800000 + 60000 * session_number s <= 1793836800000)
    in Hlo.
  change (1793836800000 < 1577836800000 + 60000 * (session_number s + 1))
    in Hhi.
  lia.
Defined.

(** ** The measurement id *)

Lemma send_tid sc SHA1 env r w m sent :
  resolvedMeasurementId env r = Some m ->
  network (send sc SHA1 env r w).1.2 = (network w ++ [sent])%list ->
  exists q,
    request_url sent
    = GA4_ENDPOINT_URL +:+ "?" +:+ URLSearchParams_toString q
    /\ get q "tid" = Some m.
Proof.
  intros Hm Hnet.
  destruct (send_effect sc SHA1 env r w)
    as [[Hn _]|(m' & r' & ps & _ & Hm' & _ & Hc & _ & Hn & _)].
  { rewrite Hn in Hnet. now apply app_singleton_neq in Hnet. }
  rewrite Hn in Hnet. apply app_inv_head in Hnet. injection Hnet as <-.
  exists (queryParams sc r' (session r' ≫= (heap w !!.))).
  split; [reflexivity|].
  destruct (short_parameters_values sc r' (session r' ≫= (heap w !!.)))
    as (_ & -> & _).
  apply withClientId_frame in Hc as (_ & _ & _ & _ & _ & -> & _).
  congruence.
Qed.

(** X23. The measurement id of a call that has a truthy event. The id of
    the report counts when there is one, even the empty string: a report
    whose id is the empty string gets the warning and no request, whatever
    the environment holds. Without an id of its own the report takes the
    variable of the environment, and keeps it; when that is missing or
    empty too, the call ends with the warning. An id that is not empty
    stays on the report, and a request that is sent carries it as [tid]. *)
Theorem measurement_id_resolution :
  forall snakeCase SHA1 env r w,
    existsb truthy (events r) = true ->
    (measurementId r = Some "" ->
     send snakeCase SHA1 env r w
     = (r, console_warn w noMeasurementIdWarning, None))
    /\ (measurementId r = None ->
        (GA4_MEASUREMENT_ID env = None
         \/ GA4_MEASUREMENT_ID env = Some "") ->
        send snakeCase SHA1 env r w
        = (set_measurementId r (GA4_MEASUREMENT_ID env),
           console_warn w noMeasurementIdWarning, None))
    /\ (forall m,
          (measurementId r = Some m
           \/ measurementId r = None /\ GA4_MEASUREMENT_ID env = Some m) ->
          m <> "" ->
          measurementId (send snakeCase SHA1 env r w).1.1 = Some m
          /\ forall sent,
               network (send snakeCase SHA1 env r w).1.2
                 = (network w ++ [sent])%list ->
               exists q,
                 request_url sent
                 = GA4_ENDPOINT_URL +:+ "?" +:+ URLSearchParams_toString q
                 /\ get q "tid" = Some m).
Proof.
  intros sc SHA1 env r w Hev. split; [|split].
  - intros Hm. unfold send. rewrite Hev, Hm. cbn [negb].
    rewrite Hm. reflexivity.
  - intros Hm Henv. unfold send. rewrite Hev, Hm. cbn [negb].
    cbn [measurementId set_measurementId].
    destruct Henv as [-> | ->]; reflexivity.
  - intros m Hm Hne.
    assert (resolvedMeasurementId env r = Some m) as Hres.
    { unfold resolvedMeasurementId.
      destruct Hm as [-> |[-> ->]]; reflexivity. }
    split; [|intros sent; now apply send_tid].
    rewrite send_result_report, Hev, Hres.
    assert (nonEmpty m = true) as ->
      by (destruct m; [congruence|reflexivity]).
    destruct (withClientId SHA1 r m) as [r'|] eqn:Hc; [|reflexivity].
    now apply withClientId_frame in Hc.
Qed.

Lemma measurement_id_resolution_witness :
  send Imported.snakeCase Imported.SHA1 configuredEnv exampleBlank
    exampleWorld
  = (exampleBlank, console_warn exampleWorld noMeasurementIdWarning, None)
  /\ measurementId (send Imported.snakeCase Imported.SHA1 configuredEnv
                      exampleUnconfigured exampleWorld).1.1
     = Some "G-FROM-ENV"
  /\ measurementId (send Imported.snakeCase Imported.SHA1 configuredEnv
                      exampleReport exampleWorld).1.1
     = Some "G-EXAMPLE".
Proof.
  split; [|split].
  - apply (proj1 (measurement_id_resolution Imported.snakeCase
                    Imported.SHA1 configuredEnv exampleBlank exampleWorld
                    eq_refl)).
    reflexivity.
  - apply (proj2 (proj2 (measurement_id_resolution Imported.snakeCase
             Imported.SHA1 configuredEnv exampleUnconfigured exampleWorld
             eq_refl)) "G-FROM-ENV"); [right; split; reflexivity|discriminate].
  - apply (proj2 (proj2 (measurement_id_resolution Imported.snakeCase
             Imported.SHA1 configuredEnv exampleReport exampleWorld
             eq_refl)) "G-EXAMPLE"); [left; reflexivity|discriminate].
Defined.

(** * The page title *)

(** ** Trimming *)

Lemma run_WhiteSpace_byte {A} (a : ascii) (s : string)
    (k : string -> option A) :
  isAscii a = true ->
  run WhiteSpace (String a s) k = if asciiSpace a then k s else None.
Proof.
  destruct a as [[] [] [] [] [] [] [] []]; try discriminate; intros _;
    cbn; try reflexivity; now destruct (k s).
Qed.

Lemma run_WhiteSpace_empty {A} (k : string -> option A) :
  run WhiteSpace "" k = None.
Proof. reflexivity. Qed.

(** The greedy star takes the whole run of white space when what follows
    succeeds on it. *)
Lemma run_spaces_all {A} (s : string) (k : string -> option A) :
  allBytes isAscii s = true ->
  (forall x, k x <> None) ->
  run (Star WhiteSpace) s k = k (dropBytes (runLength asciiSpace s) s).
Proof.
  intros Hs Hk. induction s as [|a s IH]; rewrite run_Star.
  - now rewrite run_WhiteSpace_empty.
  - cbn [allBytes] in Hs. apply andb_true_iff in Hs as [Ha Hs].
    rewrite run_WhiteSpace_byte by auto. cbn [runLength].
    destruct (asciiSpace a); [|reflexivity].
    rewrite length_lt_cons, IH by auto. cbn [dropBytes].
    destruct (k (dropBytes (runLength asciiSpace s) s)) eqn:E; [reflexivity|].
    now apply Hk in E.
Qed.

Lemma stripStart_dropBytes (s : string) :
  stripStart s = dropBytes (runLength asciiSpace s) s.
Proof.
  induction s as [|a s IH]; [reflexivity|].
  cbn [stripStart runLength]. destruct (asciiSpace a); [exact IH|reflexivity].
Qed.

Lemma trimStart_ascii (s : string) :
  allBytes isAscii s = true -> trimStart s = stripStart s.
Proof.
  intros Hs. unfold trimStart, matchLen.
  rewrite run_spaces_all by (auto; discriminate).
  rewrite length_dropBytes, stripStart_dropBytes.
  pose proof (runLength_le asciiSpace s).
  replace (String.length s - (String.length s - runLength asciiSpace s))%nat
    with (runLength asciiSpace s) by lia.
  reflexivity.
Qed.

Lemma stripStart_ascii (s : string) :
  allBytes isAscii s = true -> allBytes isAscii (stripStart s) = true.
Proof.
  induction s as [|a s IH]; [reflexivity|]. intros Hs.
  cbn [stripStart]. destruct (asciiSpace a); [|exact Hs].
  cbn [allBytes] in Hs. apply andb_true_iff in Hs as [_ Hs]. auto.
Qed.

(** White space up to the end of the input. *)
Lemma run_spaces_to_end {A} (s : string) (k : string -> option A) :
  allBytes isAscii s = true ->
  run (Star WhiteSpace) s (fun rest => run AtEnd rest k)
  = if allBytes asciiSpace s then k "" else None.
Proof.
  intros Hs. induction s as [|a s IH]; rewrite run_Star.
  - now rewrite run_WhiteSpace_empty.
  - cbn [allBytes] in Hs. apply andb_true_iff in Hs as [Ha Hs].
    rewrite run_WhiteSpace_byte by auto. cbn [allBytes].
    destruct (asciiSpace a); [|reflexivity].
    rewrite length_lt_cons, IH by auto. cbn [andb].
    destruct (allBytes asciiSpace s); [|reflexivity]. now destruct (k "").
Qed.

Lemma matchLen_trailing (a : ascii) (s : string) :
  allBytes isAscii (String a s) = true ->
  matchLen (Seq (Plus WhiteSpace) AtEnd) (String a s)
  = if (asciiSpace a && allBytes asciiSpace s)%bool
    then Some (String.length (String a s)) else None.
Proof.
  intros Hs. cbn [allBytes] in Hs. apply andb_true_iff in Hs as [Ha Hs].
  unfold matchLen, Plus.
  set (k := fun rest : string =>
              Some (String.length (String a s) - String.length rest)%nat).
  change (run WhiteSpace (String a s)
            (fun r1 => run (Star WhiteSpace) r1
                         (fun r2 => run AtEnd r2 k))
          = if (asciiSpace a && allBytes asciiSpace s)%bool
            then Some (String.length (String a s)) else None).
  rewrite run_WhiteSpace_byte by auto.
  destruct (asciiSpace a); [|reflexivity].
  rewrite run_spaces_to_end by auto. cbn [andb].
  destruct (allBytes asciiSpace s); [|reflexivity].
  unfold k. cbn [String.length]. f_equal; lia.
Qed.

Lemma trimEnd_ascii (s : string) :
  allBytes isAscii s = true -> trimEnd s = stripEnd s.
Proof.
  unfold trimEnd. induction s as [|a s IH]; intros Hs; [reflexivity|].
  cbn [replace stripEnd]. rewrite matchLen_trailing by exact Hs.
  destruct (asciiSpace a && allBytes asciiSpace s)%bool.
  - change ("" +:+ dropBytes (String.length (String a s)) (String a s))
      with (dropBytes (String.length (String a s)) (String a s)).
    apply dropBytes_all.
  - f_equal. apply IH.
    cbn [allBytes] in Hs. now apply andb_true_iff in Hs.
Qed.

(** On ASCII text, [trim] removes the white space at both ends. *)
Lemma trim_ascii (s : string) :
  allBytes isAscii s = true -> trim s = stripped s.
Proof.
  intros Hs. unfold trim, stripped.
  rewrite trimStart_ascii by exact Hs.
  apply trimEnd_ascii, stripStart_ascii, Hs.
Qed.

(** ** Escapes *)

Lemma unescapeBytes_escapeByte (a : ascii) (t : string) :
  unescapeBytes (escapeByte a +:+ t)
  = option_map (cons (a, true)) (unescapeBytes t).
Proof. destruct a as [[] [] [] [] [] [] [] []]; reflexivity. Qed.

Lemma code_percent (a : ascii) : N.eqb (code a) 37 = true -> a = "%"%char.
Proof.
  intros H. apply N.eqb_eq in H. unfold code in H.
  apply (f_equal ascii_of_N) in H. now rewrite ascii_N_embedding in H.
Qed.

Lemma code_slash (a : ascii) : N.eqb (code a) 47 = true -> a = "/"%char.
Proof.
  intros H. apply N.eqb_eq in H. unfold code in H.
  apply (f_equal ascii_of_N) in H. now rewrite ascii_N_embedding in H.
Qed.

Lemma unescapeBytes_escapeWhere (p : ascii -> bool) (s : string) :
  p "%"%char = true ->
  unescapeBytes (escapeWhere p s)
  = Some (map (fun a => (a, p a)) (list_ascii_of_string s)).
Proof.
  intros Hp. induction s as [|a s IH]; [reflexivity|].
  cbn [escapeWhere list_ascii_of_string map]. destruct (p a) eqn:E.
  - now rewrite unescapeBytes_escapeByte, IH.
  - change (String a "" +:+ escapeWhere p s)
      with (String a (escapeWhere p s)).
    cbn [unescapeBytes]. destruct (N.eqb (code a) 37) eqn:Ha.
    + apply code_percent in Ha. congruence.
    + now rewrite IH.
Qed.

Lemma escapesWellFormed_ascii (p : ascii -> bool) (s : string) :
  allBytes isAscii s = true ->
  escapesWellFormed AtStart
    (map (fun a => (a, p a)) (list_ascii_of_string s)) = true.
Proof.
  induction s as [|a s IH]; [reflexivity|]. cbn [allBytes].
  rewrite andb_true_iff. intros [Ha Hs].
  cbn [list_ascii_of_string map escapesWellFormed].
  unfold utf8Lead. unfold isAscii in Ha. rewrite Ha.
  destruct (p a); auto.
Qed.

(** Decoding undoes the escaping, whatever is escaped with the [%]. *)
Lemma decodeURIComponent_escapeWhere (p : ascii -> bool) (s : string) :
  p "%"%char = true -> allBytes isAscii s = true ->
  decodeURIComponent (escapeWhere p s) = Some s.
Proof.
  intros Hp Hs. unfold decodeURIComponent.
  rewrite unescapeBytes_escapeWhere, escapesWellFormed_ascii by auto.
  rewrite map_map. cbn [fst]. rewrite map_id.
  now rewrite string_of_list_ascii_of_string.
Qed.

Lemma escapeWhere_allBytes (p q : ascii -> bool) (s : string) :
  (forall a, q a = false -> p a = true) ->
  (forall a, allBytes q (escapeByte a) = true) ->
  allBytes q (escapeWhere p s) = true.
Proof.
  intros Hq Hesc. induction s as [|a s IH]; [reflexivity|].
  cbn [escapeWhere]. rewrite allBytes_app, IH, andb_true_r.
  destruct (p a) eqn:E; [apply Hesc|].
  cbn [allBytes]. rewrite andb_true_r.
  destruct (q a) eqn:Q; [reflexivity|]. apply Hq in Q. congruence.
Qed.

Lemma escapeByte_notSlash (a : ascii) :
  allBytes notSlash (escapeByte a) = true.
Proof. destruct a as [[] [] [] [] [] [] [] []]; reflexivity. Qed.

Lemma escapeByte_notDot (a : ascii) : allBytes notDot (escapeByte a) = true.
Proof. destruct a as [[] [] [] [] [] [] [] []]; reflexivity. Qed.

Lemma escapeWhere_notSlash (p : ascii -> bool) (s : string) :
  p "/"%char = true -> allBytes notSlash (escapeWhere p s) = true.
Proof.
  intros Hp. apply escapeWhere_allBytes; [|exact escapeByte_notSlash].
  intros a Ha. unfold notSlash in Ha. apply negb_false_iff in Ha.
  apply code_slash in Ha. now subst a.
Qed.

Lemma escapeWhere_notDot (p : ascii -> bool) (s : string) :
  p "."%char = true -> allBytes notDot (escapeWhere p s) = true.
Proof.
  intros Hp. apply escapeWhere_allBytes; [|exact escapeByte_notDot].
  intros a Ha. unfold notDot in Ha. apply negb_false_iff in Ha.
  apply code_dot in Ha. now subst a.
Qed.

Lemma escapeWhere_nonEmpty (p : ascii -> bool) (s : string) :
  s <> "" -> escapeWhere p s <> "".
Proof.
  destruct s as [|a s]; [congruence|]. intros _. cbn [escapeWhere].
  destruct (p a); discriminate.
Qed.

(** ** The segments of a path and its title *)

Lemma segmentsOf_segment (seg : string) : forall piece rest,
  allBytes notSlash seg = true ->
  segmentsOf piece (seg +:+ rest) = segmentsOf (piece +:+ seg) rest.
Proof.
  induction seg as [|a seg IH]; intros piece rest Hs.
  - now rewrite append_empty_r.
  - cbn [allBytes] in Hs. apply andb_true_iff in Hs as [Ha Hs].
    change (String a seg +:+ rest) with (String a (seg +:+ rest)).
    cbn [segmentsOf]. unfold notSlash in Ha. apply negb_true_iff in Ha.
    unfold isSlash. rewrite Ha, IH by auto. now rewrite append_assoc.
Qed.

Lemma segmentsOf_join (segments : list string) :
  Forall (fun s => s <> "" /\ allBytes notSlash s = true) segments ->
  segmentsOf "" (join "/" segments) = segments.
Proof.
  induction segments as [|seg l IH]; [reflexivity|]. intros H.
  apply Forall_cons in H as [[Hne Hs] Hl].
  assert (nonEmpty seg = true) as Hn by (destruct seg; [congruence|auto]).
  destruct l as [|seg2 l].
  - cbn [join]. rewrite <- (append_empty_r seg) at 1.
    rewrite segmentsOf_segment by auto. cbn [segmentsOf].
    change ("" +:+ seg) with seg. now rewrite Hn.
  - rewrite join_cons2, segmentsOf_segment by auto.
    change ("/" +:+ join "/" (seg2 :: l))
      with (String "/" (join "/" (seg2 :: l))).
    cbn [segmentsOf]. change (isSlash "/") with true. cbv iota.
    change ("" +:+ seg) with seg. rewrite Hn. f_equal. now apply IH.
Qed.

Lemma segmentsOf_pathOf (segments : list string) :
  Forall (fun s => s <> "" /\ allBytes notSlash s = true) segments ->
  segmentsOf "" (pathOf segments) = segments.
Proof.
  intros H. unfold pathOf.
  change ("/" +:+ join "/" segments) with (String "/" (join "/" segments)).
  cbn [segmentsOf]. change (isSlash "/") with true. cbv iota.
  change (nonEmpty "") with false. cbv iota. now apply segmentsOf_join.
Qed.

Lemma cleanPiece_empty : cleanPiece "" = "".
Proof. reflexivity. Qed.

(** The empty pieces of a path can be dropped before the decoding as well as
    after the cleaning. *)
Lemma decodeAll_filter (f : string -> string) (l : list string) :
  f "" = "" ->
  match decodeAll l with
  | Throw e => decodeAll (filter (fun x => nonEmpty x) l) = Throw e
  | Ok ds =>
      exists ds',
        decodeAll (filter (fun x => nonEmpty x) l) = Ok ds'
        /\ filter (fun x => nonEmpty x) (map f ds)
           = filter (fun x => nonEmpty x) (map f ds')
  end.
Proof.
  intros Hf. induction l as [|p l IH]; [now exists []|].
  destruct p as [|a p].
  - rewrite filter_cons_False by (cbn; auto).
    change (decodeAll ("" :: l))
      with (match decodeAll l with
            | Throw err => Throw err
            | Ok ds => Ok ("" :: ds)
            end).
    destruct (decodeAll l) as [ds|e]; [|exact IH].
    destruct IH as (ds' & Hd & Heq). exists ds'. split; [exact Hd|].
    cbn [map]. rewrite Hf. now rewrite filter_cons_False by (cbn; auto).
  - rewrite filter_cons_True by exact I. cbn [decodeAll].
    destruct (decodeURIComponent (String a p)) as [d|]; [|reflexivity].
    destruct (decodeAll l) as [ds|e].
    + destruct IH as (ds' & -> & Heq). exists (d :: ds').
      split; [reflexivity|]. cbn [map].
      destruct (nonEmpty (f d)) eqn:E.
      * rewrite !filter_cons_True by (now rewrite E). now rewrite Heq.
      * rewrite !filter_cons_False by (now rewrite E). exact Heq.
    + now rewrite IH.
Qed.

(** The title of a path, from its segments: the pieces between the slashes
    that are not empty. *)
Lemma titleOfPath_segments (path : string) :
  titleOfPath path
  = match decodeAll (segmentsOf "" (replace fileExtension "" path)) with
    | Throw err => Throw err
    | Ok pieces =>
        Ok (titleOf (filter (fun x => nonEmpty x) (map cleanPiece pieces)))
    end.
Proof.
  unfold titleOfPath. rewrite <- split_segments.
  pose proof (decodeAll_filter cleanPiece
                (split slashes (replace fileExtension "" path))
                cleanPiece_empty) as H.
  destruct (decodeAll (split slashes (replace fileExtension "" path)))
    as [ds|e].
  - destruct H as (ds' & -> & Heq). cbv zeta.
    rewrite !map_map. fold cleanPiece.
    change (map (fun x => trim (replace versionNumber ""
                                  (replaceAll spacesAndUnderbars " " x))) ds)
      with (map cleanPiece ds).
    rewrite Heq. f_equal. apply titleOf_join.
    apply Forall_forall. intros s Hs.
    apply list_elem_of_filter in Hs as [Hs _]. intros ->. exact Hs.
  - now rewrite H.
Qed.

(** ** The cleaning of a piece *)

Lemma collapseGaps_app (s : string) : forall (b : bool) (a : ascii) t,
  isGap a = false ->
  collapseGaps b (s +:+ String a t)
  = collapseGaps b s +:+ String a (collapseGaps false t).
Proof.
  induction s as [|x s IH]; intros b a t Ha.
  - change ("" +:+ String a t) with (String a t).
    cbn [collapseGaps]. now rewrite Ha.
  - change (String x s +:+ String a t) with (String x (s +:+ String a t)).
    cbn [collapseGaps]. destruct (isGap x), b; now rewrite IH.
Qed.

Lemma collapseGaps_none (s : string) (b : bool) :
  allBytes (fun a => negb (isGap a)) s = true -> collapseGaps b s = s.
Proof.
  revert b. induction s as [|a s IH]; intros b Hs; [reflexivity|].
  cbn [allBytes] in Hs. apply andb_true_iff in Hs as [Ha Hs].
  apply negb_true_iff in Ha. cbn [collapseGaps]. rewrite Ha. f_equal. auto.
Qed.

Lemma digitOrDot_byte (a : ascii) :
  digitOrDot a = true -> (negb (isGap a) && isAscii a)%bool = true.
Proof. by_bytes a. Qed.

Lemma version_bytes (v : string) :
  isVersion v = true ->
  allBytes (fun a => negb (isGap a) && isAscii a)%bool v = true.
Proof.
  assert (forall s, allBytes digitOrDot s = true ->
            allBytes (fun a => negb (isGap a) && isAscii a)%bool s = true)
    as Hd.
  { intros s. apply allBytes_weaken. exact digitOrDot_byte. }
  destruct v as [|a ds]; [discriminate|]. cbn [isVersion].
  destruct (N.eqb (code a) 118) eqn:E.
  - apply code_v in E. subst a. rewrite andb_true_iff. intros [_ H].
    cbn [allBytes]. now rewrite Hd.
  - exact (Hd (String a ds)).
Qed.

Lemma collapseGaps_ascii (s : string) : forall b,
  allBytes isAscii s = true -> allBytes isAscii (collapseGaps b s) = true.
Proof.
  induction s as [|a s IH]; intros b Hs; [reflexivity|].
  cbn [allBytes] in Hs. apply andb_true_iff in Hs as [Ha Hs].
  cbn [collapseGaps]. destruct (isGap a).
  - destruct b; [now apply IH|]. cbn [allBytes]. now rewrite IH.
  - cbn [allBytes]. now rewrite Ha, IH.
Qed.

Lemma gap_notAt (a : ascii) : isGap a = true -> notAt a = true.
Proof. by_bytes a. Qed.

Lemma collapseGaps_notAt (s : string) : forall b,
  allBytes notAt s = true -> allBytes notAt (collapseGaps b s) = true.
Proof.
  induction s as [|a s IH]; intros b Hs; [reflexivity|].
  cbn [allBytes] in Hs. apply andb_true_iff in Hs as [Ha Hs].
  cbn [collapseGaps]. destruct (isGap a).
  - destruct b; [now apply IH|]. cbn [allBytes]. now rewrite IH.
  - cbn [allBytes]. now rewrite Ha, IH.
Qed.

Lemma notAt_version (a : ascii) :
  notAt a = true -> first versionNumber a = false.
Proof.
  rewrite versionNumber_first. unfold notAt. apply negb_true_iff.
Qed.

Lemma pieceText_ascii (piece : string * option string) :
  wellFormedPiece piece = true -> allBytes isAscii (pieceText piece) = true.
Proof.
  unfold wellFormedPiece, pieceText. rewrite !andb_true_iff.
  intros [[Ha _] Hv]. destruct (snd piece) as [v|]; [|exact Ha].
  rewrite !allBytes_app, Ha. cbn [allBytes andb isAscii].
  apply version_bytes in Hv.
  apply (allBytes_weaken (fun a => negb (isGap a) && isAscii a)%bool);
    [|exact Hv].
  intros a H. now apply andb_true_iff in H.
Qed.

Lemma pieceText_nonEmpty (piece : string * option string) :
  wellFormedPiece piece = true -> pieceText piece <> "".
Proof.
  unfold wellFormedPiece, pieceText. rewrite !andb_true_iff.
  intros [_ Hv]. destruct (snd piece) as [v|].
  - destruct (fst piece); discriminate.
  - now apply nonEmpty_true.
Qed.

(** What the steps after the decoding make of a piece. *)
Lemma cleanPiece_pieceText (piece : string * option string) :
  wellFormedPiece piece = true ->
  cleanPiece (pieceText piece) = pieceTitle piece.
Proof.
  intros Hw. pose proof (pieceText_ascii piece Hw) as Htext.
  unfold cleanPiece, pieceTitle.
  rewrite (proj1 (replaceAll_gaps _ Htext)).
  unfold wellFormedPiece in Hw. rewrite !andb_true_iff in Hw.
  destruct Hw as [[Ha Hat] Hv]. unfold pieceText.
  destruct (snd piece) as [v|].
  - change ("@" +:+ v) with (String "@" v).
    rewrite collapseGaps_app by reflexivity.
    rewrite (collapseGaps_none v).
    2:{ apply version_bytes in Hv.
        apply (allBytes_weaken (fun a => negb (isGap a) && isAscii a)%bool);
          [|exact Hv].
        intros a H. now apply andb_true_iff in H. }
    change (String "@" v) with ("@" +:+ v).
    rewrite replace_versionNumber
      by (auto using collapseGaps_notAt).
    apply trim_ascii, collapseGaps_ascii, Ha.
  - rewrite (replace_none _ _ _ notAt);
      auto using notAt_version, collapseGaps_notAt.
    apply trim_ascii, collapseGaps_ascii, Ha.
Qed.

Lemma decodeAll_escaped (p : ascii -> bool) (texts : list string) :
  p "%"%char = true ->
  Forall (fun s => allBytes isAscii s = true) texts ->
  decodeAll (map (escapeWhere p) texts) = Ok texts.
Proof.
  intros Hp. induction texts as [|s l IH]; [reflexivity|]. intros H.
  apply Forall_cons in H as [Hs Hl]. cbn [map decodeAll].
  now rewrite decodeURIComponent_escapeWhere, IH.
Qed.

(** The title of a path whose pieces are escaped. *)
Lemma titleOfPath_pieces (p : ascii -> bool)
    (pieces : list (string * option string)) :
  p "%"%char = true -> p "/"%char = true -> p "."%char = true ->
  forallb wellFormedPiece pieces = true ->
  titleOfPath (pathOf (map (fun piece => escapeWhere p (pieceText piece))
                         pieces))
  = Ok (titleOf (filter (fun t => nonEmpty t) (map pieceTitle pieces))).
Proof.
  intros Hpc Hsl Hdot Hw.
  assert (Forall (fun piece => wellFormedPiece piece = true) pieces) as HW.
  { apply Forall_forall. intros piece Hin.
    rewrite forallb_forall in Hw. apply Hw.
    now apply list_elem_of_In. }
  rewrite <- (map_map pieceText (escapeWhere p)).
  set (texts := map pieceText pieces).
  assert (Forall (fun s => s <> "" /\ allBytes isAscii s = true) texts)
    as Htexts.
  { unfold texts. apply Forall_map. eapply Forall_impl; [exact HW|].
    intros piece H. split; [now apply pieceText_nonEmpty|].
    now apply pieceText_ascii. }
  rewrite titleOfPath_segments.
  rewrite (replace_none _ _ _ notDot).
  2:{ reflexivity. }
  2:{ intros a Ha. rewrite fileExtension_first. unfold notDot in Ha.
      now apply negb_true_iff in Ha. }
  2:{ unfold pathOf.
      change ("/" +:+ join "/" (map (escapeWhere p) texts))
        with (String "/" (join "/" (map (escapeWhere p) texts))).
      cbn [allBytes]. change (notDot "/") with true. cbn [andb].
      apply allBytes_join; [reflexivity|].
      apply Forall_map, Forall_forall. intros s _.
      now apply escapeWhere_notDot. }
  rewrite segmentsOf_pathOf.
  2:{ apply Forall_map. eapply Forall_impl; [exact Htexts|].
      intros s [Hne _]. split; [now apply escapeWhere_nonEmpty|].
      now apply escapeWhere_notSlash. }
  rewrite decodeAll_escaped.
  2:{ exact Hpc. }
  2:{ eapply Forall_impl; [exact Htexts|]. now intros s [_ H]. }
  unfold texts. rewrite map_map. do 3 f_equal.
  apply map_ext_Forall. eapply Forall_impl; [exact HW|].
  intros piece H. now apply cleanPiece_pieceText.
Qed.

(** ** C6: page title *)

(** C6. The title of a request and its response. For a GET or HEAD request
    with a status from 200 to 299 it is the title of the path of the URL:
    the file extension is removed, the path is split at the slashes, every
    piece is URL-decoded, underscores and runs of white space become one
    space, a trailing [@version] is removed, the piece is trimmed, the empty
    pieces are dropped and the rest is joined with [" / "]; an empty result
    is ["(top level)"]. Otherwise the title is the lower-cased
    ["<status> <statusText>"], where an empty status text is replaced by the
    entry of [STATUS_TEXT], or by ["Invalid Status"] when the table has
    none.

    In full: for every path, the pieces are the segments between the
    slashes that are not empty, and the title is made of what the cleaning
    leaves of their decoded texts. The steps do what their names say: the
    extension removed is what follows the first dot after the last slash;
    decoding undoes the escaping of ASCII text, whichever bytes are escaped
    with the [%]; in ASCII text every run of white space and underscores
    becomes one space and trimming removes the white space at both ends;
    and an [@] followed by a version (digits and dots after an optional
    [v]) is removed with it. So a path whose pieces are ASCII names, each
    with or without a version, escaped in any way that escapes [%], [/] and
    [.], gives the names, their runs of white space and underscores
    collapsed and their ends trimmed, without those that are left empty,
    joined by [" / "]; in particular a path of clean segments gives these
    segments joined by [" / "], [/foo/bar] gives ["foo / bar"] and [/] gives
    ["(top level)"]. A title is never empty. (A piece that does not decode
    makes the derivation throw.) *)
Theorem page_title_derivation :
  (forall URL_parse STATUS_TEXT request response,
     getPageTitle URL_parse STATUS_TEXT request response =
       if (String.eqb (method request) "GET"
           || String.eqb (method request) "HEAD")
          && ((200 <=? status response) && (status response <=? 299))
       then match URL_parse (url request) with
            | Some u => titleOfPath (pathname u)
            | None => Throw (TypeError "Invalid URL")
            end
       else Ok (toLowerCase
                  (Z_to_string (status response) +:+ " "
                   +:+ (if String.eqb (statusText response) ""
                        then default "Invalid Status"
                               (STATUS_TEXT (status response))
                        else statusText response))))
  /\ (forall path,
        titleOfPath path =
          match
            decodeAll (segmentsOf "" (replace fileExtension "" path))
          with
          | Throw err => Throw err
          | Ok pieces =>
              Ok (titleOf
                    (filter (fun t => nonEmpty t)
                       (map (fun piece =>
                               trim (replace versionNumber ""
                                       (replaceAll spacesAndUnderbars " "
                                          piece)))
                            pieces)))
          end)
  /\ (forall p pieces,
        p "%"%char = true -> p "/"%char = true -> p "."%char = true ->
        forallb wellFormedPiece pieces = true ->
        titleOfPath
          (pathOf (map (fun piece => escapeWhere p (pieceText piece)) pieces))
        = Ok (titleOf (filter (fun t => nonEmpty t)
                         (map pieceTitle pieces))))
  /\ (forall segments,
        segments <> [] ->
        forallb cleanSegment segments = true ->
        titleOfPath (pathOf segments) = Ok (join " / " segments))
  /\ (forall path title, titleOfPath path = Ok title -> title <> "")
  /\ (forall stem ext,
        dotsBeforeSlash stem = true ->
        allBytes notSlash ext = true ->
        replace fileExtension "" (stem +:+ "." +:+ ext) = stem)
  /\ (forall path,
        dotsBeforeSlash path = true -> replace fileExtension "" path = path)
  /\ (forall p s,
        p "%"%char = true -> allBytes isAscii s = true ->
        decodeURIComponent (escapeWhere p s) = Some s)
  /\ (forall s,
        allBytes isAscii s = true ->
        replaceAll spacesAndUnderbars " " s = collapseGaps false s)
  /\ (forall name v,
        allBytes notAt name = true ->
        isVersion v = true ->
        replace versionNumber "" (name +:+ "@" +:+ v) = name)
  /\ (forall s, allBytes isAscii s = true -> trim s = stripped s)
  /\ titleOfPath "/foo/bar" = Ok "foo / bar"
  /\ titleOfPath "/" = Ok "(top level)"
  /\ titleOfPath "/x/my_module@v1.2.3/sub%20dir/mod.ts"
     = Ok "x / my module / sub dir / mod"
  /\ titleOfPath "/%20foo%20/_bar_" = Ok "foo / bar"
  /\ titleOfPath "/%41%62c/a%2Fb" = Ok "Abc / a/b"
  /\ titleOfPath ("/caf%C3%A9/%C2%A0x") = Ok ("caf" +:+ eAcute +:+ " / x")
  /\ trim (" x " +:+ noBreakSpace) = "x"
  /\ decodeURIComponent "%C2%A0" = Some noBreakSpace
  /\ decodeURIComponent "%E9" = None
  /\ getPageTitle Imported.URL_parse Imported.STATUS_TEXT
       {| method := "POST"; url := "https://deno.land/foo/bar"; headers := [] |}
       {| status := 200; statusText := "OK" |} = Ok "200 ok"
  /\ getPageTitle Imported.URL_parse Imported.STATUS_TEXT
       {| method := "GET"; url := "https://deno.land/foo/bar"; headers := [] |}
       {| status := 404; statusText := "" |} = Ok "404 not found"
  /\ getPageTitle Imported.URL_parse Imported.STATUS_TEXT
       {| method := "GET"; url := "https://deno.land/foo/bar"; headers := [] |}
       {| status := 299; statusText := "" |} = Ok "foo / bar"
  /\ getPageTitle Imported.URL_parse Imported.STATUS_TEXT
       {| method := "GET"; url := "https://deno.land/foo/bar"; headers := [] |}
       {| status := 799; statusText := "" |} = Ok "799 invalid status"
  /\ getPageTitle Imported.URL_parse Imported.STATUS_TEXT
       {| method := "HEAD"; url := "https://deno.land/%20std%20/fs_extra";
          headers := [] |}
       {| status := 200; statusText := "OK" |} = Ok "std / fs extra".
Proof.
  split; [|split; [|split; [|split; [|split; [|split; [|split; [|split;
    [|split; [|split; [|split]]]]]]]]]];
    [|exact titleOfPath_segments|exact titleOfPath_pieces
     |exact titleOfPath_clean|exact titleOfPath_nonEmpty
     |exact replace_fileExtension|exact replace_fileExtension_none
     |exact decodeURIComponent_escapeWhere
     |intros s Hs; exact (proj1 (replaceAll_gaps s Hs))
     |exact replace_versionNumber|exact trim_ascii
     |repeat split].
  - intros URL_parse STATUS_TEXT request response.
    unfold getPageTitle, formatStatus, isSuccess, nonEmpty.
    destruct (String.eqb (statusText response) "");
      destruct (STATUS_TEXT (status response)); reflexivity.
Qed.

Lemma page_title_derivation_witness :
  titleOfPath "/%20my%5Fmodule%20%40v1%2E2%2E3/A%20%20b/%20/x%2Fy"
  = Ok "my module / A b / x/y"
  /\ titleOfPath "/foo/bar" = Ok "foo / bar"
  /\ titleOfPath "/x/case" <> Ok ""
  /\ replace fileExtension "" "/std@0.120.0/http/server.ts"
     = "/std@0.120.0/http/server"
  /\ replace fileExtension "" "/std@0.120.0/http" = "/std@0.120.0/http"
  /\ decodeURIComponent "%41%20%25%2F" = Some "A %/"
  /\ replaceAll spacesAndUnderbars " " "my__module _ name" = "my module name"
  /\ replace versionNumber "" "std@0.120.0" = "std"
  /\ trim "  my module  " = "my module".
Proof.
  destruct page_title_derivation
    as (_ & _ & Hpieces & Hclean & Hne & Hext & Hnoext & Hdecode & Hgaps
        & Hversion & Htrim & _).
  split; [|split; [|split; [|split; [|split; [|split; [|split; [|split]]]]]]].
  - apply (Hpieces notAlphaNum
             [(" my_module ", Some "v1.2.3"); ("A  b", None); (" ", None);
              ("x/y", None)]); reflexivity.
  - apply (Hclean ["foo"; "bar"]); [discriminate|reflexivity].
  - intros H. apply (Hne "/x/case" "" H). reflexivity.
  - apply (Hext "/std@0.120.0/http/server" "ts"); reflexivity.
  - apply Hnoext. reflexivity.
  - apply (Hdecode notAlphaNum "A %/"); reflexivity.
  - apply (Hgaps "my__module _ name"). reflexivity.
  - apply (Hversion "std" "0.120.0"); reflexivity.
  - apply (Htrim "  my module  "). reflexivity.
Defined.
